(** * Interactive map component: bounds computation, widget factory and
      component lifecycle

    A shallow embedding of [MapWidgetsFactory]
    (src/app/factories/MapWidgetsFactory.ts) and of [MapComponent] (the
    second half of src/unnamed/part_000: the component with loading and
    error state, handles held in refs and [calculateBounds]).  The first
    revision of both (src/unnamed/part_001 and the first half of part_000)
    is embedded in [Module V1], for comparison.

    - JavaScript numbers are [num]: NaN, the two infinities, and the finite
      values as the rationals they denote.  The code only compares them and
      takes [Math.min], [Math.max], [isNaN] and [isFinite], all of them
      exact; the sign of zero, which none of these tells apart except as the
      choice between two equal arguments, is not modelled.
    - The mapping SDK is an oracle ([Sdk]): whether each constructor
      throws, whether the [destroy] of each object throws, whether
      [view.when()] and [view.goTo(..)] reject.  SDK calls leave a trace in
      the [world]: the objects constructed, the [destroy] invocations, the
      components on [view.ui], the graphics in the layer, the registered
      listeners and the console.
    - Code that can throw lives in a state-and-exception monad [M].
    - The mounted component is a state machine ([step]): its asynchronous
      [setup] advances from one [await] to the next on [Resume]; [Unmount]
      runs the cleanup of the mount effect; a click flips the toggle and
      runs the effect that depends on it. *)

From Stdlib Require Import QArith Qminmax Lqa.
From stdpp Require Import base option list gmap sets strings.

Open Scope string_scope.

(* [set_solver] clears hypotheses it has already consumed. *)
#[local] Set Warnings "-clear-no-such-hyp".

(* ===================================================================== *)
(** ** JavaScript values                                                  *)
(* ===================================================================== *)

Inductive num : Type :=
| NaN
| NegInf
| Fin (q : Q)
| PosInf.

(** [a < b] on numbers: false as soon as one side is NaN. *)
Definition num_ltb (a b : num) : bool :=
  match a, b with
  | NaN, _ | _, NaN => false
  | _, NegInf => false
  | NegInf, _ => true
  | PosInf, _ => false
  | Fin _, PosInf => true
  | Fin x, Fin y => negb (Qle_bool y x)
  end.

(** [a <= b] on numbers. *)
Definition num_leb (a b : num) : bool :=
  match a, b with
  | NaN, _ | _, NaN => false
  | NegInf, _ => true
  | _, PosInf => true
  | _, NegInf => false
  | PosInf, _ => false
  | Fin x, Fin y => Qle_bool x y
  end.

Definition isNaN (a : num) : bool :=
  match a with NaN => true | _ => false end.

Definition isFinite (a : num) : bool :=
  match a with Fin _ => true | _ => false end.

(** [Math.min(a, b)]: NaN if either is NaN, else the smaller. *)
Definition Math_min (a b : num) : num :=
  match a, b with
  | NaN, _ | _, NaN => NaN
  | _, _ => if num_ltb b a then b else a
  end.

(** [Math.max(a, b)]: NaN if either is NaN, else the larger. *)
Definition Math_max (a b : num) : num :=
  match a, b with
  | NaN, _ | _, NaN => NaN
  | _, _ => if num_ltb a b then b else a
  end.

(** The values an entry of a JSON-loaded record can hold. *)
Inductive jsval : Type :=
| VUndefined
| VNull
| VBool (b : bool)
| VNum (n : num)
| VStr (s : string).

(** [typeof v === 'number'] *)
Definition is_number (v : jsval) : bool :=
  match v with VNum _ => true | _ => false end.

(** A point record of the bundled data file.  [coordinates] is [None] when
    the field is missing (or null), else the array it holds. *)
Record point : Type := mkPoint {
  id : jsval;
  name : jsval;
  coordinates : option (list jsval)
}.

(** What a [throw] carries: an [Error] object with its message, or some
    other value, known by the text it converts to. *)
Inductive thrown : Type :=
| Error (message : string)
| Other (text : string).

(** The text of a thrown value inside a template literal. *)
Definition template (e : thrown) : string :=
  match e with
  | Error m => "Error: " ++ m
  | Other t => t
  end.

(* ===================================================================== *)
(** ** The SDK and the world it acts on                                   *)
(* ===================================================================== *)

Inductive widget_name : Type :=
| home | compass | locate | search | scaleBar | fullscreen
| basemapGallery | coordinateConversion | measurement | sketch.

(** The SDK classes the factory instantiates. *)
Inductive ctor : Type :=
| CMap
| CGraphicsLayer
| CMapView
| CWidget (w : widget_name).

(** The [destroy] property of an object. *)
Inductive destroy_prop : Type :=
| NotAFunction
| DestroyFn (outcome : option thrown).   (* [Some e]: the call throws [e] *)

(** An object value: its reference and what its [destroy] property is. *)
Record jsobj : Type := mkObj {
  ref : nat;
  destroy : destroy_prop
}.

Inductive log_entry : Type :=
| Warn (msg : string) (p : point)
| LogError (msg : string) (e : thrown).

Record world : Type := mkWorld {
  heap : list ctor;          (* objects constructed, oldest first; an
                                object's reference is its index here *)
  torn_down : list nat;      (* [destroy()] invocations, oldest first *)
  ui : gset nat;             (* the components on [view.ui] *)
  layer : list point;        (* attributes of the graphics in the layer *)
  listeners : list string;   (* [view.on] / [view.watch] registrations *)
  console : list log_entry   (* oldest first *)
}.

Definition world0 : world := mkWorld [] [] ∅ [] [] [].

(** Behaviour of the SDK during one mount. *)
Record Sdk : Type := mkSdk {
  new_throws : ctor -> option thrown;      (* [Some e]: [new C(..)] throws *)
  destroy_throws : ctor -> option thrown;  (* [Some e]: [x.destroy()] throws *)
  when_rejects : option thrown;            (* [view.when()] *)
  goTo_rejects : option thrown             (* [view.goTo(..)] *)
}.

(* ===================================================================== *)
(** ** State and exceptions                                               *)
(* ===================================================================== *)

Definition M (S A : Type) : Type := S -> (A + thrown) * S.

Definition ret {S A} (a : A) : M S A := fun s => (inl a, s).

Definition throw {S A} (e : thrown) : M S A := fun s => (inr e, s).

Definition bind {S A B} (m : M S A) (k : A -> M S B) : M S B :=
  fun s => match m s with
           | (inl a, s') => k a s'
           | (inr e, s') => (inr e, s')
           end.

(** [try { m } catch (e) { h e }]; what [m] did before throwing stays done. *)
Definition try_catch {S A} (m : M S A) (h : thrown -> M S A) : M S A :=
  fun s => match m s with
           | (inl a, s') => (inl a, s')
           | (inr e, s') => h e s'
           end.

Definition modify {S} (f : S -> S) : M S unit := fun s => (inl tt, f s).

Definition gets {S A} (f : S -> A) : M S A := fun s => (inl (f s), s).

Declare Scope m_scope.
Delimit Scope m_scope with M.
Notation "x <- m ;; k" := (bind m (fun x => k))
  (at level 100, m at next level, right associativity) : m_scope.
Notation "m ;; k" := (bind m (fun _ => k))
  (at level 100, right associativity) : m_scope.
Open Scope m_scope.

(** [l.forEach(f)]: stops at the first call that throws. *)
Fixpoint forEach {S A} (f : A -> M S unit) (l : list A) : M S unit :=
  match l with
  | [] => ret tt
  | x :: l' => f x ;; forEach f l'
  end.

(** A loop whose body updates local variables [B] of the enclosing
    function. *)
Fixpoint forEach_acc {S A B} (f : A -> B -> M S B) (l : list A) (b : B) : M S B :=
  match l with
  | [] => ret b
  | x :: l' => b' <- f x b ;; forEach_acc f l' b'
  end.

(* ---- world updates ---- *)

Definition log (e : log_entry) (σ : world) : world :=
  mkWorld (heap σ) (torn_down σ) (ui σ) (layer σ) (listeners σ) (console σ ++ [e]).

Definition console_warn (msg : string) (p : point) : M world unit :=
  modify (log (Warn msg p)).

Definition console_error (msg : string) (e : thrown) : M world unit :=
  modify (log (LogError msg e)).

(* ===================================================================== *)
(** ** calculateBounds                                                    *)
(* ===================================================================== *)

(** The four local variables of [calculateBounds]. *)
Record extent : Type := mkExtent {
  minLon : num;
  minLat : num;
  maxLon : num;
  maxLat : num
}.

Definition extent0 : extent := mkExtent PosInf PosInf NegInf NegInf.

Definition box : Type := (num * num) * (num * num).

(** The body of the [forEach] callback. *)
Definition visit (p : point) (a : extent) : M world extent :=
  match coordinates p with
  | None => console_warn "Invalid point coordinates:" p ;; ret a
  | Some cs =>
    if (length cs <? 2)%nat
    then console_warn "Invalid point coordinates:" p ;; ret a
    else
      match nth 0 cs VUndefined, nth 1 cs VUndefined with
      | VNum lon, VNum lat =>
        if isNaN lon || isNaN lat
        then console_warn "Invalid coordinate values:" p ;; ret a
        else ret (mkExtent (Math_min (minLon a) lon) (Math_min (minLat a) lat)
                           (Math_max (maxLon a) lon) (Math_max (maxLat a) lat))
      | _, _ => console_warn "Invalid coordinate values:" p ;; ret a
      end
  end.

Definition calculateBounds (points : list point) : M world box :=
  if (length points =? 0)%nat
  then throw (Error "No points data available")
  else
    a <- forEach_acc visit points extent0 ;;
    if negb (isFinite (minLon a)) || negb (isFinite (maxLon a))
       || negb (isFinite (minLat a)) || negb (isFinite (maxLat a))
    then throw (Error "Invalid bounds calculated from points")
    else ret ((minLon a, minLat a), (maxLon a, maxLat a)).

Definition example_points : list point :=
  [ mkPoint (VNum (Fin 1)) (VStr "A") (Some [VNum (Fin 30); VNum (Fin 30)]);
    mkPoint (VNum (Fin 2)) (VStr "B") (Some [VNum (Fin 32); VNum (Fin 28)]) ].

(* ===================================================================== *)
(** ** MapWidgetsFactory                                                  *)
(* ===================================================================== *)

#[global] Instance widget_name_eq_dec : EqDecision widget_name.
Proof. solve_decision. Defined.

(** [WidgetsState]: an object with optional properties; the list keeps the
    properties in insertion order, which is the order of [Object.values].
    A property can be present and hold [undefined] ([None]). *)
Definition WidgetsState : Type := list (widget_name * option jsobj).

(** [widgets.k] *)
Fixpoint ws_get (k : widget_name) (ws : WidgetsState) : option jsobj :=
  match ws with
  | [] => None
  | (k', v) :: ws' => if decide (k = k') then v else ws_get k ws'
  end.

(** [widgets.k = v]: an existing property keeps its place, a new one goes
    last. *)
Fixpoint ws_set (k : widget_name) (v : option jsobj) (ws : WidgetsState) : WidgetsState :=
  match ws with
  | [] => [(k, v)]
  | (k', v') :: ws' =>
    if decide (k = k') then (k', v) :: ws' else (k', v') :: ws_set k v ws'
  end.

Definition Object_values (ws : WidgetsState) : list (option jsobj) := map snd ws.

Definition alloc (c : ctor) (σ : world) : world :=
  mkWorld (heap σ ++ [c]) (torn_down σ) (ui σ) (layer σ) (listeners σ) (console σ).

(** [new C(..)] for an SDK class: throws, or returns a fresh object whose
    [destroy] is a method. *)
Definition new (sdk : Sdk) (c : ctor) : M world jsobj :=
  fun σ =>
    match new_throws sdk c with
    | Some e => (inr e, σ)
    | None => (inl (mkObj (length (heap σ)) (DestroyFn (destroy_throws sdk c))),
               alloc c σ)
    end.

Definition createMap (sdk : Sdk) : M world jsobj :=
  try_catch (new sdk CMap)
    (fun error => throw (Error ("Failed to create map: " ++ template error))).

Definition createMapView (sdk : Sdk) (container map : jsobj) : M world jsobj :=
  try_catch (new sdk CMapView)
    (fun error => throw (Error ("Failed to create map view: " ++ template error))).

Definition createGraphicsLayer (sdk : Sdk) (id : string) : M world jsobj :=
  try_catch (new sdk CGraphicsLayer)
    (fun error => throw (Error ("Failed to create graphics layer: " ++ template error))).

Definition createHomeWidget (sdk : Sdk) (view : jsobj) : M world jsobj :=
  try_catch (new sdk (CWidget home))
    (fun error => throw (Error ("Failed to create home widget: " ++ template error))).

Definition createCompassWidget (sdk : Sdk) (view : jsobj) : M world jsobj :=
  try_catch (new sdk (CWidget compass))
    (fun error => throw (Error ("Failed to create compass widget: " ++ template error))).

Definition createLocateWidget (sdk : Sdk) (view : jsobj) : M world jsobj :=
  try_catch (new sdk (CWidget locate))
    (fun error => throw (Error ("Failed to create locate widget: " ++ template error))).

Definition createSearchWidget (sdk : Sdk) (view : jsobj) : M world jsobj :=
  try_catch (new sdk (CWidget search))
    (fun error => throw (Error ("Failed to create search widget: " ++ template error))).

Definition createScaleBarWidget (sdk : Sdk) (view : jsobj) : M world jsobj :=
  try_catch (new sdk (CWidget scaleBar))
    (fun error => throw (Error ("Failed to create scale bar widget: " ++ template error))).

Definition createFullscreenWidget (sdk : Sdk) (view : jsobj) : M world jsobj :=
  try_catch (new sdk (CWidget fullscreen))
    (fun error => throw (Error ("Failed to create fullscreen widget: " ++ template error))).

Definition createBasemapGallery (sdk : Sdk) (view : jsobj) : M world jsobj :=
  try_catch (new sdk (CWidget basemapGallery))
    (fun error => throw (Error ("Failed to create basemap gallery: " ++ template error))).

Definition createCoordinateConversionWidget (sdk : Sdk) (view : jsobj) : M world jsobj :=
  try_catch (new sdk (CWidget coordinateConversion))
    (fun error =>
       throw (Error ("Failed to create coordinate conversion widget: " ++ template error))).

Definition createMeasurementWidget (sdk : Sdk) (view : jsobj) : M world jsobj :=
  try_catch (new sdk (CWidget measurement))
    (fun error => throw (Error ("Failed to create measurement widget: " ++ template error))).

Definition createSketchWidget (sdk : Sdk) (view layer : jsobj) : M world jsobj :=
  try_catch (new sdk (CWidget sketch))
    (fun error => throw (Error ("Failed to create sketch widget: " ++ template error))).

Definition createAllWidgets (sdk : Sdk) (view : jsobj) (graphicsLayer : option jsobj)
  : M world WidgetsState :=
  try_catch
    (w_home <- createHomeWidget sdk view ;;
     w_compass <- createCompassWidget sdk view ;;
     w_locate <- createLocateWidget sdk view ;;
     w_search <- createSearchWidget sdk view ;;
     w_scaleBar <- createScaleBarWidget sdk view ;;
     w_fullscreen <- createFullscreenWidget sdk view ;;
     w_basemapGallery <- createBasemapGallery sdk view ;;
     w_coordinateConversion <- createCoordinateConversionWidget sdk view ;;
     w_measurement <- createMeasurementWidget sdk view ;;
     let widgets : WidgetsState :=
       [ (home, Some w_home); (compass, Some w_compass); (locate, Some w_locate);
         (search, Some w_search); (scaleBar, Some w_scaleBar);
         (fullscreen, Some w_fullscreen); (basemapGallery, Some w_basemapGallery);
         (coordinateConversion, Some w_coordinateConversion);
         (measurement, Some w_measurement) ] in
     match graphicsLayer with
     | Some l =>
       w_sketch <- createSketchWidget sdk view l ;;
       ret (ws_set sketch (Some w_sketch) widgets)
     | None => ret widgets
     end)
    (fun error => throw (Error ("Failed to create widgets: " ++ template error))).

(** [o.destroy()] where [destroy] is the method with outcome [out]. *)
Definition invoke_destroy (o : jsobj) (out : option thrown) : M world unit :=
  fun σ =>
    let σ' := mkWorld (heap σ) (torn_down σ ++ [ref o]) (ui σ) (layer σ)
                      (listeners σ) (console σ) in
    match out with
    | Some e => (inr e, σ')
    | None => (inl tt, σ')
    end.

Definition destroyWidgets (widgets : WidgetsState) : M world unit :=
  forEach
    (fun widget =>
       try_catch
         (match widget with
          | Some o =>
            match destroy o with
            | DestroyFn out => invoke_destroy o out
            | NotAFunction => ret tt
            end
          | None => ret tt
          end)
         (fun error => console_error "Failed to destroy widget:" error))
    (Object_values widgets).

Definition destroyView (view : option jsobj) : M world unit :=
  match view with
  | Some o =>
    match destroy o with
    | DestroyFn out =>
      try_catch (invoke_destroy o out)
        (fun error => console_error "Failed to destroy view:" error)
    | NotAFunction => ret tt
    end
  | None => ret tt
  end.

(* ===================================================================== *)
(** ** MapComponent                                                       *)
(* ===================================================================== *)

(** What the component is mounted with. *)
Record Env : Type := mkEnv {
  env_sdk : Sdk;
  container : option jsobj;     (* [mapDivRef.current] *)
  pointsData : list point;      (* the bundled data file *)
  onMapClick : bool;            (* was the callback prop supplied? *)
  onExtentChange : bool
}.

(** Where the asynchronous [setup] is suspended. *)
Inductive phase : Type :=
| AwaitInit (r : (jsobj * jsobj) + thrown)    (* [await initializeMap()] *)
| AwaitWhen (mapView : jsobj) (bounds : box)  (* [await mapView.when()] *)
| AwaitGoTo                                   (* [await mapView.goTo(..)] *)
| Settled.

Record component : Type := mkComponent {
  viewRef : option jsobj;
  widgetsRef : WidgetsState;
  toolsOpenRef : bool;
  basemapOpenRef : bool;
  toolsOpen : bool;
  basemapOpen : bool;
  loading : bool;
  error : option string;
  mounted : bool;       (* the [mounted] variable of the effect's closure *)
  pending : phase
}.

(** The state of a mounted component and of the SDK around it. *)
Record page : Type := mkPage { comp : component; wld : world }.

Definition liftW {A} (m : M world A) : M page A :=
  fun s => let (r, σ) := m (wld s) in (r, mkPage (comp s) σ).

Definition modifyC (f : component -> component) : M page unit :=
  modify (fun s => mkPage (f (comp s)) (wld s)).

Definition set_viewRef (v : option jsobj) (c : component) : component :=
  mkComponent v (widgetsRef c) (toolsOpenRef c) (basemapOpenRef c) (toolsOpen c)
              (basemapOpen c) (loading c) (error c) (mounted c) (pending c).
Definition set_widgetsRef (ws : WidgetsState) (c : component) : component :=
  mkComponent (viewRef c) ws (toolsOpenRef c) (basemapOpenRef c) (toolsOpen c)
              (basemapOpen c) (loading c) (error c) (mounted c) (pending c).
Definition set_toolsOpenRef (b : bool) (c : component) : component :=
  mkComponent (viewRef c) (widgetsRef c) b (basemapOpenRef c) (toolsOpen c)
              (basemapOpen c) (loading c) (error c) (mounted c) (pending c).
Definition set_basemapOpenRef (b : bool) (c : component) : component :=
  mkComponent (viewRef c) (widgetsRef c) (toolsOpenRef c) b (toolsOpen c)
              (basemapOpen c) (loading c) (error c) (mounted c) (pending c).
Definition setToolsOpen (b : bool) (c : component) : component :=
  mkComponent (viewRef c) (widgetsRef c) (toolsOpenRef c) (basemapOpenRef c) b
              (basemapOpen c) (loading c) (error c) (mounted c) (pending c).
Definition setBasemapOpen (b : bool) (c : component) : component :=
  mkComponent (viewRef c) (widgetsRef c) (toolsOpenRef c) (basemapOpenRef c)
              (toolsOpen c) b (loading c) (error c) (mounted c) (pending c).
Definition setLoading (b : bool) (c : component) : component :=
  mkComponent (viewRef c) (widgetsRef c) (toolsOpenRef c) (basemapOpenRef c)
              (toolsOpen c) (basemapOpen c) b (error c) (mounted c) (pending c).
Definition setError (e : option string) (c : component) : component :=
  mkComponent (viewRef c) (widgetsRef c) (toolsOpenRef c) (basemapOpenRef c)
              (toolsOpen c) (basemapOpen c) (loading c) e (mounted c) (pending c).
Definition set_mounted (b : bool) (c : component) : component :=
  mkComponent (viewRef c) (widgetsRef c) (toolsOpenRef c) (basemapOpenRef c)
              (toolsOpen c) (basemapOpen c) (loading c) (error c) b (pending c).
Definition set_pending (p : phase) (c : component) : component :=
  mkComponent (viewRef c) (widgetsRef c) (toolsOpenRef c) (basemapOpenRef c)
              (toolsOpen c) (basemapOpen c) (loading c) (error c) (mounted c) p.

(** The state of a fresh render: [useRef] and [useState] initial values. *)
Definition component0 : component :=
  mkComponent None [] false false false false true None true Settled.

(* ---- SDK calls of the component ---- *)

(** [view.ui.add(w, position)]: [w] is on the UI surface afterwards. *)
Definition ui_add (w : jsobj) (position : string) : M world unit :=
  modify (fun σ => mkWorld (heap σ) (torn_down σ) ({[ref w]} ∪ ui σ) (layer σ)
                           (listeners σ) (console σ)).

(** [view.ui.remove(w)]: [w] is not on the UI surface afterwards. *)
Definition ui_remove (w : jsobj) : M world unit :=
  modify (fun σ => mkWorld (heap σ) (torn_down σ) (ui σ ∖ {[ref w]}) (layer σ)
                           (listeners σ) (console σ)).

(** [view.ui.add(widgets.k!, position)] *)
Definition ui_add_slot (w : option jsobj) (position : string) : M world unit :=
  match w with
  | Some o => ui_add o position
  | None => ret tt
  end.

(** [map.add(graphicsLayer)]: the component never reads the map's layers. *)
Definition map_add (map graphicsLayer : jsobj) : M world unit := ret tt.

(** [graphicsLayer.add(new Graphic({.., attributes: point, ..}))] *)
Definition layer_add (p : point) : M world unit :=
  modify (fun σ => mkWorld (heap σ) (torn_down σ) (ui σ) (layer σ ++ [p])
                           (listeners σ) (console σ)).

(** [mapView.on(name, ..)], [mapView.watch(name, ..)] *)
Definition listen (name : string) : M world unit :=
  modify (fun σ => mkWorld (heap σ) (torn_down σ) (ui σ) (layer σ)
                           (listeners σ ++ [name]) (console σ)).

(* ---- the component's functions ---- *)

Definition addPointsToLayer (env : Env) (graphicsLayer : jsobj) : M world box :=
  forEach
    (fun p =>
       match coordinates p with
       | None => console_warn "Skipping invalid point:" p
       | Some cs =>
         if (length cs <? 2)%nat
         then console_warn "Skipping invalid point:" p
         else
           match nth 0 cs VUndefined, nth 1 cs VUndefined with
           | VNum lon, VNum lat =>
             if isNaN lon || isNaN lat
             then console_warn "Skipping point with invalid coordinates:" p
             else layer_add p
           | _, _ => console_warn "Skipping point with invalid coordinates:" p
           end
       end)
    (pointsData env) ;;
  calculateBounds (pointsData env).

Definition initializeMap (env : Env) : M page (jsobj * jsobj) :=
  match container env with
  | None => throw (Error "Map container not found")
  | Some div =>
    try_catch
      (map <- liftW (createMap (env_sdk env)) ;;
       graphicsLayer <- liftW (createGraphicsLayer (env_sdk env) "draw-layer") ;;
       liftW (map_add map graphicsLayer) ;;
       mapView <- liftW (createMapView (env_sdk env) div map) ;;
       createdWidgets <- liftW (createAllWidgets (env_sdk env) mapView (Some graphicsLayer)) ;;
       modifyC (set_viewRef (Some mapView)) ;;
       modifyC (set_widgetsRef createdWidgets) ;;
       liftW (ui_add_slot (ws_get home createdWidgets) "top-left") ;;
       liftW (ui_add_slot (ws_get compass createdWidgets) "top-left") ;;
       liftW (ui_add_slot (ws_get locate createdWidgets) "top-left") ;;
       liftW (ui_add_slot (ws_get search createdWidgets) "top-right") ;;
       liftW (ui_add_slot (ws_get fullscreen createdWidgets) "top-right") ;;
       liftW (ui_add_slot (ws_get scaleBar createdWidgets) "bottom-right") ;;
       liftW (ui_add_slot (ws_get coordinateConversion createdWidgets) "bottom-left") ;;
       ret (mapView, graphicsLayer))
      (fun err => throw (Error ("Map initialization failed: " ++ template err)))
  end.

(** The [catch] block of [setup]. *)
Definition setup_catch (err : thrown) (s : page) : page :=
  let c := comp s in
  let c := if mounted c
           then setLoading false
                  (setError (Some match err with
                                  | Error message => message
                                  | Other _ => "Unknown error occurred"
                                  end) c)
           else c in
  mkPage (set_pending Settled c) (wld s).

(** [setup()] up to its first [await]. *)
Definition setup_start (env : Env) (s : page) : page :=
  let s := mkPage (setError None (setLoading true (comp s))) (wld s) in
  let (r, s) := initializeMap env s in
  mkPage (set_pending (AwaitInit r) (comp s)) (wld s).

(** [setup()] from the [await] it is suspended at to the next one. *)
Definition setup_resume (env : Env) (s : page) : page :=
  match pending (comp s) with
  | AwaitInit (inr err) => setup_catch err s
  | AwaitInit (inl (mapView, graphicsLayer)) =>
    if negb (mounted (comp s))
    then mkPage (set_pending Settled (comp s)) (wld s)
    else
      match (bounds <- addPointsToLayer env graphicsLayer ;;
             (if onMapClick env then listen "click" else ret tt) ;;
             (if onExtentChange env then listen "extent" else ret tt) ;;
             ret bounds) (wld s) with
      | (inl bounds, σ) => mkPage (set_pending (AwaitWhen mapView bounds) (comp s)) σ
      | (inr err, σ) => setup_catch err (mkPage (comp s) σ)
      end
  | AwaitWhen mapView bounds =>
    match when_rejects (env_sdk env) with
    | Some err => setup_catch err s
    | None =>
      if mounted (comp s)
      then mkPage (set_pending AwaitGoTo (comp s)) (wld s)
      else mkPage (set_pending Settled (comp s)) (wld s)
    end
  | AwaitGoTo =>
    match goTo_rejects (env_sdk env) with
    | Some err => setup_catch err s
    | None => mkPage (set_pending Settled (setLoading false (comp s))) (wld s)
    end
  | Settled => s
  end.

(** The function the first effect returns.  [widgetsRef.current] is always
    an object, so its test always passes. *)
Definition cleanup : M page unit :=
  modifyC (set_mounted false) ;;
  (ws <- gets (fun s => widgetsRef (comp s)) ;;
   liftW (destroyWidgets ws) ;;
   modifyC (set_widgetsRef [])) ;;
  view <- gets (fun s => viewRef (comp s)) ;;
  match view with
  | Some _ =>
    liftW (destroyView view) ;;
    modifyC (set_viewRef None)
  | None => ret tt
  end.

(** The effect on [basemapOpen]. *)
Definition basemapEffect : M page unit :=
  view <- gets (fun s => viewRef (comp s)) ;;
  w <- gets (fun s => ws_get basemapGallery (widgetsRef (comp s))) ;;
  match view, w with
  | Some _, Some w_basemapGallery =>
    open <- gets (fun s => basemapOpen (comp s)) ;;
    (if open : bool
     then liftW (ui_add w_basemapGallery "bottom-right")
     else liftW (ui_remove w_basemapGallery)) ;;
    modifyC (set_basemapOpenRef open)
  | _, _ => ret tt
  end.

(** The effect on [toolsOpen]. *)
Definition toolsEffect : M page unit :=
  view <- gets (fun s => viewRef (comp s)) ;;
  w1 <- gets (fun s => ws_get measurement (widgetsRef (comp s))) ;;
  w2 <- gets (fun s => ws_get sketch (widgetsRef (comp s))) ;;
  match view, w1, w2 with
  | Some _, Some w_measurement, Some w_sketch =>
    open <- gets (fun s => toolsOpen (comp s)) ;;
    (if open : bool
     then liftW (ui_add w_measurement "bottom-right") ;;
          liftW (ui_add w_sketch "bottom-right")
     else liftW (ui_remove w_measurement) ;;
          liftW (ui_remove w_sketch)) ;;
    modifyC (set_toolsOpenRef open)
  | _, _, _ => ret tt
  end.

(** [handleToolsToggle], followed by the effect the new [toolsOpen] fires. *)
Definition handleToolsToggle : M page unit :=
  modifyC (fun c => setToolsOpen (negb (toolsOpen c)) c) ;;
  toolsEffect.

(** [handleBasemapToggle], followed by the effect the new [basemapOpen]
    fires. *)
Definition handleBasemapToggle : M page unit :=
  modifyC (fun c => setBasemapOpen (negb (basemapOpen c)) c) ;;
  basemapEffect.

(* ---- the component as a state machine ---- *)

Definition exec {S} (m : M S unit) (s : S) : S := snd (m s).

(** Mounting: the three effects run once, in the order they are declared. *)
Definition mount (env : Env) : page :=
  exec toolsEffect (exec basemapEffect (setup_start env (mkPage component0 world0))).

Inductive event : Type :=
| Resume          (* the promise [setup] awaits settles *)
| Unmount         (* the effect's cleanup runs *)
| ClickTools
| ClickBasemap.

(** The two buttons are rendered while the component is mounted and shows
    no error panel. *)
Definition buttons_rendered (s : page) : bool :=
  mounted (comp s) && bool_decide (error (comp s) = None).

Definition step (env : Env) (s : page) (ev : event) : page :=
  match ev with
  | Resume => setup_resume env s
  | Unmount => exec cleanup s
  | ClickTools => if buttons_rendered s then exec handleToolsToggle s else s
  | ClickBasemap => if buttons_rendered s then exec handleBasemapToggle s else s
  end.

Definition run (env : Env) (evs : list event) : page :=
  fold_left (step env) evs (mount env).

(** The lifecycle state the render shows. *)
Inductive lifecycle : Type :=
| Initializing
| Ready
| Failed (message : string).

Definition lifecycle_of (s : page) : lifecycle :=
  match error (comp s) with
  | Some message => Failed message
  | None => if loading (comp s) then Initializing else Ready
  end.

Definition sdk_ok : Sdk := mkSdk (fun _ => None) (fun _ => None) None None.

Definition div0 : jsobj := mkObj 0 NotAFunction.

Definition env_ok : Env := mkEnv sdk_ok (Some div0) example_points false false.

(* ===================================================================== *)
(** ** The first revision                                                 *)
(* ===================================================================== *)

(** The factory of src/unnamed/part_001 and the component in the first half
    of src/unnamed/part_000: the revision before error wrapping, coordinate
    validation and the handles held in refs were added. *)
Module V1.

Definition createMap (sdk : Sdk) : M world jsobj := new sdk CMap.
Definition createMapView (sdk : Sdk) (container map : jsobj) : M world jsobj :=
  new sdk CMapView.
Definition createGraphicsLayer (sdk : Sdk) (id : string) : M world jsobj :=
  new sdk CGraphicsLayer.
Definition createHomeWidget (sdk : Sdk) (view : jsobj) : M world jsobj :=
  new sdk (CWidget home).
Definition createCompassWidget (sdk : Sdk) (view : jsobj) : M world jsobj :=
  new sdk (CWidget compass).
Definition createLocateWidget (sdk : Sdk) (view : jsobj) : M world jsobj :=
  new sdk (CWidget locate).
Definition createSearchWidget (sdk : Sdk) (view : jsobj) : M world jsobj :=
  new sdk (CWidget search).
Definition createScaleBarWidget (sdk : Sdk) (view : jsobj) : M world jsobj :=
  new sdk (CWidget scaleBar).
Definition createFullscreenWidget (sdk : Sdk) (view : jsobj) : M world jsobj :=
  new sdk (CWidget fullscreen).
Definition createBasemapGallery (sdk : Sdk) (view : jsobj) : M world jsobj :=
  new sdk (CWidget basemapGallery).
Definition createCoordinateConversionWidget (sdk : Sdk) (view : jsobj) : M world jsobj :=
  new sdk (CWidget coordinateConversion).
Definition createMeasurementWidget (sdk : Sdk) (view : jsobj) : M world jsobj :=
  new sdk (CWidget measurement).
Definition createSketchWidget (sdk : Sdk) (view layer : jsobj) : M world jsobj :=
  new sdk (CWidget sketch).

Definition setupAllWidgets (sdk : Sdk) (view : jsobj) (graphicsLayer : option jsobj)
  : M world WidgetsState :=
  w_home <- createHomeWidget sdk view ;;
  w_compass <- createCompassWidget sdk view ;;
  w_locate <- createLocateWidget sdk view ;;
  w_search <- createSearchWidget sdk view ;;
  w_scaleBar <- createScaleBarWidget sdk view ;;
  w_fullscreen <- createFullscreenWidget sdk view ;;
  w_basemapGallery <- createBasemapGallery sdk view ;;
  w_coordinateConversion <- createCoordinateConversionWidget sdk view ;;
  w_measurement <- createMeasurementWidget sdk view ;;
  w_sketch <- match graphicsLayer with
              | Some l => (w <- createSketchWidget sdk view l ;; ret (Some w))
              | None => ret None
              end ;;
  ui_add w_home "top-left" ;;
  ui_add w_compass "top-left" ;;
  ui_add w_locate "top-left" ;;
  ui_add w_search "top-right" ;;
  ui_add w_fullscreen "top-right" ;;
  ui_add w_scaleBar "bottom-right" ;;
  ui_add w_coordinateConversion "bottom-left" ;;
  ret [ (home, Some w_home); (compass, Some w_compass); (locate, Some w_locate);
        (search, Some w_search); (scaleBar, Some w_scaleBar);
        (fullscreen, Some w_fullscreen); (basemapGallery, Some w_basemapGallery);
        (coordinateConversion, Some w_coordinateConversion);
        (measurement, Some w_measurement); (sketch, w_sketch) ].

(** [widgets.forEach((w) => w?.destroy?.())]: nothing is caught. *)
Definition destroyWidgets (widgets : list (option jsobj)) : M world unit :=
  forEach
    (fun w =>
       match w with
       | Some o =>
         match destroy o with
         | DestroyFn out => invoke_destroy o out
         | NotAFunction => ret tt
         end
       | None => ret tt
       end)
    widgets.

(** The number [Math.min] and [Math.max] turn an argument into; [parse]
    is the conversion of strings. *)
Definition ToNumber (parse : string -> num) (v : jsval) : num :=
  match v with
  | VUndefined => NaN
  | VNull => Fin 0
  | VBool true => Fin 1
  | VBool false => Fin 0
  | VNum n => n
  | VStr s => parse s
  end.

(** No record is checked; destructuring missing coordinates throws. *)
Definition addPointsToLayer (parse : string -> num) (pointsData : list point)
    (graphicsLayer : jsobj) : M world box :=
  a <- forEach_acc
         (fun p a =>
            match coordinates p with
            | None => throw (Other "TypeError: point.coordinates is not iterable")
            | Some cs =>
              let lon := ToNumber parse (nth 0 cs VUndefined) in
              let lat := ToNumber parse (nth 1 cs VUndefined) in
              layer_add p ;;
              ret (mkExtent (Math_min (minLon a) lon) (Math_min (minLat a) lat)
                            (Math_max (maxLon a) lon) (Math_max (maxLat a) lat))
            end)
         pointsData extent0 ;;
  ret ((minLon a, minLat a), (maxLon a, maxLat a)).

(** The cleanup of the mount effect.  The effect runs once and closes over
    the [widgets] state of the first render, the empty object. *)
Definition cleanup (mapView : jsobj) : M world unit :=
  destroyWidgets (Object_values []) ;;
  match destroy mapView with
  | DestroyFn out => invoke_destroy mapView out
  | NotAFunction => throw (Other "TypeError: mapView.destroy is not a function")
  end.

(** The effect on [basemapOpen], [view] and [widgets.basemapGallery]. *)
Definition basemapEffect (view : option jsobj) (widgets : WidgetsState)
    (basemapOpen : bool) : M world unit :=
  match view, ws_get basemapGallery widgets with
  | Some _, Some w_basemapGallery =>
    if basemapOpen
    then ui_add w_basemapGallery "bottom-right"
    else ui_remove w_basemapGallery
  | _, _ => ret tt
  end.

(** The effect on [toolsOpen], [view] and the two tools. *)
Definition toolsEffect (view : option jsobj) (widgets : WidgetsState)
    (toolsOpen : bool) : M world unit :=
  match view, ws_get measurement widgets, ws_get sketch widgets with
  | Some _, Some w_measurement, Some w_sketch =>
    if toolsOpen
    then ui_add w_measurement "bottom-right" ;; ui_add w_sketch "bottom-right"
    else ui_remove w_measurement ;; ui_remove w_sketch
  | _, _, _ => ret tt
  end.

(** [initializeMap]: [null] without a container; nothing is caught.  The
    widget set returned with the view and the layer stands for the
    [setView] and [setWidgets] calls. *)
Definition initializeMap (sdk : Sdk) (container : option jsobj)
  : M world (option (jsobj * jsobj * WidgetsState)) :=
  match container with
  | None => ret None
  | Some div =>
    map <- createMap sdk ;;
    graphicsLayer <- createGraphicsLayer sdk "draw-layer" ;;
    map_add map graphicsLayer ;;
    mapView <- createMapView sdk div map ;;
    createdWidgets <- setupAllWidgets sdk mapView (Some graphicsLayer) ;;
    ret (Some (mapView, graphicsLayer, createdWidgets))
  end.

(** The body of the mount effect.  It returns the view the cleanup it
    returns closes over, or [None] when it returns no cleanup; when it
    throws, no cleanup is registered either. *)
Definition mountEffect (parse : string -> num) (env : Env) : M world (option jsobj) :=
  mapData <- initializeMap (env_sdk env) (container env) ;;
  match mapData with
  | None => ret None
  | Some (mapView, graphicsLayer, _) =>
    bounds <- addPointsToLayer parse (pointsData env) graphicsLayer ;;
    (if onMapClick env then listen "click" else ret tt) ;;
    (if onExtentChange env then listen "extent" else ret tt) ;;
    ret (Some mapView)
  end.

(** Mounting, then unmounting. *)
Definition mount_unmount (parse : string -> num) (env : Env) : M world unit :=
  registered <- mountEffect parse env ;;
  match registered with
  | Some mapView => cleanup mapView
  | None => ret tt
  end.

End V1.

(* ===================================================================== *)
(** ** Vocabulary of the properties                                       *)
(* ===================================================================== *)

(** The longitude and latitude entries of a record: the first two entries
    of its coordinates. *)
Definition longitude (p : point) : jsval :=
  match coordinates p with Some cs => nth 0 cs VUndefined | None => VUndefined end.

Definition latitude (p : point) : jsval :=
  match coordinates p with Some cs => nth 1 cs VUndefined | None => VUndefined end.

Definition coordinates_missing (p : point) : Prop := coordinates p = None.

Definition coordinates_short (p : point) : Prop :=
  ∃ cs, coordinates p = Some cs ∧ (length cs < 2)%nat.

Definition coordinates_non_number (p : point) : Prop :=
  is_number (longitude p) = false ∨ is_number (latitude p) = false.

Definition coordinates_NaN (p : point) : Prop :=
  longitude p = VNum NaN ∨ latitude p = VNum NaN.

(** A record is structurally valid when its coordinates are there, have two
    entries, and longitude and latitude are numbers other than NaN. *)
Definition structurally_valid (p : point) : bool :=
  match coordinates p with
  | Some (VNum lon :: VNum lat :: _) => negb (isNaN lon) && negb (isNaN lat)
  | _ => false
  end.

(** Longitude and latitude are finite numbers. *)
Definition finite_coordinates (p : point) : bool :=
  match coordinates p with
  | Some (VNum (Fin _) :: VNum (Fin _) :: _) => true
  | _ => false
  end.

(** The four bounds of [[minLon, minLat], [maxLon, maxLat]]. *)
Definition box_minLon (b : box) : num := fst (fst b).
Definition box_minLat (b : box) : num := snd (fst b).
Definition box_maxLon (b : box) : num := fst (snd b).
Definition box_maxLat (b : box) : num := snd (snd b).

(** The record lies inside the box. *)
Definition inside (b : box) (p : point) : Prop :=
  ∃ lon lat, longitude p = VNum lon ∧ latitude p = VNum lat ∧
    num_leb (box_minLon b) lon = true ∧ num_leb lon (box_maxLon b) = true ∧
    num_leb (box_minLat b) lat = true ∧ num_leb lat (box_maxLat b) = true.

Definition point_B_invalid : point :=
  mkPoint (VNum (Fin 2)) (VStr "B") (Some [VStr "x"; VNum (Fin 28)]).

Definition example_with_invalid : list point :=
  [ mkPoint (VNum (Fin 1)) (VStr "A") (Some [VNum (Fin 30); VNum (Fin 30)]);
    point_B_invalid ].

(** The warning [addPointsToLayer] logs for a record it skips. *)
Definition skipping_warning (p : point) : log_entry :=
  match coordinates p with
  | None => Warn "Skipping invalid point:" p
  | Some cs =>
    if (length cs <? 2)%nat
    then Warn "Skipping invalid point:" p
    else Warn "Skipping point with invalid coordinates:" p
  end.

(** A record with an infinite longitude, which passes every check of
    [visit]. *)
Definition point_at_infinity : point :=
  mkPoint (VNum (Fin 1)) (VStr "A") (Some [VNum PosInf; VNum (Fin 0)]).

(** What [visit] does to the local variables at a structurally valid
    record. *)
Definition extend (a : extent) (p : point) : extent :=
  match longitude p, latitude p with
  | VNum lon, VNum lat =>
    mkExtent (Math_min (minLon a) lon) (Math_min (minLat a) lat)
             (Math_max (maxLon a) lon) (Math_max (maxLat a) lat)
  | _, _ => a
  end.

(** The warning [visit] logs for a record it skips. *)
Definition skip_warning (p : point) : log_entry :=
  match coordinates p with
  | None => Warn "Invalid point coordinates:" p
  | Some cs =>
    if (length cs <? 2)%nat
    then Warn "Invalid point coordinates:" p
    else Warn "Invalid coordinate values:" p
  end.

Definition with_console (σ : world) (entries : list log_entry) : world :=
  mkWorld (heap σ) (torn_down σ) (ui σ) (layer σ) (listeners σ) (console σ ++ entries).

(** Loop invariant of [calculateBounds] over the structurally valid records
    [seen] so far: no variable is NaN, every record seen lies between them,
    and each variable is its initial value or the coordinate of a record
    seen. *)
Definition covers (a : extent) (seen : list point) : Prop :=
  (isNaN (minLon a) = false ∧ isNaN (minLat a) = false ∧
   isNaN (maxLon a) = false ∧ isNaN (maxLat a) = false) ∧
  (∀ p, p ∈ seen → inside ((minLon a, minLat a), (maxLon a, maxLat a)) p) ∧
  (minLon a = PosInf ∨ ∃ p, p ∈ seen ∧ longitude p = VNum (minLon a)) ∧
  (minLat a = PosInf ∨ ∃ p, p ∈ seen ∧ latitude p = VNum (minLat a)) ∧
  (maxLon a = NegInf ∨ ∃ p, p ∈ seen ∧ longitude p = VNum (maxLon a)) ∧
  (maxLat a = NegInf ∨ ∃ p, p ∈ seen ∧ latitude p = VNum (maxLat a)).

(** The message [calculateBounds] fails with when no record is usable. *)
Definition no_bounds_message (points : list point) : string :=
  match points with
  | [] => "No points data available"
  | _ :: _ => "Invalid bounds calculated from points"
  end.

(* ---- the factory seen from outside ---- *)

(** The factory's create operation for each SDK class. *)
Definition create (sdk : Sdk) (c : ctor) (view other : jsobj) : M world jsobj :=
  match c with
  | CMap => createMap sdk
  | CGraphicsLayer => createGraphicsLayer sdk "draw-layer"
  | CMapView => createMapView sdk view other
  | CWidget home => createHomeWidget sdk view
  | CWidget compass => createCompassWidget sdk view
  | CWidget locate => createLocateWidget sdk view
  | CWidget search => createSearchWidget sdk view
  | CWidget scaleBar => createScaleBarWidget sdk view
  | CWidget fullscreen => createFullscreenWidget sdk view
  | CWidget basemapGallery => createBasemapGallery sdk view
  | CWidget coordinateConversion => createCoordinateConversionWidget sdk view
  | CWidget measurement => createMeasurementWidget sdk view
  | CWidget sketch => createSketchWidget sdk view other
  end.

(** How an error message names the construction that failed. *)
Definition what_failed (c : ctor) : string :=
  match c with
  | CMap => "map"
  | CGraphicsLayer => "graphics layer"
  | CMapView => "map view"
  | CWidget home => "home widget"
  | CWidget compass => "compass widget"
  | CWidget locate => "locate widget"
  | CWidget search => "search widget"
  | CWidget scaleBar => "scale bar widget"
  | CWidget fullscreen => "fullscreen widget"
  | CWidget basemapGallery => "basemap gallery"
  | CWidget coordinateConversion => "coordinate conversion widget"
  | CWidget measurement => "measurement widget"
  | CWidget sketch => "sketch widget"
  end.

(** The message of the error a failed construction of [c] ends up as in the
    component: wrapped by the create operation, by the bulk create for a
    widget, and by [initializeMap]. *)
Definition init_failure (c : ctor) (e : thrown) : string :=
  "Map initialization failed: Error: "
  ++ match c with
     | CWidget _ => "Failed to create widgets: Error: "
     | _ => ""
     end
  ++ "Failed to create " ++ what_failed c ++ ": " ++ template e.

(** A slot of the widget set holds an object. *)
Definition populated (k : widget_name) (ws : WidgetsState) : Prop :=
  ∃ o, ws_get k ws = Some o.

(** The first construction that throws, among the classes instantiated in
    the order [order]. *)
Fixpoint first_failure (sdk : Sdk) (order : list ctor) : option (ctor * thrown) :=
  match order with
  | [] => None
  | c :: rest =>
    match new_throws sdk c with
    | Some e => Some (c, e)
    | None => first_failure sdk rest
    end
  end.

(** The classes [createAllWidgets] instantiates, in order. *)
Definition bulk_order (graphicsLayer : option jsobj) : list ctor :=
  [CWidget home; CWidget compass; CWidget locate; CWidget search; CWidget scaleBar;
   CWidget fullscreen; CWidget basemapGallery; CWidget coordinateConversion;
   CWidget measurement]
  ++ match graphicsLayer with Some _ => [CWidget sketch] | None => [] end.

(** The classes [initializeMap] instantiates, in order: the map, the
    layer, the view, and the widgets of [createAllWidgets] with a layer. *)
Definition init_order : list ctor :=
  [CMap; CGraphicsLayer; CMapView; CWidget home; CWidget compass; CWidget locate;
   CWidget search; CWidget scaleBar; CWidget fullscreen; CWidget basemapGallery;
   CWidget coordinateConversion; CWidget measurement; CWidget sketch].

(** An SDK whose [Compass] constructor throws. *)
Definition sdk_compass_fails : Sdk :=
  mkSdk (fun c => match c with
                  | CWidget compass => Some (Error "no compass")
                  | _ => None
                  end)
        (fun _ => None) None None.

Definition env_compass_fails : Env :=
  mkEnv sdk_compass_fails (Some div0) example_points false false.

(* ---- what a step of the component leaves alone ---- *)

(** [s'] holds the same handles as [s], constructed and torn down the same
    objects, and shows the same UI surface and toggles. *)
Definition same_handles (s s' : page) : Prop :=
  viewRef (comp s') = viewRef (comp s) ∧
  widgetsRef (comp s') = widgetsRef (comp s) ∧
  toolsOpen (comp s') = toolsOpen (comp s) ∧
  basemapOpen (comp s') = basemapOpen (comp s) ∧
  mounted (comp s') = mounted (comp s) ∧
  heap (wld s') = heap (wld s) ∧
  torn_down (wld s') = torn_down (wld s) ∧
  ui (wld s') = ui (wld s).

(** The toggles agree with the UI surface: the tools pair is on it exactly
    when [toolsOpen], the basemap gallery exactly when [basemapOpen], and
    the gallery is neither of the tools. *)
Definition toggles_consistent (s : page) : Prop :=
  ∀ v, viewRef (comp s) = Some v →
    (∀ m k, ws_get measurement (widgetsRef (comp s)) = Some m →
            ws_get sketch (widgetsRef (comp s)) = Some k →
            if toolsOpen (comp s)
            then (ref m ∈ ui (wld s) ∧ ref k ∈ ui (wld s))
            else ((ref m ∉ ui (wld s)) ∧ (ref k ∉ ui (wld s)))) ∧
    (∀ g, ws_get basemapGallery (widgetsRef (comp s)) = Some g →
          if basemapOpen (comp s)
          then (ref g ∈ ui (wld s))
          else (ref g ∉ ui (wld s))) ∧
    (∀ m k g, ws_get measurement (widgetsRef (comp s)) = Some m →
              ws_get sketch (widgetsRef (comp s)) = Some k →
              ws_get basemapGallery (widgetsRef (comp s)) = Some g →
              ref m ≠ ref g ∧ ref k ≠ ref g).

Definition with_ui (σ : world) (u : gset nat) : world :=
  mkWorld (heap σ) (torn_down σ) u (layer σ) (listeners σ) (console σ).

(** The state a click on the tools button renders, before its effect. *)
Definition tools_flipped (s : page) : page :=
  mkPage (setToolsOpen (negb (toolsOpen (comp s))) (comp s)) (wld s).

Definition basemap_flipped (s : page) : page :=
  mkPage (setBasemapOpen (negb (basemapOpen (comp s))) (comp s)) (wld s).

(** [s'] holds the same handles as [s] and has constructed and torn down
    the same objects. *)
Definition same_objects (s s' : page) : Prop :=
  viewRef (comp s') = viewRef (comp s) ∧
  widgetsRef (comp s') = widgetsRef (comp s) ∧
  heap (wld s') = heap (wld s) ∧
  torn_down (wld s') = torn_down (wld s).

(** The events are clicks on the two buttons. *)
Definition clicks_only (evs : list event) : Prop :=
  Forall (λ ev, ev = ClickTools ∨ ev = ClickBasemap) evs.

(** [s'] is as far into [setup] as [s], with the same outcome shown. *)
Definition same_setup (s s' : page) : Prop :=
  pending (comp s') = pending (comp s) ∧
  mounted (comp s') = mounted (comp s) ∧
  error (comp s') = error (comp s) ∧
  loading (comp s') = loading (comp s).

(* ---- teardown ---- *)

(** The [destroy()] call a slot value gives rise to: none for [undefined]
    and for an object whose [destroy] is not a function. *)
Definition teardown_of (v : option jsobj) : list nat :=
  match v with
  | Some o => match destroy o with DestroyFn _ => [ref o] | NotAFunction => [] end
  | None => []
  end.

(** The error a slot value's teardown throws, as the console shows it. *)
Definition failure_of (msg : string) (v : option jsobj) : list log_entry :=
  match v with
  | Some o =>
    match destroy o with
    | DestroyFn (Some e) => [LogError msg e]
    | _ => []
    end
  | None => []
  end.

Definition teardown_calls (ws : WidgetsState) : list nat :=
  flat_map teardown_of (Object_values ws).

Definition teardown_failures (ws : WidgetsState) : list log_entry :=
  flat_map (failure_of "Failed to destroy widget:") (Object_values ws).

(** The world after some [destroy()] calls and console entries. *)
Definition after_teardown (σ : world) (calls : list nat) (entries : list log_entry)
  : world :=
  mkWorld (heap σ) (torn_down σ ++ calls) (ui σ) (layer σ) (listeners σ)
          (console σ ++ entries).

(** A widget set in which one teardown throws. *)
Definition widgets_one_broken : WidgetsState :=
  [ (home, Some (mkObj 3 (DestroyFn None)));
    (compass, Some (mkObj 4 (DestroyFn (Some (Error "boom")))));
    (locate, None);
    (search, Some (mkObj 6 NotAFunction));
    (measurement, Some (mkObj 11 (DestroyFn None))) ].

(* ---- a mount on which every construction succeeds ---- *)

Definition constructs_all (sdk : Sdk) : Prop := ∀ c, new_throws sdk c = None.

(** The object [new] returns for class [c] when [r] objects exist. *)
Definition made (sdk : Sdk) (r : nat) (c : ctor) : jsobj :=
  mkObj r (DestroyFn (destroy_throws sdk c)).

Definition heap_full : list ctor :=
  [CMap; CGraphicsLayer; CMapView; CWidget home; CWidget compass; CWidget locate;
   CWidget search; CWidget scaleBar; CWidget fullscreen; CWidget basemapGallery;
   CWidget coordinateConversion; CWidget measurement; CWidget sketch].

Definition widgets_full (sdk : Sdk) : WidgetsState :=
  [ (home, Some (made sdk 3 (CWidget home)));
    (compass, Some (made sdk 4 (CWidget compass)));
    (locate, Some (made sdk 5 (CWidget locate)));
    (search, Some (made sdk 6 (CWidget search)));
    (scaleBar, Some (made sdk 7 (CWidget scaleBar)));
    (fullscreen, Some (made sdk 8 (CWidget fullscreen)));
    (basemapGallery, Some (made sdk 9 (CWidget basemapGallery)));
    (coordinateConversion, Some (made sdk 10 (CWidget coordinateConversion)));
    (measurement, Some (made sdk 11 (CWidget measurement)));
    (sketch, Some (made sdk 12 (CWidget sketch))) ].

(** The widgets [initializeMap] puts on the UI surface. *)
Definition default_ui : gset nat :=
  {[10]} ∪ ({[7]} ∪ ({[8]} ∪ ({[6]} ∪ ({[5]} ∪ ({[4]} ∪ ({[3]} ∪ ∅)))))).

(** The state right after mounting when every construction succeeds. *)
Definition mounted_ok (sdk : Sdk) : page :=
  mkPage
    (mkComponent (Some (made sdk 2 CMapView)) (widgets_full sdk)
                 false false false false true None true
                 (AwaitInit (inl (made sdk 2 CMapView, made sdk 1 CGraphicsLayer))))
    (mkWorld heap_full [] default_ui [] [] []).

(* ===================================================================== *)
(** ** Further vocabulary                                                 *)
(* ===================================================================== *)

(** Two numbers compare equal ([a <= b] and [b <= a]). *)
Definition num_equiv (a b : num) : Prop :=
  num_leb a b = true ∧ num_leb b a = true.

(** Two boxes with equal bounds. *)
Definition box_equiv (b b' : box) : Prop :=
  num_equiv (box_minLon b) (box_minLon b') ∧ num_equiv (box_minLat b) (box_minLat b') ∧
  num_equiv (box_maxLon b) (box_maxLon b') ∧ num_equiv (box_maxLat b) (box_maxLat b').

(** The box [b] lies within the box [b']. *)
Definition box_within (b b' : box) : Prop :=
  num_leb (box_minLon b') (box_minLon b) = true ∧
  num_leb (box_minLat b') (box_minLat b) = true ∧
  num_leb (box_maxLon b) (box_maxLon b') = true ∧
  num_leb (box_maxLat b) (box_maxLat b') = true.

(** [err instanceof Error ? err.message : "Unknown error occurred"] *)
Definition shown_message (err : thrown) : string :=
  match err with
  | Error message => message
  | Other _ => "Unknown error occurred"
  end.

(** Three records, the second without coordinates. *)
Definition points_three : list point :=
  [ mkPoint (VNum (Fin 1)) (VStr "A") (Some [VNum (Fin 30); VNum (Fin 30)]);
    mkPoint (VNum (Fin 2)) (VStr "B") None;
    mkPoint (VNum (Fin 3)) (VStr "C") (Some [VNum (Fin 32); VNum (Fin 28)]) ].

(* ---- the options of the view ---- *)


(** Is a number truthy?  Zero and NaN are not. *)
Definition truthy (n : num) : bool :=
  match n with
  | NaN => false
  | Fin q => negb (Qeq_bool q 0)
  | NegInf | PosInf => true
  end.



(* ---- what a run of constructions leaves on the heap ---- *)

(** The classes of [order] constructed before the first one that throws. *)
Fixpoint constructed (sdk : Sdk) (order : list ctor) : list ctor :=
  match order with
  | [] => []
  | c :: rest =>
    match new_throws sdk c with
    | Some _ => []
    | None => c :: constructed sdk rest
    end
  end.

(** The world with more objects on the heap. *)
Definition with_heap (σ : world) (made : list ctor) : world :=
  mkWorld (heap σ ++ made) (torn_down σ) (ui σ) (layer σ) (listeners σ) (console σ).

(* ---- what a click leaves alone ---- *)

(** [s'] has the same markers, listeners and console as [s]. *)
Definition same_trace (s s' : page) : Prop :=
  layer (wld s') = layer (wld s) ∧
  listeners (wld s') = listeners (wld s) ∧
  console (wld s') = console (wld s).

(** The listeners [setup] registers for the callback props supplied. *)
Definition listeners_of (env : Env) : list string :=
  (if onMapClick env then ["click"] else [])
  ++ (if onExtentChange env then ["extent"] else []).

(** An SDK on which [view.when()] rejects with a value that is not an
    [Error]. *)
Definition sdk_when_rejects : Sdk :=
  mkSdk (fun _ => None) (fun _ => None) (Some (Other "timeout")) None.

Definition env_when_rejects : Env :=
  mkEnv sdk_when_rejects (Some div0) example_points true false.


(** The UI surface as the toggles determine it: the seven default widgets,
    the two tools when [toolsOpen], the gallery when [basemapOpen]. *)
Definition ui_of_toggles (tools basemap : bool) : gset nat :=
  default_ui ∪ (if tools then {[11; 12]} else ∅) ∪ (if basemap then {[9]} else ∅).

(* ---- the first revision, seen from outside ---- *)

(** What the loop of [V1.addPointsToLayer] does to the local variables at a
    record with coordinates. *)
Definition v1_extend (parse : string -> num) (a : extent) (p : point) : extent :=
  mkExtent (Math_min (minLon a) (V1.ToNumber parse (longitude p)))
           (Math_min (minLat a) (V1.ToNumber parse (latitude p)))
           (Math_max (maxLon a) (V1.ToNumber parse (longitude p)))
           (Math_max (maxLat a) (V1.ToNumber parse (latitude p))).

(** The names of the widgets placed on the UI surface by default, in the
    order they are placed. *)
Definition default_names : list widget_name :=
  [home; compass; locate; search; fullscreen; scaleBar; coordinateConversion].

(** The objects a widget set holds under the default names. *)
Definition placed (ws : WidgetsState) : gset nat :=
  list_to_set (omap (λ k, ref <$> ws_get k ws) default_names).

(** A conversion of strings that knows no number. *)
Definition parse_nothing (s : string) : num := NaN.


(* ---- what the component renders ---- *)

(** The two things the component can return from its render. *)
Inductive screen : Type :=
| ErrorPanel (message : string)
| MapPage (overlay : bool) (containerId : string) (toolsLit basemapLit : bool).

(** The render of the component: the error panel [if (error)], which an
    empty message does not pass; else the page, with the loading overlay
    while [loading], the container under [mapId || "mapDiv"], and each
    button's icon lit while its toggle is open. *)
Definition render (mapId : option string) (c : component) : screen :=
  let page :=
    MapPage (loading c)
            match mapId with
            | Some name => if bool_decide (name = "") then "mapDiv" else name
            | None => "mapDiv"
            end
            (toolsOpen c) (basemapOpen c) in
  match error c with
  | Some message => if bool_decide (message = "") then page else ErrorPanel message
  | None => page
  end.

(** An SDK whose [view.goTo(..)] rejects with an [Error] without message. *)
Definition sdk_goTo_silent : Sdk :=
  mkSdk (fun _ => None) (fun _ => None) None (Some (Error "")).

Definition env_goTo_silent : Env :=
  mkEnv sdk_goTo_silent (Some div0) example_points false false.

(* ===================================================================== *)
(** ** Numbers                                                            *)
(* ===================================================================== *)

Lemma Qle_bool_false (x y : Q) : Qle_bool x y = false ↔ (y < x)%Q.
Proof.
  split; intros H.
  - destruct (Qlt_le_dec y x) as [Hlt | Hle]; [exact Hlt |].
    apply Qle_bool_iff in Hle. congruence.
  - destruct (Qle_bool x y) eqn:E; [| reflexivity].
    apply Qle_bool_iff in E. lra.
Qed.

Ltac q_bools :=
  repeat match goal with
         | H : Qle_bool _ _ = true |- _ => apply Qle_bool_iff in H
         | H : Qle_bool _ _ = false |- _ => apply Qle_bool_false in H
         | H : negb (Qle_bool _ _) = true |- _ => apply negb_true_iff in H
         | H : negb (Qle_bool _ _) = false |- _ => apply negb_false_iff in H
         end.

Ltac num_solve :=
  simpl in *; try done;
  repeat match goal with
         | |- context [Qle_bool ?x ?y] => destruct (Qle_bool x y) eqn:?; simpl
         end;
  q_bools; repeat split; auto;
  try (apply Qle_bool_iff; lra); try (exfalso; lra).

Lemma num_leb_refl (a : num) : isNaN a = false → num_leb a a = true.
Proof. destruct a; num_solve. Qed.

Lemma num_leb_trans (a b c : num) :
  num_leb a b = true → num_leb b c = true → num_leb a c = true.
Proof. intros H1 H2. destruct a, b, c; num_solve. Qed.

Lemma Math_min_cases (a b : num) :
  isNaN a = false → isNaN b = false →
  (Math_min a b = a ∨ Math_min a b = b) ∧
  num_leb (Math_min a b) a = true ∧ num_leb (Math_min a b) b = true.
Proof. intros Ha Hb. destruct a, b; num_solve. Qed.

Lemma Math_max_cases (a b : num) :
  isNaN a = false → isNaN b = false →
  (Math_max a b = a ∨ Math_max a b = b) ∧
  num_leb a (Math_max a b) = true ∧ num_leb b (Math_max a b) = true.
Proof. intros Ha Hb. destruct a, b; num_solve. Qed.

(* ===================================================================== *)
(** ** The loop of calculateBounds                                        *)
(* ===================================================================== *)

Lemma structurally_valid_inv (p : point) :
  structurally_valid p = true →
  ∃ lon lat rest, coordinates p = Some (VNum lon :: VNum lat :: rest) ∧
    isNaN lon = false ∧ isNaN lat = false.
Proof.
  unfold structurally_valid. intros H.
  destruct (coordinates p) as [[| [| | | lon |] [| [| | | lat |] rest]] |]; try done.
  apply andb_true_iff in H as [H1 H2].
  apply negb_true_iff in H1, H2. eauto 6.
Qed.

Lemma visit_valid (p : point) (a : extent) (σ : world) :
  structurally_valid p = true → visit p a σ = (inl (extend a p), σ).
Proof.
  intros (lon & lat & rest & Hc & Hlon & Hlat)%structurally_valid_inv.
  unfold visit, extend, longitude, latitude. rewrite Hc. simpl.
  rewrite Hlon, Hlat. reflexivity.
Qed.

Lemma visit_invalid (p : point) (a : extent) (σ : world) :
  structurally_valid p = false → visit p a σ = (inl a, with_console σ [skip_warning p]).
Proof.
  unfold structurally_valid, visit, skip_warning. intros H.
  destruct (coordinates p) as [cs |]; [| reflexivity].
  destruct cs as [| v1 [| v2 rest]]; try reflexivity.
  simpl. destruct v1; try reflexivity.
  destruct v2; try reflexivity.
  apply andb_false_iff in H.
  destruct (isNaN n) eqn:E1; [reflexivity |].
  destruct (isNaN n0) eqn:E2; [reflexivity |].
  destruct H as [H | H]; discriminate H.
Qed.

Lemma with_console_nil (σ : world) : with_console σ [] = σ.
Proof. destruct σ. unfold with_console. simpl. by rewrite app_nil_r. Qed.

Lemma with_console_app (σ : world) (l1 l2 : list log_entry) :
  with_console (with_console σ l1) l2 = with_console σ (l1 ++ l2).
Proof. unfold with_console. simpl. by rewrite app_assoc. Qed.

(** The loop reads the structurally valid records only, and warns once for
    each of the others, in order. *)
Lemma scan_filter (points : list point) (a : extent) (σ : world) :
  forEach_acc visit points a σ =
  (inl (fold_left extend (filter (λ p, structurally_valid p = true) points) a),
   with_console σ (skip_warning <$> filter (λ p, structurally_valid p = false) points)).
Proof.
  revert a σ. induction points as [| p points IH]; intros a σ.
  - simpl. by rewrite with_console_nil.
  - simpl. unfold bind. destruct (structurally_valid p) eqn:E.
    + rewrite visit_valid by done. rewrite IH.
      rewrite filter_cons_True by done. rewrite filter_cons_False by (by rewrite E).
      reflexivity.
    + rewrite visit_invalid by done. rewrite IH.
      rewrite filter_cons_False by (by rewrite E). rewrite filter_cons_True by done.
      simpl. by rewrite with_console_app.
Qed.

Lemma covers_extend (a : extent) (seen : list point) (p : point) :
  covers a seen → structurally_valid p = true → covers (extend a p) (seen ++ [p]).
Proof.
  intros ((N1 & N2 & N3 & N4) & Hin & A1 & A2 & A3 & A4).
  intros (lon & lat & rest & Hc & Hlon & Hlat)%structurally_valid_inv.
  assert (Hx : longitude p = VNum lon) by (unfold longitude; by rewrite Hc).
  assert (Hy : latitude p = VNum lat) by (unfold latitude; by rewrite Hc).
  unfold extend. rewrite Hx, Hy.
  destruct (Math_min_cases (minLon a) lon N1 Hlon) as (C1 & L1 & L1').
  destruct (Math_min_cases (minLat a) lat N2 Hlat) as (C2 & L2 & L2').
  destruct (Math_max_cases (maxLon a) lon N3 Hlon) as (C3 & L3 & L3').
  destruct (Math_max_cases (maxLat a) lat N4 Hlat) as (C4 & L4 & L4').
  unfold covers. simpl. split; [| split; [| split; [| split; [| split]]]].
  - repeat split.
    + destruct C1 as [-> | ->]; done.
    + destruct C2 as [-> | ->]; done.
    + destruct C3 as [-> | ->]; done.
    + destruct C4 as [-> | ->]; done.
  - intros q [Hq | Hq%list_elem_of_singleton]%elem_of_app.
    + destruct (Hin q Hq) as (x & y & Ex & Ey & B1 & B2 & B3 & B4). simpl in *.
      exists x, y. simpl. repeat split; try done; eauto using num_leb_trans.
    + subst q. exists lon, lat. simpl. repeat split; done.
  - destruct C1 as [-> | ->].
    + destruct A1 as [A1 | (q & Hq & Eq)]; [by left | right].
      exists q. split; [apply elem_of_app; by left | done].
    + right. exists p. split; [apply elem_of_app; right; by apply list_elem_of_singleton | done].
  - destruct C2 as [-> | ->].
    + destruct A2 as [A2 | (q & Hq & Eq)]; [by left | right].
      exists q. split; [apply elem_of_app; by left | done].
    + right. exists p. split; [apply elem_of_app; right; by apply list_elem_of_singleton | done].
  - destruct C3 as [-> | ->].
    + destruct A3 as [A3 | (q & Hq & Eq)]; [by left | right].
      exists q. split; [apply elem_of_app; by left | done].
    + right. exists p. split; [apply elem_of_app; right; by apply list_elem_of_singleton | done].
  - destruct C4 as [-> | ->].
    + destruct A4 as [A4 | (q & Hq & Eq)]; [by left | right].
      exists q. split; [apply elem_of_app; by left | done].
    + right. exists p. split; [apply elem_of_app; right; by apply list_elem_of_singleton | done].
Qed.

Lemma covers_fold (points seen : list point) (a : extent) :
  covers a seen → Forall (λ p, structurally_valid p = true) points →
  covers (fold_left extend points a) (seen ++ points).
Proof.
  revert seen a. induction points as [| p points IH]; intros seen a Hc Hv.
  - simpl. by rewrite app_nil_r.
  - inversion Hv as [| ? ? Hp Hps]; subst. simpl.
    replace (seen ++ p :: points)%list with ((seen ++ [p]) ++ points)%list
      by (by rewrite <- app_assoc).
    apply IH; [by apply covers_extend | done].
Qed.

Lemma covers_extent0 : covers extent0 [].
Proof.
  unfold covers, extent0. simpl. repeat split; auto.
  intros p Hp. by apply elem_of_nil in Hp.
Qed.

Lemma finite_coordinates_inv (p : point) :
  finite_coordinates p = true →
  ∃ x y, longitude p = VNum (Fin x) ∧ latitude p = VNum (Fin y).
Proof.
  unfold finite_coordinates, longitude, latitude. intros H.
  destruct (coordinates p) as [[| [| | | [| | x |] |] [| [| | | [| | y |] |] rest]] |];
    try done.
  by exists x, y.
Qed.

(** With finite records only, and at least one, the four variables end up
    finite, each the coordinate of a record. *)
Lemma covers_finite (a : extent) (points : list point) :
  covers a points → points ≠ [] →
  Forall (λ p, finite_coordinates p = true) points →
  (isFinite (minLon a) = true ∧ isFinite (minLat a) = true ∧
   isFinite (maxLon a) = true ∧ isFinite (maxLat a) = true) ∧
  (∃ p, p ∈ points ∧ longitude p = VNum (minLon a)) ∧
  (∃ p, p ∈ points ∧ latitude p = VNum (minLat a)) ∧
  (∃ p, p ∈ points ∧ longitude p = VNum (maxLon a)) ∧
  (∃ p, p ∈ points ∧ latitude p = VNum (maxLat a)) ∧
  num_leb (minLon a) (maxLon a) = true ∧ num_leb (minLat a) (maxLat a) = true.
Proof.
  intros (_ & Hin & A1 & A2 & A3 & A4) Hne Hfin.
  destruct points as [| p0 points]; [done |].
  assert (H0 : p0 ∈ p0 :: points) by apply list_elem_of_here.
  destruct (Hin p0 H0) as (lon0 & lat0 & Ex0 & Ey0 & B1 & B2 & B3 & B4).
  simpl in B1, B2, B3, B4.
  rewrite Forall_forall in Hfin.
  destruct (finite_coordinates_inv p0 (Hfin p0 H0)) as (x0 & y0 & Fx0 & Fy0).
  rewrite Fx0 in Ex0. rewrite Fy0 in Ey0.
  injection Ex0 as <-. injection Ey0 as <-.
  assert (F1 : ∃ p, p ∈ p0 :: points ∧ longitude p = VNum (minLon a)).
  { destruct A1 as [E | A1]; [| done]. rewrite E in B1. done. }
  assert (F2 : ∃ p, p ∈ p0 :: points ∧ latitude p = VNum (minLat a)).
  { destruct A2 as [E | A2]; [| done]. rewrite E in B3. done. }
  assert (F3 : ∃ p, p ∈ p0 :: points ∧ longitude p = VNum (maxLon a)).
  { destruct A3 as [E | A3]; [| done]. rewrite E in B2. done. }
  assert (F4 : ∃ p, p ∈ p0 :: points ∧ latitude p = VNum (maxLat a)).
  { destruct A4 as [E | A4]; [| done]. rewrite E in B4. done. }
  split; [| eauto 10 using num_leb_trans].
  repeat split.
  - destruct F1 as (p & Hp & E).
    destruct (finite_coordinates_inv p (Hfin p Hp)) as (x & _ & Fx & _).
    rewrite Fx in E. by injection E as <-.
  - destruct F2 as (p & Hp & E).
    destruct (finite_coordinates_inv p (Hfin p Hp)) as (_ & y & _ & Fy).
    rewrite Fy in E. by injection E as <-.
  - destruct F3 as (p & Hp & E).
    destruct (finite_coordinates_inv p (Hfin p Hp)) as (x & _ & Fx & _).
    rewrite Fx in E. by injection E as <-.
  - destruct F4 as (p & Hp & E).
    destruct (finite_coordinates_inv p (Hfin p Hp)) as (_ & y & _ & Fy).
    rewrite Fy in E. by injection E as <-.
Qed.

Lemma filter_all {A} (P : A → Prop) `{∀ x, Decision (P x)} (l : list A) :
  Forall P l → filter P l = l.
Proof.
  induction 1 as [| x l Hx Hl IH]; [done |].
  rewrite filter_cons_True by done. by rewrite IH.
Qed.

Lemma filter_none {A} (P : A → Prop) `{∀ x, Decision (P x)} (l : list A) :
  Forall (λ x, ¬ P x) l → filter P l = [].
Proof.
  induction 1 as [| x l Hx Hl IH]; [done |].
  by rewrite filter_cons_False.
Qed.

(** What [calculateBounds] returns, in terms of the loop's result. *)
Lemma calculateBounds_unfold (points : list point) (σ : world) :
  points ≠ [] →
  calculateBounds points σ =
  let a := fold_left extend (filter (λ p, structurally_valid p = true) points) extent0 in
  let σ' := with_console σ (skip_warning <$>
                              filter (λ p, structurally_valid p = false) points) in
  if isFinite (minLon a) && isFinite (maxLon a) && isFinite (minLat a) && isFinite (maxLat a)
  then (inl ((minLon a, minLat a), (maxLon a, maxLat a)), σ')
  else (inr (Error "Invalid bounds calculated from points"), σ').
Proof.
  intros Hne. unfold calculateBounds.
  destruct points as [| p points]; [done |].
  change (length (p :: points) =? 0)%nat with false. cbv iota.
  unfold bind. rewrite scan_filter. cbv zeta.
  destruct (isFinite (minLon _)), (isFinite (maxLon _)),
           (isFinite (minLat _)), (isFinite (maxLat _)); reflexivity.
Qed.

(* ===================================================================== *)
(** ** Bounds of valid points                                             *)
(* ===================================================================== *)

(** C1, as stated, fails: a record whose longitude is [Infinity] passes
    every check on its coordinates, and the list holding just that record
    makes [calculateBounds] throw instead of returning a box. *)
Lemma calculateBounds_infinite_point_throws :
  structurally_valid point_at_infinity = true ∧
  calculateBounds [point_at_infinity] world0 =
    (inr (Error "Invalid bounds calculated from points"), world0) ∧
  ¬ (∀ (points : list point) (σ : world),
       points ≠ [] → Forall (λ p, structurally_valid p = true) points →
       ∃ b, fst (calculateBounds points σ) = inl b).
Proof.
  split; [reflexivity |]. split; [reflexivity |].
  intros H.
  destruct (H [point_at_infinity] world0) as (b & Hb); [done | |].
  - by repeat constructor.
  - vm_compute in Hb. discriminate Hb.
Qed.

(** C1 (amended): for every non-empty list of structurally valid points
    with finite coordinates, [calculateBounds] returns a box that encloses
    every point, whose four bounds are each attained by a point, with
    [minLon ≤ maxLon], [minLat ≤ maxLat] and all four finite; the two-point
    example yields [[30,28],[32,30]]. *)
Theorem calculateBounds_encloses (points : list point) (σ : world) :
  points ≠ [] →
  Forall (λ p, structurally_valid p = true ∧ finite_coordinates p = true) points →
  (∃ b : box,
     calculateBounds points σ = (inl b, σ) ∧
     (∀ p, p ∈ points → inside b p) ∧
     (∃ p, p ∈ points ∧ longitude p = VNum (box_minLon b)) ∧
     (∃ p, p ∈ points ∧ latitude p = VNum (box_minLat b)) ∧
     (∃ p, p ∈ points ∧ longitude p = VNum (box_maxLon b)) ∧
     (∃ p, p ∈ points ∧ latitude p = VNum (box_maxLat b)) ∧
     num_leb (box_minLon b) (box_maxLon b) = true ∧
     num_leb (box_minLat b) (box_maxLat b) = true ∧
     isFinite (box_minLon b) = true ∧ isFinite (box_minLat b) = true ∧
     isFinite (box_maxLon b) = true ∧ isFinite (box_maxLat b) = true) ∧
  calculateBounds example_points σ = (inl ((Fin 30, Fin 28), (Fin 32, Fin 30)), σ).
Proof.
  intros Hne Hall. split; [| by destruct σ].
  assert (Hv : Forall (λ p, structurally_valid p = true) points)
    by (eapply Forall_impl; [exact Hall | by intros ? []]).
  assert (Hf : Forall (λ p, finite_coordinates p = true) points)
    by (eapply Forall_impl; [exact Hall | by intros ? []]).
  rewrite calculateBounds_unfold by done. cbv zeta.
  rewrite (filter_all _ points Hv).
  rewrite (filter_none (λ p, structurally_valid p = false) points)
    by (eapply Forall_impl; [exact Hv | intros ? ->; done]).
  simpl fmap. rewrite with_console_nil.
  pose proof (covers_fold points [] extent0 covers_extent0 Hv) as Hc.
  rewrite app_nil_l in Hc.
  destruct (covers_finite _ _ Hc Hne Hf)
    as ((I1 & I2 & I3 & I4) & F1 & F2 & F3 & F4 & L1 & L2).
  destruct Hc as (_ & Hin & _).
  rewrite I1, I2, I3, I4. simpl.
  eexists. split; [reflexivity |].
  unfold box_minLon, box_minLat, box_maxLon, box_maxLat. simpl.
  repeat split; done.
Qed.

(** The amended C1 at the two-point example. *)
Lemma calculateBounds_encloses_witness :
  ∃ b : box, calculateBounds example_points world0 = (inl b, world0) ∧
             ∀ p, p ∈ example_points → inside b p.
Proof.
  destruct (calculateBounds_encloses example_points world0) as ((b & Hb & Hin & _) & _).
  - done.
  - repeat constructor.
  - exists b. split; [exact Hb | exact Hin].
Defined.

(* ===================================================================== *)
(** ** Invalid records are skipped                                        *)
(* ===================================================================== *)

Lemma structurally_valid_false (p : point) :
  structurally_valid p = false ↔
  coordinates_missing p ∨ coordinates_short p ∨
  coordinates_non_number p ∨ coordinates_NaN p.
Proof.
  unfold structurally_valid, coordinates_missing, coordinates_short,
    coordinates_non_number, coordinates_NaN, longitude, latitude.
  destruct (coordinates p) as [cs |].
  2: { split; [by left | done]. }
  split.
  - intros H. destruct cs as [| v1 [| v2 rest]].
    + right; left. exists []. split; [done | simpl; lia].
    + right; left. exists [v1]. split; [done | simpl; lia].
    + simpl. destruct v1; try (right; right; left; left; reflexivity).
      destruct v2; try (right; right; left; right; reflexivity).
      apply andb_false_iff in H as [H | H]; apply negb_false_iff in H.
      * destruct n; try done. right; right; right; by left.
      * destruct n0; try done. right; right; right; by right.
  - intros Hex. destruct cs as [| v1 [| v2 rest]]; [done | by destruct v1 |].
    destruct Hex as [H | [(cs' & E & Hlen) | [[H | H] | [H | H]]]]; try done.
    + injection E as <-. simpl in Hlen. lia.
    + simpl in H. by destruct v1.
    + simpl in H. by destruct v1, v2.
    + simpl in H. subst v1. by destruct v2.
    + simpl in H. subst v2. destruct v1; try done. simpl. apply andb_false_r.
Qed.

Lemma filter_valid_idemp (points : list point) :
  filter (λ p, structurally_valid p = true)
         (filter (λ p, structurally_valid p = true) points) =
  filter (λ p, structurally_valid p = true) points.
Proof.
  apply filter_all. induction points as [| p points IH]; [constructor |].
  destruct (structurally_valid p) eqn:E.
  - rewrite filter_cons_True by done. by constructor.
  - rewrite filter_cons_False by (by rewrite E). done.
Qed.

Lemma filter_valid_Forall (points : list point) :
  Forall (λ p, structurally_valid p = true)
         (filter (λ p, structurally_valid p = true) points).
Proof.
  apply Forall_forall. intros p Hp.
  by apply list_elem_of_filter in Hp as [Hp _].
Qed.

(** The loop of [addPointsToLayer]: a graphic for each structurally valid
    record, a warning for each of the others. *)
Lemma addPoints_loop (points : list point) (σ : world) :
  forEach
    (fun p =>
       match coordinates p with
       | None => console_warn "Skipping invalid point:" p
       | Some cs =>
         if (length cs <? 2)%nat
         then console_warn "Skipping invalid point:" p
         else
           match nth 0 cs VUndefined, nth 1 cs VUndefined with
           | VNum lon, VNum lat =>
             if isNaN lon || isNaN lat
             then console_warn "Skipping point with invalid coordinates:" p
             else layer_add p
           | _, _ => console_warn "Skipping point with invalid coordinates:" p
           end
       end) points σ =
  (inl tt,
   mkWorld (heap σ) (torn_down σ) (ui σ)
           (layer σ ++ filter (λ p, structurally_valid p = true) points)
           (listeners σ)
           (console σ ++ (skipping_warning <$>
                            filter (λ p, structurally_valid p = false) points))).
Proof.
  revert σ. induction points as [| p points IH]; intros σ.
  - simpl. destruct σ. simpl. by rewrite !app_nil_r.
  - cbn [forEach]. unfold bind at 1.
    destruct (structurally_valid p) eqn:E.
    + destruct (structurally_valid_inv p E) as (lon & lat & rest & Hc & Hlon & Hlat).
      rewrite Hc. simpl. rewrite Hlon, Hlat. simpl.
      rewrite IH. simpl.
      rewrite filter_cons_True by done. rewrite filter_cons_False by (by rewrite E).
      by rewrite <- app_assoc.
    + assert (Hstep : ∀ σ0,
        match coordinates p with
        | None => console_warn "Skipping invalid point:" p
        | Some cs =>
          if (length cs <? 2)%nat
          then console_warn "Skipping invalid point:" p
          else
            match nth 0 cs VUndefined, nth 1 cs VUndefined with
            | VNum lon, VNum lat =>
              if isNaN lon || isNaN lat
              then console_warn "Skipping point with invalid coordinates:" p
              else layer_add p
            | _, _ => console_warn "Skipping point with invalid coordinates:" p
            end
        end σ0 = (inl tt, log (skipping_warning p) σ0)).
      { intros σ0. unfold structurally_valid in E. unfold skipping_warning.
        destruct (coordinates p) as [cs |]; [| reflexivity].
        destruct cs as [| v1 [| v2 rest]]; try reflexivity.
        simpl. destruct v1; try reflexivity. destruct v2; try reflexivity.
        apply andb_false_iff in E.
        destruct (isNaN n) eqn:E1; [reflexivity |].
        destruct (isNaN n0) eqn:E2; [reflexivity |].
        destruct E as [E | E]; discriminate E. }
      rewrite Hstep. rewrite IH. simpl.
      rewrite filter_cons_False by (by rewrite E). rewrite filter_cons_True by done.
      simpl. by rewrite <- app_assoc.
Qed.

(** C2: [calculateBounds] skips exactly the records whose coordinates are
    missing, short, not numbers or NaN: the loop ends in the state the
    structurally valid records alone lead to, with one warning for each
    skipped record and no failure on its account; the result is that of the
    valid records alone, every one of which lies in the box returned;
    [addPointsToLayer] draws the same records.  The example with the
    coordinates ["x", 28] yields [[30,30],[30,30]] and one warning. *)
Theorem calculateBounds_skips_invalid (points : list point) (σ : world) :
  (∀ p, structurally_valid p = false ↔
        coordinates_missing p ∨ coordinates_short p ∨
        coordinates_non_number p ∨ coordinates_NaN p) ∧
  forEach_acc visit points extent0 σ =
    (inl (fold_left extend (filter (λ p, structurally_valid p = true) points) extent0),
     with_console σ (skip_warning <$> filter (λ p, structurally_valid p = false) points)) ∧
  (filter (λ p, structurally_valid p = true) points ≠ [] →
   fst (calculateBounds points σ) =
   fst (calculateBounds (filter (λ p, structurally_valid p = true) points) σ)) ∧
  (∀ b, fst (calculateBounds points σ) = inl b →
        ∀ p, p ∈ points → structurally_valid p = true → inside b p) ∧
  snd (calculateBounds points σ) =
    with_console σ (skip_warning <$> filter (λ p, structurally_valid p = false) points) ∧
  (∀ env graphicsLayer,
     pointsData env = points →
     layer (snd (addPointsToLayer env graphicsLayer σ)) =
       (layer σ ++ filter (λ p, structurally_valid p = true) points)%list) ∧
  calculateBounds example_with_invalid σ =
    (inl ((Fin 30, Fin 30), (Fin 30, Fin 30)),
     with_console σ [Warn "Invalid coordinate values:" point_B_invalid]).
Proof.
  split; [exact structurally_valid_false |].
  split; [apply scan_filter |].
  split; [| split; [| split; [| split]]].
  - intros Hne.
    assert (Hne' : points ≠ []) by (intros ->; done).
    rewrite !calculateBounds_unfold by done. cbv zeta.
    rewrite filter_valid_idemp.
    destruct (isFinite _ && isFinite _ && isFinite _ && isFinite _); reflexivity.
  - intros b Hb p Hp Hv.
    assert (Hne : points ≠ []) by (intros ->; by apply elem_of_nil in Hp).
    rewrite calculateBounds_unfold in Hb by done. cbv zeta in Hb.
    pose proof (covers_fold _ [] extent0 covers_extent0 (filter_valid_Forall points)) as Hc.
    rewrite app_nil_l in Hc. destruct Hc as (_ & Hin & _).
    destruct (isFinite _ && isFinite _ && isFinite _ && isFinite _); [| done].
    simpl in Hb. injection Hb as <-.
    apply Hin. by apply list_elem_of_filter.
  - destruct points as [| p points].
    + simpl. by rewrite with_console_nil.
    + rewrite calculateBounds_unfold by done. cbv zeta.
      destruct (isFinite _ && isFinite _ && isFinite _ && isFinite _); reflexivity.
  - intros env graphicsLayer <-. unfold addPointsToLayer, bind.
    rewrite addPoints_loop.
    destruct (pointsData env) as [| p points] eqn:E.
    + simpl. by rewrite !app_nil_r.
    + rewrite calculateBounds_unfold by done. cbv zeta.
      destruct (isFinite _ && isFinite _ && isFinite _ && isFinite _); reflexivity.
  - by destruct σ.
Qed.

(** C2 at the example: the record with ["x", 28] is left out of the result. *)
Lemma calculateBounds_skips_invalid_witness :
  fst (calculateBounds example_with_invalid world0) =
  fst (calculateBounds (filter (λ p, structurally_valid p = true) example_with_invalid)
                       world0).
Proof.
  apply (calculateBounds_skips_invalid example_with_invalid world0).
  vm_compute. discriminate.
Defined.

(* ===================================================================== *)
(** ** The factory                                                        *)
(* ===================================================================== *)

Lemma new_ok (sdk : Sdk) (c : ctor) (σ : world) :
  new_throws sdk c = None →
  new sdk c σ = (inl (made sdk (length (heap σ)) c), alloc c σ).
Proof. intros H. unfold new. by rewrite H. Qed.

Lemma new_fails (sdk : Sdk) (c : ctor) (e : thrown) (σ : world) :
  new_throws sdk c = Some e → new sdk c σ = (inr e, σ).
Proof. intros H. unfold new. by rewrite H. Qed.

Ltac unfold_create :=
  unfold create, createMap, createMapView, createGraphicsLayer, createHomeWidget,
    createCompassWidget, createLocateWidget, createSearchWidget,
    createScaleBarWidget, createFullscreenWidget, createBasemapGallery,
    createCoordinateConversionWidget, createMeasurementWidget,
    createSketchWidget, try_catch.

Lemma create_ok (sdk : Sdk) (c : ctor) (view other : jsobj) (σ : world) :
  new_throws sdk c = None →
  create sdk c view other σ = (inl (made sdk (length (heap σ)) c), alloc c σ).
Proof.
  intros H. destruct c as [| | | []]; unfold_create; by rewrite new_ok.
Qed.

Lemma create_fails (sdk : Sdk) (c : ctor) (e : thrown) (view other : jsobj) (σ : world) :
  new_throws sdk c = Some e →
  create sdk c view other σ =
  (inr (Error ("Failed to create " ++ what_failed c ++ ": " ++ template e)), σ).
Proof.
  intros H. destruct c as [| | | []]; unfold_create; by rewrite (new_fails _ _ e).
Qed.

Ltac unfold_bulk :=
  cbv [createAllWidgets createHomeWidget createCompassWidget createLocateWidget
       createSearchWidget createScaleBarWidget createFullscreenWidget
       createBasemapGallery createCoordinateConversionWidget
       createMeasurementWidget createSketchWidget try_catch bind ret throw new].

Ltac unfold_v1 :=
  cbv [V1.setupAllWidgets V1.createHomeWidget V1.createCompassWidget
       V1.createLocateWidget V1.createSearchWidget V1.createScaleBarWidget
       V1.createFullscreenWidget V1.createBasemapGallery
       V1.createCoordinateConversionWidget V1.createMeasurementWidget
       V1.createSketchWidget bind ret new].

Ltac skip_ui_add :=
  repeat match goal with
         | |- context [match ui_add ?w ?p ?s with _ => _ end] =>
           destruct (ui_add w p s) as [[[] | ?] ?]; cbv beta iota
         end.

Ltac case_new :=
  repeat match goal with
         | |- context [new_throws ?s ?c] =>
           let E := fresh "E" in destruct (new_throws s c) eqn:E; cbn [fst snd]
         end.

(** C9: the widget set [createAllWidgets] returns has the nine slots home,
    compass, locate, search, scaleBar, fullscreen, basemapGallery,
    coordinateConversion and measurement populated, and the sketch slot
    exactly when a graphics layer was passed; it does return one when no
    construction throws; and the same holds of [setupAllWidgets] in the
    first revision. *)
Theorem createAllWidgets_slots (sdk : Sdk) (view : jsobj) (graphicsLayer : option jsobj)
    (σ : world) :
  (∀ ws σ', createAllWidgets sdk view graphicsLayer σ = (inl ws, σ') →
     Forall (λ k, populated k ws)
            [home; compass; locate; search; scaleBar; fullscreen; basemapGallery;
             coordinateConversion; measurement] ∧
     (populated sketch ws ↔ is_Some graphicsLayer)) ∧
  (constructs_all sdk →
   ∃ ws σ', createAllWidgets sdk view graphicsLayer σ = (inl ws, σ')) ∧
  (∀ ws σ', V1.setupAllWidgets sdk view graphicsLayer σ = (inl ws, σ') →
     Forall (λ k, populated k ws)
            [home; compass; locate; search; scaleBar; fullscreen; basemapGallery;
             coordinateConversion; measurement] ∧
     (populated sketch ws ↔ is_Some graphicsLayer)).
Proof.
  split; [| split].
  - intros ws σ'. unfold_bulk. destruct graphicsLayer as [l |]; case_new;
      intros H; try discriminate H; injection H as <- <-.
    + split.
      * repeat constructor; eexists; reflexivity.
      * split; [by eauto | intros _; eexists; reflexivity].
    + split.
      * repeat constructor; eexists; reflexivity.
      * split; [intros [o Ho]; discriminate Ho | intros [? ?]; done].
  - intros Hall. unfold_bulk. rewrite !Hall.
    destruct graphicsLayer; rewrite ?Hall; eauto.
  - intros ws σ'. unfold_v1. destruct graphicsLayer as [l |]; case_new;
      try (intros H; discriminate H); skip_ui_add;
      intros H; try discriminate H; injection H as <- <-.
    + split.
      * repeat constructor; eexists; reflexivity.
      * split; [by eauto | intros _; eexists; reflexivity].
    + split.
      * repeat constructor; eexists; reflexivity.
      * split; [intros [o Ho]; discriminate Ho | intros [? ?]; done].
Qed.

(** C9 where every construction succeeds and a layer is passed. *)
Lemma createAllWidgets_slots_witness :
  ∃ ws σ', createAllWidgets sdk_ok div0 (Some div0) world0 = (inl ws, σ') ∧
           populated measurement ws ∧ populated sketch ws.
Proof.
  destruct (createAllWidgets_slots sdk_ok div0 (Some div0) world0) as (Hslots & Hret & _).
  destruct (Hret (λ _, eq_refl)) as (ws & σ' & E).
  destruct (Hslots ws σ' E) as (Hnine & Hsketch).
  exists ws, σ'. split; [exact E |]. split.
  - rewrite Forall_forall in Hnine. apply Hnine.
    repeat first [apply list_elem_of_here | apply list_elem_of_further].
  - apply Hsketch. by eexists.
Defined.

(* ===================================================================== *)
(** ** Teardown                                                           *)
(* ===================================================================== *)

Lemma after_teardown_nil (σ : world) : after_teardown σ [] [] = σ.
Proof. destruct σ. unfold after_teardown. simpl. by rewrite !app_nil_r. Qed.

Lemma after_teardown_app (σ : world) (c1 c2 : list nat) (e1 e2 : list log_entry) :
  after_teardown (after_teardown σ c1 e1) c2 e2 = after_teardown σ (c1 ++ c2) (e1 ++ e2).
Proof. unfold after_teardown. simpl. by rewrite !app_assoc. Qed.

(** One round of the loop of [destroyWidgets]. *)
Lemma destroy_one (v : option jsobj) (σ : world) :
  try_catch
    (match v with
     | Some o =>
       match destroy o with
       | DestroyFn out => invoke_destroy o out
       | NotAFunction => ret tt
       end
     | None => ret tt
     end)
    (fun error => console_error "Failed to destroy widget:" error) σ =
  (inl tt, after_teardown σ (teardown_of v) (failure_of "Failed to destroy widget:" v)).
Proof.
  destruct σ. destruct v as [[r [| [e |]]] |];
    unfold try_catch, after_teardown; simpl; by rewrite ?app_nil_r.
Qed.

(** [destroyWidgets] always completes; it calls [destroy] on each value that
    has one, in order, and logs each failure. *)
Lemma destroyWidgets_run (widgets : WidgetsState) (σ : world) :
  destroyWidgets widgets σ =
  (inl tt, after_teardown σ (teardown_calls widgets) (teardown_failures widgets)).
Proof.
  unfold destroyWidgets, teardown_calls, teardown_failures.
  generalize (Object_values widgets) as vs. intros vs. revert σ.
  induction vs as [| v vs IH]; intros σ.
  - simpl. by rewrite after_teardown_nil.
  - cbn [forEach flat_map]. unfold bind at 1. rewrite destroy_one.
    rewrite IH. by rewrite after_teardown_app.
Qed.

Lemma destroyView_run (view : option jsobj) (σ : world) :
  destroyView view σ =
  (inl tt, after_teardown σ (teardown_of view) (failure_of "Failed to destroy view:" view)).
Proof.
  destruct σ. destruct view as [[r [| [e |]]] |];
    unfold destroyView, try_catch, after_teardown; simpl; by rewrite ?app_nil_r.
Qed.

(** What the cleanup leaves behind. *)
Lemma cleanup_run (s : page) :
  fst (cleanup s) = inl tt ∧
  viewRef (comp (exec cleanup s)) = None ∧
  widgetsRef (comp (exec cleanup s)) = [] ∧
  mounted (comp (exec cleanup s)) = false ∧
  heap (wld (exec cleanup s)) = heap (wld s) ∧
  ui (wld (exec cleanup s)) = ui (wld s) ∧
  torn_down (wld (exec cleanup s)) =
    (torn_down (wld s) ++ teardown_calls (widgetsRef (comp s))
                       ++ teardown_of (viewRef (comp s)))%list.
Proof.
  unfold exec, cleanup, bind, gets, modifyC, modify, liftW. cbn [fst snd comp wld].
  rewrite destroyWidgets_run. cbn [comp wld set_mounted set_widgetsRef viewRef].
  destruct (viewRef (comp s)) as [v |] eqn:Ev.
  - rewrite destroyView_run. cbn. by rewrite app_assoc.
  - cbn. by rewrite app_nil_r.
Qed.

Lemma elem_of_teardown_calls (widgets : WidgetsState) (r : nat) :
  r ∈ teardown_calls widgets ↔
  ∃ k o out, (k, Some o) ∈ widgets ∧ destroy o = DestroyFn out ∧ ref o = r.
Proof.
  unfold teardown_calls, Object_values. rewrite list_elem_of_In, in_flat_map. split.
  - intros (v & Hv & Hr). apply in_map_iff in Hv as ([k v'] & <- & Hkv).
    apply list_elem_of_In in Hkv. unfold teardown_of in Hr. simpl in Hr.
    destruct v' as [o |]; [| contradiction].
    destruct (destroy o) as [| out] eqn:E; [contradiction |].
    destruct Hr as [<- | []]. by exists k, o, out.
  - intros (k & o & out & Hin & Hd & <-). exists (Some o). split.
    + apply in_map_iff. exists (k, Some o). split; [done | by apply list_elem_of_In].
    + simpl. rewrite Hd. by left.
Qed.

Lemma elem_of_teardown_failures (widgets : WidgetsState) (k : widget_name)
    (o : jsobj) (e : thrown) :
  (k, Some o) ∈ widgets → destroy o = DestroyFn (Some e) →
  LogError "Failed to destroy widget:" e ∈ teardown_failures widgets.
Proof.
  intros Hin Hd. unfold teardown_failures, Object_values.
  rewrite list_elem_of_In, in_flat_map. exists (Some o). split.
  - apply in_map_iff. exists (k, Some o). split; [done | by apply list_elem_of_In].
  - simpl. rewrite Hd. by left.
Qed.

(** C6: for every widget set, [destroyWidgets] completes without throwing;
    every value present with a [destroy] function has it invoked, also when
    the teardown of another one throws; each thrown error is logged; and the
    view's teardown, which comes next in the cleanup, is invoked as well. *)
Theorem destroyWidgets_tolerates_failures (widgets : WidgetsState) (σ : world) :
  fst (destroyWidgets widgets σ) = inl tt ∧
  (∀ k o out, (k, Some o) ∈ widgets → destroy o = DestroyFn out →
              ref o ∈ torn_down (snd (destroyWidgets widgets σ))) ∧
  (∀ k o e, (k, Some o) ∈ widgets → destroy o = DestroyFn (Some e) →
            LogError "Failed to destroy widget:" e
              ∈ console (snd (destroyWidgets widgets σ))) ∧
  (∀ view out, destroy view = DestroyFn out →
     fst ((destroyWidgets widgets ;; destroyView (Some view)) σ) = inl tt ∧
     ref view ∈ torn_down (snd ((destroyWidgets widgets ;; destroyView (Some view)) σ))) ∧
  (∀ s view out,
     widgetsRef (comp s) = widgets → viewRef (comp s) = Some view →
     destroy view = DestroyFn out →
     fst (cleanup s) = inl tt ∧
     ref view ∈ torn_down (wld (exec cleanup s)) ∧
     ∀ k o out', (k, Some o) ∈ widgets → destroy o = DestroyFn out' →
                 ref o ∈ torn_down (wld (exec cleanup s))) ∧
  torn_down (snd (destroyWidgets widgets_one_broken σ)) = (torn_down σ ++ [3; 4; 11])%list.
Proof.
  split; [by rewrite destroyWidgets_run |]. split; [| split; [| split; [| split]]].
  - intros k o out Hin Hd. rewrite destroyWidgets_run. simpl.
    apply elem_of_app. right.
    apply elem_of_teardown_calls. by exists k, o, out.
  - intros k o e Hin Hd. rewrite destroyWidgets_run. simpl.
    apply elem_of_app. right.
    by eapply elem_of_teardown_failures.
  - intros view out Hd.
    assert (Hrun : (destroyWidgets widgets ;; destroyView (Some view)) σ =
                   (inl tt, after_teardown
                              (after_teardown σ (teardown_calls widgets)
                                              (teardown_failures widgets))
                              (teardown_of (Some view))
                              (failure_of "Failed to destroy view:" (Some view)))).
    { unfold bind. rewrite destroyWidgets_run. apply destroyView_run. }
    rewrite Hrun. split; [done |]. simpl. rewrite Hd. set_solver.
  - intros s view out Hw Hv Hd.
    destruct (cleanup_run s) as (Hok & _ & _ & _ & _ & _ & ->).
    split; [exact Hok |]. rewrite Hw, Hv. simpl. rewrite Hd. split.
    + set_solver.
    + intros k o out' Hin Ho. apply elem_of_app. right. apply elem_of_app. left.
      apply elem_of_teardown_calls. by exists k, o, out'.
  - by rewrite destroyWidgets_run.
Qed.

(** C6 on a widget set whose second teardown throws. *)
Lemma destroyWidgets_tolerates_failures_witness :
  11 ∈ torn_down (snd (destroyWidgets widgets_one_broken world0)) ∧
  LogError "Failed to destroy widget:" (Error "boom")
    ∈ console (snd (destroyWidgets widgets_one_broken world0)).
Proof.
  destruct (destroyWidgets_tolerates_failures widgets_one_broken world0)
    as (_ & Hcall & Hlog & _).
  split.
  - apply (Hcall measurement (mkObj 11 (DestroyFn None)) None); [| reflexivity].
    unfold widgets_one_broken.
    repeat first [apply list_elem_of_here | apply list_elem_of_further].
  - apply (Hlog compass (mkObj 4 (DestroyFn (Some (Error "boom")))) (Error "boom"));
      [| reflexivity].
    unfold widgets_one_broken.
    repeat first [apply list_elem_of_here | apply list_elem_of_further].
Defined.

(** C10: [destroyView] on a null view, and [destroyWidgets] on an empty or
    partly populated widget set, complete without throwing; they call
    [destroy] on nothing but the objects present that have one, so a missing
    value or an object without a [destroy] function leaves the world as it
    was. *)
Theorem teardown_total (widgets : WidgetsState) (σ : world) :
  destroyView None σ = (inl tt, σ) ∧
  (∀ view, destroy view = NotAFunction → destroyView (Some view) σ = (inl tt, σ)) ∧
  (∀ view, fst (destroyView view σ) = inl tt) ∧
  destroyWidgets [] σ = (inl tt, σ) ∧
  fst (destroyWidgets widgets σ) = inl tt ∧
  (∀ r, r ∈ torn_down (snd (destroyWidgets widgets σ)) →
        r ∈ torn_down σ ∨
        ∃ k o out, (k, Some o) ∈ widgets ∧ destroy o = DestroyFn out ∧ ref o = r) ∧
  (Forall (λ kv, match snd kv with
                 | Some o => destroy o = NotAFunction
                 | None => True
                 end) widgets →
   destroyWidgets widgets σ = (inl tt, σ)).
Proof.
  split; [done |]. split; [| split; [| split; [| split; [| split]]]].
  - intros view Hd. unfold destroyView. by rewrite Hd.
  - intros view. by rewrite destroyView_run.
  - done.
  - by rewrite destroyWidgets_run.
  - intros r. rewrite destroyWidgets_run. simpl.
    intros [Hr | Hr]%elem_of_app; [by left | right].
    by apply elem_of_teardown_calls.
  - intros Hall. rewrite destroyWidgets_run.
    assert (teardown_calls widgets = [] ∧ teardown_failures widgets = []) as [-> ->].
    { unfold teardown_calls, teardown_failures, Object_values.
      induction Hall as [| [k [o |]] ws Hkv Hws [IH1 IH2]]; [done | |]; simpl in *.
      - rewrite Hkv. by rewrite IH1, IH2.
      - by rewrite IH1, IH2. }
    by rewrite after_teardown_nil.
Qed.

(** C10 on a widget set with an empty slot and an object without
    [destroy]. *)
Lemma teardown_total_witness :
  destroyWidgets [(locate, None); (search, Some (mkObj 6 NotAFunction))] world0 =
  (inl tt, world0).
Proof.
  apply (teardown_total [(locate, None); (search, Some (mkObj 6 NotAFunction))] world0).
  repeat constructor.
Defined.

(* ===================================================================== *)
(** ** Mounting                                                           *)
(* ===================================================================== *)

Ltac unfold_init :=
  cbv [mount setup_start initializeMap createAllWidgets createMap createMapView
       createGraphicsLayer createHomeWidget createCompassWidget createLocateWidget
       createSearchWidget createScaleBarWidget createFullscreenWidget
       createBasemapGallery createCoordinateConversionWidget
       createMeasurementWidget createSketchWidget try_catch bind ret throw new
       liftW modifyC modify gets wld comp map_add].

(** When the container is there and every construction succeeds, mounting
    leaves all thirteen objects constructed, the seven default widgets on
    the UI surface and [setup] waiting on [initializeMap]. *)
Lemma mount_ok (env : Env) (div : jsobj) :
  container env = Some div → constructs_all (env_sdk env) →
  mount env = mounted_ok (env_sdk env).
Proof.
  intros Hc Hall. unfold mount, setup_start, initializeMap. rewrite Hc.
  unfold_init. rewrite !Hall. vm_compute. reflexivity.
Qed.

(* ===================================================================== *)
(** ** Failures of setup stay on screen                                   *)
(* ===================================================================== *)

Lemma toolsEffect_setup (s : page) : same_setup s (exec toolsEffect s).
Proof.
  unfold exec, toolsEffect, bind, gets.
  destruct (viewRef (comp s)); [| by repeat split].
  destruct (ws_get measurement _); [| by repeat split].
  destruct (ws_get sketch _); [| by repeat split].
  destruct (toolsOpen (comp s)); by repeat split.
Qed.

Lemma basemapEffect_setup (s : page) : same_setup s (exec basemapEffect s).
Proof.
  unfold exec, basemapEffect, bind, gets.
  destruct (viewRef (comp s)); [| by repeat split].
  destruct (ws_get basemapGallery _); [| by repeat split].
  destruct (basemapOpen (comp s)); by repeat split.
Qed.

Lemma cleanup_setup (s : page) :
  pending (comp (exec cleanup s)) = pending (comp s) ∧
  error (comp (exec cleanup s)) = error (comp s).
Proof.
  unfold exec, cleanup, bind, gets, modifyC, modify, liftW. cbn [fst snd comp wld].
  rewrite destroyWidgets_run. cbn [comp wld set_mounted set_widgetsRef viewRef].
  destruct (viewRef (comp s)) as [v |]; [rewrite destroyView_run |]; done.
Qed.

(** A click changes nothing of the progress of [setup]. *)
Lemma click_setup (env : Env) (s : page) (ev : event) :
  ev = ClickTools ∨ ev = ClickBasemap → same_setup s (step env s ev).
Proof.
  intros [-> | ->]; unfold step; destruct (buttons_rendered s); try by repeat split.
  - apply (toolsEffect_setup (tools_flipped s)).
  - apply (basemapEffect_setup (basemap_flipped s)).
Qed.

Lemma run_app (env : Env) (evs1 evs2 : list event) :
  run env (evs1 ++ evs2) = fold_left (step env) evs2 (run env evs1).
Proof. unfold run. by rewrite fold_left_app. Qed.

Lemma clicks_setup (env : Env) (evs : list event) :
  clicks_only evs → same_setup (mount env) (run env evs).
Proof.
  induction evs as [| ev evs IH] using rev_ind; intros Hevs.
  - by repeat split.
  - apply Forall_app in Hevs as [Hevs Hev]. inversion Hev as [| ? ? Hclick _]; subst.
    rewrite run_app. cbn [fold_left].
    destruct (IH Hevs) as (I1 & I2 & I3 & I4).
    destruct (click_setup env (run env evs) ev Hclick) as (S1 & S2 & S3 & S4).
    repeat split; congruence.
Qed.

(** Once [setup] has ended in an error, the error stays. *)
Lemma failed_stays (env : Env) (evs : list event) (s : page) (message : string) :
  error (comp s) = Some message → pending (comp s) = Settled →
  lifecycle_of (fold_left (step env) evs s) = Failed message.
Proof.
  revert s. induction evs as [| ev evs IH]; intros s He Hp.
  - cbn [fold_left]. unfold lifecycle_of. by rewrite He.
  - cbn [fold_left]. apply IH.
    + destruct ev; unfold step.
      * unfold setup_resume. by rewrite Hp.
      * destruct (cleanup_setup s) as (_ & ->). done.
      * unfold buttons_rendered. rewrite He.
        rewrite bool_decide_eq_false_2 by done. by rewrite andb_false_r.
      * unfold buttons_rendered. rewrite He.
        rewrite bool_decide_eq_false_2 by done. by rewrite andb_false_r.
    + destruct ev; unfold step.
      * unfold setup_resume. by rewrite Hp.
      * destruct (cleanup_setup s) as (-> & _). done.
      * unfold buttons_rendered. rewrite He.
        rewrite bool_decide_eq_false_2 by done. by rewrite andb_false_r.
      * unfold buttons_rendered. rewrite He.
        rewrite bool_decide_eq_false_2 by done. by rewrite andb_false_r.
Qed.

Lemma setup_catch_failed (err : thrown) (s : page) :
  mounted (comp s) = true →
  error (comp (setup_catch err s)) =
    Some (match err with Error message => message | Other _ => "Unknown error occurred" end) ∧
  pending (comp (setup_catch err s)) = Settled.
Proof. intros Hm. unfold setup_catch. by rewrite Hm. Qed.

(* ===================================================================== *)
(** ** No usable point                                                    *)
(* ===================================================================== *)

Lemma calculateBounds_invalid (points : list point) (σ : world) :
  Forall (λ p, structurally_valid p = false) points →
  calculateBounds points σ =
  (inr (Error (no_bounds_message points)),
   with_console σ (skip_warning <$> filter (λ p, structurally_valid p = false) points)).
Proof.
  intros Hall. destruct points as [| p points].
  - simpl. by rewrite with_console_nil.
  - rewrite calculateBounds_unfold by done. cbv zeta.
    rewrite (filter_none (λ p, structurally_valid p = true))
      by (eapply Forall_impl; [exact Hall | intros ? ->; done]).
    reflexivity.
Qed.

(** What [calculateBounds] returns does not depend on the world. *)
Lemma calculateBounds_result (points : list point) (σ1 σ2 : world) :
  fst (calculateBounds points σ1) = fst (calculateBounds points σ2).
Proof.
  destruct points as [| p points]; [done |].
  rewrite !calculateBounds_unfold by done. cbv zeta.
  destruct (isFinite _ && isFinite _ && isFinite _ && isFinite _); reflexivity.
Qed.

(** [setup] after [initializeMap] succeeded, while still mounted: it fails
    when [calculateBounds] does, with its error. *)
Lemma resume_after_init (env : Env) (c : component) (σ : world)
    (mapView graphicsLayer : jsobj) :
  pending c = AwaitInit (inl (mapView, graphicsLayer)) → mounted c = true →
  ∀ e, fst (calculateBounds (pointsData env) σ) = inr e →
  ∃ σ', setup_resume env (mkPage c σ) = setup_catch e (mkPage c σ').
Proof.
  intros Hp Hm e He. unfold setup_resume. cbn [comp wld]. rewrite Hp, Hm. cbn [negb].
  unfold addPointsToLayer. unfold bind at 1 2. rewrite addPoints_loop.
  match goal with
  | |- context [calculateBounds (pointsData env) ?w] =>
    rewrite (calculateBounds_result _ σ w) in He;
    destruct (calculateBounds (pointsData env) w) as [[b | e'] σ']
  end; simpl in He; [discriminate He |].
  injection He as ->. by exists σ'.
Qed.

(** A failure of [setup] at its first resumption is on screen from then on,
    whatever was clicked before and whatever happens after. *)
Lemma resume_fails (env : Env) (evs1 evs2 : list event) (err : thrown) (σ' : world) :
  clicks_only evs1 → mounted (comp (mount env)) = true →
  setup_resume env (run env evs1) = setup_catch err (mkPage (comp (run env evs1)) σ') →
  lifecycle_of (run env (evs1 ++ Resume :: evs2)) =
  Failed (match err with Error message => message | Other _ => "Unknown error occurred" end).
Proof.
  intros Hclicks Hm Hres. rewrite run_app. cbn [fold_left step]. rewrite Hres.
  destruct (clicks_setup env evs1 Hclicks) as (_ & Hm' & _).
  destruct (setup_catch_failed err (mkPage (comp (run env evs1)) σ')) as (He & Hp);
    [cbn; congruence |].
  by apply failed_stays.
Qed.

(** C3: when the point list is empty or holds no structurally valid record,
    [calculateBounds] throws instead of returning a box of infinities, and
    a component mounted with that data shows the Failed state with the
    error's message from the moment [setup] reaches the computation. *)
Theorem no_usable_points_fails (points : list point) (σ : world) :
  Forall (λ p, structurally_valid p = false) points →
  fst (calculateBounds points σ) = inr (Error (no_bounds_message points)) ∧
  (∀ env div evs1 evs2,
     pointsData env = points → container env = Some div →
     constructs_all (env_sdk env) → clicks_only evs1 →
     lifecycle_of (run env (evs1 ++ Resume :: evs2)) = Failed (no_bounds_message points)).
Proof.
  intros Hall. split; [by rewrite calculateBounds_invalid |].
  intros env div evs1 evs2 Hpts Hc Hsdk Hclicks.
  destruct (clicks_setup env evs1 Hclicks) as (Hp & Hm & _).
  rewrite (mount_ok env div Hc Hsdk) in Hp, Hm. cbn in Hp, Hm.
  destruct (resume_after_init env (comp (run env evs1)) (wld (run env evs1)) _ _ Hp Hm
              (Error (no_bounds_message points))) as (σ' & Hres).
  { rewrite Hpts. by rewrite calculateBounds_invalid. }
  apply (resume_fails env evs1 evs2 (Error (no_bounds_message points)) σ'); [done | |].
  - by rewrite (mount_ok env div Hc Hsdk).
  - rewrite <- Hres. by destruct (run env evs1).
Qed.

(** C3 on the empty list and on a list whose only record is invalid. *)
Lemma no_usable_points_fails_witness :
  lifecycle_of (run (mkEnv sdk_ok (Some div0) [] false false) [Resume])
    = Failed "No points data available" ∧
  lifecycle_of (run (mkEnv sdk_ok (Some div0) [point_B_invalid] false false)
                    [ClickTools; Resume; Unmount])
    = Failed "Invalid bounds calculated from points".
Proof.
  split.
  - apply (no_usable_points_fails [] world0) with (div := div0) (evs1 := []) (evs2 := []);
      solve [done | constructor].
  - apply (no_usable_points_fails [point_B_invalid] world0)
      with (div := div0) (evs1 := [ClickTools]) (evs2 := [Unmount]);
      solve [done | repeat constructor | repeat constructor; by left].
Defined.

(* ===================================================================== *)
(** ** Construction failures                                              *)
(* ===================================================================== *)

Lemma first_failure_exists (sdk : Sdk) (order : list ctor) (c : ctor) (e : thrown) :
  c ∈ order → new_throws sdk c = Some e →
  ∃ c' e', first_failure sdk order = Some (c', e') ∧ new_throws sdk c' = Some e'.
Proof.
  induction order as [| c0 order IH]; intros Hin He.
  - by apply elem_of_nil in Hin.
  - simpl. destruct (new_throws sdk c0) as [e0 |] eqn:E0; [by eauto |].
    apply elem_of_cons in Hin as [-> | Hin]; [congruence | by apply IH].
Qed.

Lemma createAllWidgets_fails (sdk : Sdk) (view : jsobj) (graphicsLayer : option jsobj)
    (σ : world) (c : ctor) (e : thrown) :
  first_failure sdk (bulk_order graphicsLayer) = Some (c, e) →
  fst (createAllWidgets sdk view graphicsLayer σ) =
  inr (Error ("Failed to create widgets: Error: Failed to create "
              ++ what_failed c ++ ": " ++ template e)).
Proof.
  unfold_bulk. destruct graphicsLayer as [l |]; cbn [bulk_order first_failure app];
    case_new; intros H; try discriminate H; injection H as <- <-; reflexivity.
Qed.

(** When a construction throws, [initializeMap] has rejected with the
    wrapped error by the time the component is mounted. *)
Lemma mount_rejected (env : Env) (div : jsobj) (c : ctor) (e : thrown) :
  container env = Some div →
  first_failure (env_sdk env) init_order = Some (c, e) →
  pending (comp (mount env)) = AwaitInit (inr (Error (init_failure c e))) ∧
  mounted (comp (mount env)) = true.
Proof.
  intros Hc. unfold mount, setup_start, initializeMap. rewrite Hc. unfold_init.
  cbn [init_order bulk_order first_failure app].
  case_new; intros H; try discriminate H; injection H as <- <-;
    vm_compute; done.
Qed.

Lemma initializeMap_fails (env : Env) (div : jsobj) (c : ctor) (e : thrown)
    (evs1 evs2 : list event) :
  container env = Some div →
  first_failure (env_sdk env) init_order = Some (c, e) →
  clicks_only evs1 →
  lifecycle_of (run env (evs1 ++ Resume :: evs2)) = Failed (init_failure c e).
Proof.
  intros Hc Hf Hclicks.
  destruct (mount_rejected env div c e Hc Hf) as (Hp0 & Hm0).
  destruct (clicks_setup env evs1 Hclicks) as (Hp & _).
  apply (resume_fails env evs1 evs2 (Error (init_failure c e)) (wld (run env evs1)));
    [done | done |].
  unfold setup_resume. rewrite Hp, Hp0. by destruct (run env evs1).
Qed.

(** C8: when the SDK constructor behind a create operation throws, the
    operation throws an [Error] whose message names the construction; the
    bulk create rethrows the error of the first widget that fails, under its
    own prefix; and a component mounted on such an SDK shows the Failed
    state with that message once the rejected [initializeMap] has been
    awaited, whatever was clicked before and whatever happens after. *)
Theorem construction_failure_surfaces (sdk : Sdk) (c : ctor) (e : thrown) :
  new_throws sdk c = Some e →
  (∀ view other σ,
     create sdk c view other σ =
     (inr (Error ("Failed to create " ++ what_failed c ++ ": " ++ template e)), σ)) ∧
  (∀ view graphicsLayer σ,
     c ∈ bulk_order graphicsLayer →
     ∃ c' e', first_failure sdk (bulk_order graphicsLayer) = Some (c', e') ∧
       new_throws sdk c' = Some e' ∧
       fst (createAllWidgets sdk view graphicsLayer σ) =
       inr (Error ("Failed to create widgets: Error: Failed to create "
                   ++ what_failed c' ++ ": " ++ template e'))) ∧
  (∀ env div evs1 evs2,
     env_sdk env = sdk → container env = Some div → clicks_only evs1 →
     ∃ c' e', first_failure sdk init_order = Some (c', e') ∧
       new_throws sdk c' = Some e' ∧
       lifecycle_of (run env (evs1 ++ Resume :: evs2)) = Failed (init_failure c' e')).
Proof.
  intros He. split; [| split].
  - intros view other σ. by apply create_fails.
  - intros view graphicsLayer σ Hin.
    destruct (first_failure_exists sdk _ c e Hin He) as (c' & e' & Hf & He').
    exists c', e'. split; [done | split; [done |]].
    by apply createAllWidgets_fails.
  - intros env div evs1 evs2 <- Hc Hclicks.
    assert (Hin : c ∈ init_order).
    { unfold init_order.
      destruct c as [| | | []];
        repeat first [apply list_elem_of_here | apply list_elem_of_further]. }
    destruct (first_failure_exists (env_sdk env) _ c e Hin He) as (c' & e' & Hf & He').
    exists c', e'. split; [done | split; [done |]].
    by apply (initializeMap_fails env div).
Qed.

(** C8 on an SDK whose [Compass] constructor throws. *)
Lemma construction_failure_surfaces_witness :
  create sdk_compass_fails (CWidget compass) div0 div0 world0 =
    (inr (Error "Failed to create compass widget: Error: no compass"), world0) ∧
  ∃ c' e', first_failure sdk_compass_fails init_order = Some (c', e') ∧
    new_throws sdk_compass_fails c' = Some e' ∧
    lifecycle_of (run env_compass_fails ([] ++ [Resume])) = Failed (init_failure c' e').
Proof.
  destruct (construction_failure_surfaces sdk_compass_fails (CWidget compass)
              (Error "no compass") eq_refl) as (H1 & _ & H3).
  split.
  - apply H1.
  - apply (H3 env_compass_fails div0 [] []); try reflexivity. constructor.
Defined.

(* ===================================================================== *)
(** ** What the steps of the component leave alone                        *)
(* ===================================================================== *)

Lemma calculateBounds_world (points : list point) (σ : world) :
  snd (calculateBounds points σ) =
  with_console σ (skip_warning <$> filter (λ p, structurally_valid p = false) points).
Proof.
  destruct points as [| p points].
  - simpl. by rewrite with_console_nil.
  - rewrite calculateBounds_unfold by done. cbv zeta.
    destruct (isFinite _ && isFinite _ && isFinite _ && isFinite _); reflexivity.
Qed.

Lemma same_handles_refl (s : page) : same_handles s s.
Proof. by repeat split. Qed.

Lemma setup_catch_frame (err : thrown) (s : page) : same_handles s (setup_catch err s).
Proof. unfold setup_catch. destruct (mounted (comp s)) eqn:E; by repeat split. Qed.

Lemma setup_resume_frame (env : Env) (s : page) : same_handles s (setup_resume env s).
Proof.
  unfold setup_resume.
  destruct (pending (comp s)) as [[[mapView graphicsLayer] | err] | mapView bounds | |].
  - destruct (mounted (comp s)) eqn:Em; cbn [negb]; [| by repeat split].
    unfold addPointsToLayer. unfold bind at 1 2. rewrite addPoints_loop.
    match goal with
    | |- context [calculateBounds ?pts ?w] =>
      pose proof (calculateBounds_world pts w) as Hw;
      destruct (calculateBounds pts w) as [[b | e] σ']
    end; simpl in Hw; subst σ'.
    + unfold bind, listen, modify, ret.
      destruct (onMapClick env), (onExtentChange env); by repeat split.
    + pose proof (setup_catch_frame e (mkPage (comp s) (with_console
         (mkWorld (heap (wld s)) (torn_down (wld s)) (ui (wld s))
            (layer (wld s) ++ filter (λ p, structurally_valid p = true) (pointsData env))
            (listeners (wld s))
            (console (wld s) ++ (skipping_warning <$>
               filter (λ p, structurally_valid p = false) (pointsData env))))
         (skip_warning <$> filter (λ p, structurally_valid p = false) (pointsData env)))))
        as Hf.
      unfold same_handles in *. simpl in Hf. exact Hf.
  - apply setup_catch_frame.
  - destruct (when_rejects (env_sdk env)); [apply setup_catch_frame |].
    destruct (mounted (comp s)); by repeat split.
  - destruct (goTo_rejects (env_sdk env)); [apply setup_catch_frame |].
    by repeat split.
  - apply same_handles_refl.
Qed.

(* ===================================================================== *)
(** ** The toggles                                                        *)
(* ===================================================================== *)

Lemma toolsEffect_present (s : page) (v m k : jsobj) :
  viewRef (comp s) = Some v →
  ws_get measurement (widgetsRef (comp s)) = Some m →
  ws_get sketch (widgetsRef (comp s)) = Some k →
  exec toolsEffect s =
  mkPage (set_toolsOpenRef (toolsOpen (comp s)) (comp s))
         (with_ui (wld s)
                  (if toolsOpen (comp s)
                   then {[ref k]} ∪ ({[ref m]} ∪ ui (wld s))
                   else ui (wld s) ∖ {[ref m]} ∖ {[ref k]})).
Proof.
  intros Hv Hm Hk. unfold exec, toolsEffect, bind, gets. cbn [fst snd].
  rewrite Hv, Hm, Hk. destruct (toolsOpen (comp s)); reflexivity.
Qed.

Lemma toolsEffect_absent (s : page) :
  viewRef (comp s) = None ∨
  ws_get measurement (widgetsRef (comp s)) = None ∨
  ws_get sketch (widgetsRef (comp s)) = None →
  toolsEffect s = (inl tt, s).
Proof.
  intros H. unfold toolsEffect, bind, gets.
  destruct (viewRef (comp s)); [| reflexivity].
  destruct (ws_get measurement _); [| reflexivity].
  destruct (ws_get sketch _); [| reflexivity].
  destruct H as [H | [H | H]]; discriminate H.
Qed.

Lemma basemapEffect_present (s : page) (v g : jsobj) :
  viewRef (comp s) = Some v →
  ws_get basemapGallery (widgetsRef (comp s)) = Some g →
  exec basemapEffect s =
  mkPage (set_basemapOpenRef (basemapOpen (comp s)) (comp s))
         (with_ui (wld s)
                  (if basemapOpen (comp s)
                   then {[ref g]} ∪ ui (wld s)
                   else ui (wld s) ∖ {[ref g]})).
Proof.
  intros Hv Hg. unfold exec, basemapEffect, bind, gets. cbn [fst snd].
  rewrite Hv, Hg. destruct (basemapOpen (comp s)); reflexivity.
Qed.

Lemma basemapEffect_absent (s : page) :
  viewRef (comp s) = None ∨ ws_get basemapGallery (widgetsRef (comp s)) = None →
  basemapEffect s = (inl tt, s).
Proof.
  intros H. unfold basemapEffect, bind, gets.
  destruct (viewRef (comp s)); [| reflexivity].
  destruct (ws_get basemapGallery _); [| reflexivity].
  destruct H as [H | H]; discriminate H.
Qed.

Lemma handleToolsToggle_exec (s : page) :
  exec handleToolsToggle s = exec toolsEffect (tools_flipped s).
Proof. reflexivity. Qed.

Lemma handleBasemapToggle_exec (s : page) :
  exec handleBasemapToggle s = exec basemapEffect (basemap_flipped s).
Proof. reflexivity. Qed.

(** C7: while the view, or a widget the toggle acts on, is not there, the
    effect of a toggle returns at once: a click on either button leaves the
    world, so the UI surface, and the view and widget set the component
    holds exactly as they were; the toggle effects of the first revision
    return at once in the same cases. *)
Theorem toggle_before_construction_is_noop (env : Env) (s : page) :
  (viewRef (comp s) = None ∨
   ws_get measurement (widgetsRef (comp s)) = None ∨
   ws_get sketch (widgetsRef (comp s)) = None →
   toolsEffect s = (inl tt, s) ∧
   wld (step env s ClickTools) = wld s ∧
   viewRef (comp (step env s ClickTools)) = viewRef (comp s) ∧
   widgetsRef (comp (step env s ClickTools)) = widgetsRef (comp s)) ∧
  (viewRef (comp s) = None ∨
   ws_get basemapGallery (widgetsRef (comp s)) = None →
   basemapEffect s = (inl tt, s) ∧
   wld (step env s ClickBasemap) = wld s ∧
   viewRef (comp (step env s ClickBasemap)) = viewRef (comp s) ∧
   widgetsRef (comp (step env s ClickBasemap)) = widgetsRef (comp s)) ∧
  (∀ view widgets open σ,
     view = None ∨ ws_get measurement widgets = None ∨ ws_get sketch widgets = None →
     V1.toolsEffect view widgets open σ = (inl tt, σ)) ∧
  (∀ view widgets open σ,
     view = None ∨ ws_get basemapGallery widgets = None →
     V1.basemapEffect view widgets open σ = (inl tt, σ)).
Proof.
  split; [| split; [| split]].
  3: { intros view widgets open σ H. unfold V1.toolsEffect.
       destruct view; [| reflexivity].
       destruct (ws_get measurement widgets); [| reflexivity].
       destruct (ws_get sketch widgets); [| reflexivity].
       destruct H as [H | [H | H]]; discriminate H. }
  3: { intros view widgets open σ H. unfold V1.basemapEffect.
       destruct view; [| reflexivity].
       destruct (ws_get basemapGallery widgets); [| reflexivity].
       destruct H as [H | H]; discriminate H. }
  - intros H. split; [by apply toolsEffect_absent |].
    unfold step. destruct (buttons_rendered s); [| done].
    rewrite handleToolsToggle_exec. unfold exec.
    rewrite toolsEffect_absent by exact H. done.
  - intros H. split; [by apply basemapEffect_absent |].
    unfold step. destruct (buttons_rendered s); [| done].
    rewrite handleBasemapToggle_exec. unfold exec.
    rewrite basemapEffect_absent by exact H. done.
Qed.

(** C7 on a component whose construction failed, clicked before the
    failure is shown. *)
Lemma toggle_before_construction_is_noop_witness :
  wld (step env_compass_fails (mount env_compass_fails) ClickTools)
  = wld (mount env_compass_fails).
Proof.
  apply (toggle_before_construction_is_noop env_compass_fails (mount env_compass_fails)).
  left. reflexivity.
Defined.

(* ===================================================================== *)
(** ** The toggles agree with the UI surface in every reachable state     *)
(* ===================================================================== *)

Lemma first_failure_none (sdk : Sdk) :
  first_failure sdk init_order = None → constructs_all sdk.
Proof.
  cbn [init_order bulk_order first_failure app]. case_new; intros H; try discriminate H.
  intros c. destruct c as [| | | []]; assumption.
Qed.

(** When the container is missing or a construction throws, the component
    holds no view and no widget. *)
Lemma mount_failed (env : Env) :
  container env = None ∨ (∃ c e, first_failure (env_sdk env) init_order = Some (c, e)) →
  viewRef (comp (mount env)) = None ∧ widgetsRef (comp (mount env)) = [] ∧
  torn_down (wld (mount env)) = [].
Proof.
  intros H. unfold mount, setup_start, initializeMap.
  destruct (container env) as [div |] eqn:Hc.
  - destruct H as [H | (c & e & H)]; [discriminate H |].
    revert H. unfold_init. cbn [init_order bulk_order first_failure app].
    case_new; intros H; try discriminate H; vm_compute; done.
  - vm_compute. done.
Qed.

Lemma mounted_ok_consistent (sdk : Sdk) : toggles_consistent (mounted_ok sdk).
Proof.
  intros v _. split; [| split].
  - intros m k [= <-] [= <-]. cbn. compute_done.
  - intros g [= <-]. cbn. compute_done.
  - intros m k g [= <-] [= <-] [= <-]. cbn. split; lia.
Qed.

Lemma mount_consistent (env : Env) : toggles_consistent (mount env).
Proof.
  destruct (container env) as [div |] eqn:Hc.
  - destruct (first_failure (env_sdk env) init_order) as [[c e] |] eqn:F.
    + destruct (mount_failed env) as (Hv & _); [right; by eauto |].
      intros v Hv'. congruence.
    + rewrite (mount_ok env div Hc (first_failure_none _ F)).
      apply mounted_ok_consistent.
  - destruct (mount_failed env) as (Hv & _); [by left |].
    intros v Hv'. congruence.
Qed.

Lemma toggles_consistent_frame (s s' : page) :
  same_handles s s' → toggles_consistent s → toggles_consistent s'.
Proof.
  intros (Hv & Hw & Ht & Hb & _ & _ & _ & Hu) Hs. unfold toggles_consistent.
  rewrite Hv, Hw, Ht, Hb, Hu. exact Hs.
Qed.

Lemma step_consistent (env : Env) (s : page) (ev : event) :
  toggles_consistent s → toggles_consistent (step env s ev).
Proof.
  intros Hs. destruct ev; unfold step.
  - eapply toggles_consistent_frame; [apply setup_resume_frame | exact Hs].
  - destruct (cleanup_run s) as (_ & Hv & _). intros v Hv'. congruence.
  - destruct (buttons_rendered s); [| exact Hs].
    rewrite handleToolsToggle_exec.
    destruct (viewRef (comp s)) as [v |] eqn:Ev.
    2: { unfold exec. rewrite toolsEffect_absent by (by left).
         intros v Hv. cbn in Hv. congruence. }
    destruct (ws_get measurement (widgetsRef (comp s))) as [m |] eqn:Em.
    2: { unfold exec. rewrite toolsEffect_absent by (right; by left).
         intros v' Hv'. cbn. destruct (Hs v Ev) as (_ & Hb & Hd).
         split; [| split]; [| exact Hb | exact Hd].
         intros m k Hm. congruence. }
    destruct (ws_get sketch (widgetsRef (comp s))) as [k |] eqn:Ek.
    2: { unfold exec. rewrite toolsEffect_absent by (right; by right).
         intros v' Hv'. cbn. destruct (Hs v Ev) as (_ & Hb & Hd).
         split; [| split]; [| exact Hb | exact Hd].
         intros m' k' _ Hk. congruence. }
    rewrite (toolsEffect_present (tools_flipped s) v m k) by done.
    destruct (Hs v Ev) as (Ht & Hb & Hd).
    specialize (Ht m k Em Ek).
    intros v' _. cbn. rewrite Em, Ek. split; [| split].
    + intros m' k' [= <-] [= <-].
      destruct (toolsOpen (comp s)); cbn; set_solver.
    + intros g Hg. specialize (Hb g Hg). destruct (Hd m k g Em Ek Hg) as [D1 D2].
      destruct (toolsOpen (comp s)), (basemapOpen (comp s)); cbn; set_solver.
    + intros m' k' g [= <-] [= <-] Hg. by apply Hd.
  - destruct (buttons_rendered s); [| exact Hs].
    rewrite handleBasemapToggle_exec.
    destruct (viewRef (comp s)) as [v |] eqn:Ev.
    2: { unfold exec. rewrite basemapEffect_absent by (by left).
         intros v Hv. cbn in Hv. congruence. }
    destruct (ws_get basemapGallery (widgetsRef (comp s))) as [g |] eqn:Eg.
    2: { unfold exec. rewrite basemapEffect_absent by (by right).
         intros v' Hv'. cbn. destruct (Hs v Ev) as (Ht & _ & Hd).
         split; [| split]; [exact Ht | | exact Hd].
         intros g Hg. congruence. }
    rewrite (basemapEffect_present (basemap_flipped s) v g) by done.
    destruct (Hs v Ev) as (Ht & Hb & Hd).
    specialize (Hb g Eg).
    intros v' _. cbn. rewrite Eg. split; [| split].
    + intros m k Hm Hk. specialize (Ht m k Hm Hk).
      destruct (Hd m k g Hm Hk Eg) as [D1 D2].
      destruct (toolsOpen (comp s)), (basemapOpen (comp s)); cbn; set_solver.
    + intros g' [= <-]. destruct (basemapOpen (comp s)); cbn; set_solver.
    + intros m k g' Hm Hk [= <-]. by apply Hd.
Qed.

Lemma run_snoc (env : Env) (evs : list event) (ev : event) :
  run env (evs ++ [ev]) = step env (run env evs) ev.
Proof. unfold run. by rewrite fold_left_app. Qed.

(** In every state the component can reach, the toggles agree with the UI
    surface. *)
Lemma reachable_consistent (env : Env) (evs : list event) :
  toggles_consistent (run env evs).
Proof.
  induction evs as [| ev evs IH] using rev_ind.
  - apply mount_consistent.
  - rewrite run_snoc. by apply step_consistent.
Qed.

(* ---- the UI surface as a set ---- *)

Lemma ui_add_pair (X : gset nat) (a b : nat) :
  {[b]} ∪ ({[a]} ∪ X) = {[a; b]} ∪ X.
Proof. set_solver. Qed.

Lemma ui_remove_pair (X : gset nat) (a b : nat) :
  X ∖ {[a]} ∖ {[b]} = X ∖ {[a; b]}.
Proof. set_solver. Qed.

Lemma ui_add_remove_pair (X : gset nat) (a b : nat) :
  a ∉ X → b ∉ X → ({[b]} ∪ ({[a]} ∪ X)) ∖ {[a]} ∖ {[b]} = X.
Proof. set_solver. Qed.

Lemma ui_remove_add_pair (X : gset nat) (a b : nat) :
  a ∈ X → b ∈ X → {[b]} ∪ ({[a]} ∪ (X ∖ {[a]} ∖ {[b]})) = X.
Proof.
  intros Ha Hb. apply set_eq. intros x.
  destruct (decide (x = a)) as [Ea | Na]; destruct (decide (x = b)) as [Eb | Nb];
    set_solver.
Qed.

Lemma ui_add_remove_one (X : gset nat) (c : nat) :
  c ∉ X → ({[c]} ∪ X) ∖ {[c]} = X.
Proof. set_solver. Qed.

Lemma ui_remove_add_one (X : gset nat) (c : nat) :
  c ∈ X → {[c]} ∪ (X ∖ {[c]}) = X.
Proof.
  intros Hc. apply set_eq. intros x.
  destruct (decide (x = c)) as [Ec | Nc]; set_solver.
Qed.

(** C5: in every reachable state that holds the view and the measurement,
    sketch and basemap-gallery widgets and renders the buttons, a click on
    "tools" while closed puts exactly the measurement and sketch widgets,
    absent before, on the UI surface, and a click while open takes exactly
    those two off; a click on "basemap" does the same with the gallery
    alone; and two clicks on either button give back the UI surface the
    state started with. *)
Theorem toggles_round_trip (env : Env) (evs : list event) (v m k g : jsobj) :
  let s := run env evs in
  viewRef (comp s) = Some v →
  ws_get measurement (widgetsRef (comp s)) = Some m →
  ws_get sketch (widgetsRef (comp s)) = Some k →
  ws_get basemapGallery (widgetsRef (comp s)) = Some g →
  buttons_rendered s = true →
  toolsOpen (comp (step env s ClickTools)) = negb (toolsOpen (comp s)) ∧
  basemapOpen (comp (step env s ClickBasemap)) = negb (basemapOpen (comp s)) ∧
  (toolsOpen (comp s) = false →
   (ref m ∉ ui (wld s)) ∧ (ref k ∉ ui (wld s)) ∧
   ui (wld (step env s ClickTools)) = {[ref m; ref k]} ∪ ui (wld s)) ∧
  (toolsOpen (comp s) = true →
   ref m ∈ ui (wld s) ∧ ref k ∈ ui (wld s) ∧
   ui (wld (step env s ClickTools)) = ui (wld s) ∖ {[ref m; ref k]}) ∧
  (basemapOpen (comp s) = false →
   (ref g ∉ ui (wld s)) ∧
   ui (wld (step env s ClickBasemap)) = {[ref g]} ∪ ui (wld s)) ∧
  (basemapOpen (comp s) = true →
   ref g ∈ ui (wld s) ∧
   ui (wld (step env s ClickBasemap)) = ui (wld s) ∖ {[ref g]}) ∧
  ui (wld (step env (step env s ClickTools) ClickTools)) = ui (wld s) ∧
  ui (wld (step env (step env s ClickBasemap) ClickBasemap)) = ui (wld s).
Proof.
  intros s Hv Hm Hk Hg Hb.
  destruct (reachable_consistent env evs v Hv) as (Ht & Hbm & _).
  fold s in Ht, Hbm. specialize (Ht m k Hm Hk). specialize (Hbm g Hg).
  assert (Et : step env s ClickTools =
               mkPage (set_toolsOpenRef (negb (toolsOpen (comp s)))
                         (setToolsOpen (negb (toolsOpen (comp s))) (comp s)))
                      (with_ui (wld s)
                         (if negb (toolsOpen (comp s))
                          then {[ref k]} ∪ ({[ref m]} ∪ ui (wld s))
                          else ui (wld s) ∖ {[ref m]} ∖ {[ref k]}))).
  { unfold step. rewrite Hb. rewrite handleToolsToggle_exec.
    by rewrite (toolsEffect_present (tools_flipped s) v m k). }
  assert (Eb : step env s ClickBasemap =
               mkPage (set_basemapOpenRef (negb (basemapOpen (comp s)))
                         (setBasemapOpen (negb (basemapOpen (comp s))) (comp s)))
                      (with_ui (wld s)
                         (if negb (basemapOpen (comp s))
                          then {[ref g]} ∪ ui (wld s)
                          else ui (wld s) ∖ {[ref g]}))).
  { unfold step. rewrite Hb. rewrite handleBasemapToggle_exec.
    by rewrite (basemapEffect_present (basemap_flipped s) v g). }
  assert (Ett : ui (wld (step env (step env s ClickTools) ClickTools)) =
                if toolsOpen (comp s)
                then {[ref k]} ∪ ({[ref m]} ∪ (ui (wld s) ∖ {[ref m]} ∖ {[ref k]}))
                else ({[ref k]} ∪ ({[ref m]} ∪ ui (wld s))) ∖ {[ref m]} ∖ {[ref k]}).
  { rewrite Et. unfold step at 1.
    replace (buttons_rendered _) with true by (by rewrite <- Hb).
    rewrite handleToolsToggle_exec.
    rewrite (toolsEffect_present _ v m k) by done.
    cbn. by destruct (toolsOpen (comp s)). }
  assert (Ebb : ui (wld (step env (step env s ClickBasemap) ClickBasemap)) =
                if basemapOpen (comp s)
                then {[ref g]} ∪ (ui (wld s) ∖ {[ref g]})
                else ({[ref g]} ∪ ui (wld s)) ∖ {[ref g]}).
  { rewrite Eb. unfold step at 1.
    replace (buttons_rendered _) with true by (by rewrite <- Hb).
    rewrite handleBasemapToggle_exec.
    rewrite (basemapEffect_present _ v g) by done.
    cbn. by destruct (basemapOpen (comp s)). }
  rewrite Ett, Ebb, Et, Eb. cbn [comp wld toolsOpen basemapOpen set_toolsOpenRef
    set_basemapOpenRef setToolsOpen setBasemapOpen with_ui ui].
  split; [done |]. split; [done |].
  destruct (toolsOpen (comp s)), (basemapOpen (comp s)); cbn [negb];
    destruct Ht as [Ht1 Ht2];
    repeat match goal with |- _ ∧ _ => split end;
    intros; try discriminate; try assumption;
    auto using ui_add_pair, ui_remove_pair, ui_add_remove_pair, ui_remove_add_pair,
      ui_add_remove_one, ui_remove_add_one.
Qed.

(** C5 right after a mount on which every construction succeeded. *)
Lemma toggles_round_trip_witness :
  ui (wld (step env_ok (step env_ok (run env_ok []) ClickTools) ClickTools))
  = ui (wld (run env_ok [])).
Proof.
  apply (toggles_round_trip env_ok []
           (made sdk_ok 2 CMapView) (made sdk_ok 11 (CWidget measurement))
           (made sdk_ok 12 (CWidget sketch)) (made sdk_ok 9 (CWidget basemapGallery)));
    reflexivity.
Defined.

(* ===================================================================== *)
(** ** Unmounting                                                         *)
(* ===================================================================== *)

Lemma toolsEffect_objects (s : page) : same_objects s (exec toolsEffect s).
Proof.
  unfold exec, toolsEffect, bind, gets.
  destruct (viewRef (comp s)); [| by repeat split].
  destruct (ws_get measurement _); [| by repeat split].
  destruct (ws_get sketch _); [| by repeat split].
  destruct (toolsOpen (comp s)); by repeat split.
Qed.

Lemma basemapEffect_objects (s : page) : same_objects s (exec basemapEffect s).
Proof.
  unfold exec, basemapEffect, bind, gets.
  destruct (viewRef (comp s)); [| by repeat split].
  destruct (ws_get basemapGallery _); [| by repeat split].
  destruct (basemapOpen (comp s)); by repeat split.
Qed.

(** Only the cleanup tears anything down or lets go of a handle. *)
Lemma step_objects (env : Env) (s : page) (ev : event) :
  ev ≠ Unmount → same_objects s (step env s ev).
Proof.
  intros Hev. destruct ev; [| done | |]; unfold step.
  - destruct (setup_resume_frame env s) as (H1 & H2 & _ & _ & _ & H3 & H4 & _).
    by repeat split.
  - destruct (buttons_rendered s); [| by repeat split].
    rewrite handleToolsToggle_exec. apply (toolsEffect_objects (tools_flipped s)).
  - destruct (buttons_rendered s); [| by repeat split].
    rewrite handleBasemapToggle_exec. apply (basemapEffect_objects (basemap_flipped s)).
Qed.

Lemma run_objects (env : Env) (evs : list event) :
  Unmount ∉ evs → same_objects (mount env) (run env evs).
Proof.
  induction evs as [| ev evs IH] using rev_ind; intros Hevs.
  - by repeat split.
  - rewrite run_snoc.
    destruct IH as (I1 & I2 & I3 & I4); [set_solver |].
    destruct (step_objects env (run env evs) ev) as (S1 & S2 & S3 & S4); [set_solver |].
    repeat split; congruence.
Qed.

(** When every construction succeeded, unmounting from any state reached
    without an earlier unmount calls [destroy] exactly once on each of the
    ten widgets and on the view, and running the cleanup again calls
    nothing more. *)
Lemma unmount_tears_down_once (env : Env) (div : jsobj) (evs : list event) :
  container env = Some div → constructs_all (env_sdk env) → Unmount ∉ evs →
  heap (wld (run env evs)) = heap_full ∧
  torn_down (wld (run env (evs ++ [Unmount]))) = [3; 4; 5; 6; 7; 8; 9; 10; 11; 12; 2] ∧
  torn_down (wld (run env (evs ++ [Unmount; Unmount]))) = [3; 4; 5; 6; 7; 8; 9; 10; 11; 12; 2].
Proof.
  intros Hc Hall Hevs.
  destruct (run_objects env evs Hevs) as (Hv & Hw & Hh & Ht).
  rewrite (mount_ok env div Hc Hall) in Hv, Hw, Hh, Ht. cbn in Hv, Hw, Hh, Ht.
  split; [exact Hh |].
  assert (H1 : torn_down (wld (run env (evs ++ [Unmount]))) =
               [3; 4; 5; 6; 7; 8; 9; 10; 11; 12; 2]).
  { rewrite run_snoc. unfold step.
    destruct (cleanup_run (run env evs)) as (_ & _ & _ & _ & _ & _ & ->).
    rewrite Hv, Hw, Ht. reflexivity. }
  split; [exact H1 |].
  replace (evs ++ [Unmount; Unmount])%list with ((evs ++ [Unmount]) ++ [Unmount])%list
    by (by rewrite <- app_assoc).
  rewrite run_snoc. unfold step at 1.
  destruct (cleanup_run (run env (evs ++ [Unmount]))) as (_ & _ & _ & _ & _ & _ & ->).
  rewrite H1. rewrite run_snoc. unfold step.
  destruct (cleanup_run (run env evs)) as (_ & -> & -> & _).
  reflexivity.
Qed.

(** The cleanup is idempotent: run a second time, it calls no [destroy]. *)
Lemma cleanup_twice (s : page) :
  torn_down (wld (exec cleanup (exec cleanup s))) = torn_down (wld (exec cleanup s)).
Proof.
  destruct (cleanup_run (exec cleanup s)) as (_ & _ & _ & _ & _ & _ & ->).
  destruct (cleanup_run s) as (_ & -> & -> & _). cbn. by rewrite app_nil_r.
Qed.

(** C4 fails on the code: when the [Compass] constructor throws, the map,
    the layer, the view and the home widget have been constructed, the
    component shows the error, and unmounting calls [destroy] on none of
    them, the view and the home widget included. *)
Theorem unmount_after_failed_construction :
  let s := run env_compass_fails [Resume] in
  lifecycle_of s =
    Failed ("Map initialization failed: Error: Failed to create widgets: "
            ++ "Error: Failed to create compass widget: Error: no compass") ∧
  heap (wld s) = [CMap; CGraphicsLayer; CMapView; CWidget home] ∧
  viewRef (comp s) = None ∧ widgetsRef (comp s) = [] ∧
  torn_down (wld (step env_compass_fails s Unmount)) = [].
Proof. vm_compute. done. Qed.

(* ===================================================================== *)
(** ** The first revision, for comparison                                 *)
(* ===================================================================== *)

(** Without validation, the empty data yields the box of infinities. *)
Lemma v1_empty_data_box (parse : string → num) (graphicsLayer : jsobj) (σ : world) :
  V1.addPointsToLayer parse [] graphicsLayer σ =
  (inl ((PosInf, PosInf), (NegInf, NegInf)), σ).
Proof. reflexivity. Qed.

(** Without a [catch], the first teardown that throws ends the loop: the
    widgets after it are not torn down. *)
Lemma v1_destroyWidgets_stops :
  V1.destroyWidgets (Object_values widgets_one_broken) world0 =
  (inr (Error "boom"), after_teardown world0 [3; 4] []).
Proof. reflexivity. Qed.

(** The cleanup of the first revision tears down the view and no widget. *)
Lemma v1_cleanup_view_only (mapView : jsobj) (σ : world) :
  destroy mapView = DestroyFn None →
  V1.cleanup mapView σ = (inl tt, after_teardown σ [ref mapView] []).
Proof.
  intros H. unfold V1.cleanup, bind. simpl. rewrite H.
  destruct σ. unfold invoke_destroy, after_teardown. simpl. by rewrite app_nil_r.
Qed.

(* ===================================================================== *)
(** ** After an unmount                                                   *)
(* ===================================================================== *)

(** The [mounted] flag: an error caught after the cleanup has run is not
    put in the state. *)
Lemma unmounted_setup_is_silent :
  error (comp (run env_compass_fails [Unmount; Resume])) = None.
Proof. reflexivity. Qed.

(* ===================================================================== *)
(** * Further properties of the code                                      *)
(* ===================================================================== *)

(* ===================================================================== *)
(** ** calculateBounds: when it returns, and what                         *)
(* ===================================================================== *)

Lemma valid_finite (p : point) (x y : Q) :
  structurally_valid p = true →
  longitude p = VNum (Fin x) → latitude p = VNum (Fin y) →
  finite_coordinates p = true.
Proof.
  intros (lon & lat & rest & Hc & _)%structurally_valid_inv.
  unfold longitude, latitude, finite_coordinates. rewrite Hc. simpl.
  by intros [= ->] [= ->].
Qed.

Lemma finite_valid (p : point) :
  finite_coordinates p = true → structurally_valid p = true.
Proof.
  unfold finite_coordinates, structurally_valid.
  destruct (coordinates p) as [[| [| | | [| | x |] |] [| [| | | [| | y |] |] rest]] |];
    done.
Qed.

(** What a returned box says about the records. *)
Lemma calculateBounds_box_spec (points : list point) (σ : world) (b : box) :
  fst (calculateBounds points σ) = inl b →
  (isFinite (box_minLon b) = true ∧ isFinite (box_minLat b) = true ∧
   isFinite (box_maxLon b) = true ∧ isFinite (box_maxLat b) = true) ∧
  (∀ p, p ∈ points → structurally_valid p = true → inside b p) ∧
  (∃ p, p ∈ points ∧ structurally_valid p = true ∧ longitude p = VNum (box_minLon b)) ∧
  (∃ p, p ∈ points ∧ structurally_valid p = true ∧ latitude p = VNum (box_minLat b)) ∧
  (∃ p, p ∈ points ∧ structurally_valid p = true ∧ longitude p = VNum (box_maxLon b)) ∧
  (∃ p, p ∈ points ∧ structurally_valid p = true ∧ latitude p = VNum (box_maxLat b)).
Proof.
  intros Hb.
  assert (Hne : points ≠ []) by (intros ->; discriminate Hb).
  rewrite calculateBounds_unfold in Hb by done. cbv zeta in Hb.
  pose proof (covers_fold _ [] extent0 covers_extent0 (filter_valid_Forall points)) as Hc.
  rewrite app_nil_l in Hc.
  set (a := fold_left extend (filter (λ p, structurally_valid p = true) points) extent0)
    in *.
  destruct (isFinite (minLon a)) eqn:F1; [| done].
  destruct (isFinite (maxLon a)) eqn:F2; [| done].
  destruct (isFinite (minLat a)) eqn:F3; [| done].
  destruct (isFinite (maxLat a)) eqn:F4; [| done].
  simpl in Hb. injection Hb as <-.
  destruct Hc as (_ & Hin & A1 & A2 & A3 & A4).
  unfold box_minLon, box_minLat, box_maxLon, box_maxLat. simpl.
  split; [done |]. split.
  { intros p Hp Hv. apply Hin. by apply list_elem_of_filter. }
  repeat split.
  - destruct A1 as [E | (p & [Hv Hp]%list_elem_of_filter & E)]; [by rewrite E in F1 | eauto].
  - destruct A2 as [E | (p & [Hv Hp]%list_elem_of_filter & E)]; [by rewrite E in F3 | eauto].
  - destruct A3 as [E | (p & [Hv Hp]%list_elem_of_filter & E)]; [by rewrite E in F2 | eauto].
  - destruct A4 as [E | (p & [Hv Hp]%list_elem_of_filter & E)]; [by rewrite E in F4 | eauto].
Qed.

Lemma between_finite (lo x hi : num) :
  isFinite lo = true → isFinite hi = true →
  num_leb lo x = true → num_leb x hi = true → isFinite x = true.
Proof. destruct lo, x, hi; done. Qed.

Lemma returns_box_iff (points : list point) (σ : world) :
  (∃ b, fst (calculateBounds points σ) = inl b) ↔
  (∃ p, p ∈ points ∧ structurally_valid p = true) ∧
  (∀ p, p ∈ points → structurally_valid p = true → finite_coordinates p = true).
Proof.
  split.
  - intros (b & Hb).
    destruct (calculateBounds_box_spec points σ b Hb)
      as ((I1 & I2 & I3 & I4) & Hin & (p0 & Hp0 & Hv0 & _) & _).
    split; [by eauto |].
    intros p Hp Hv. destruct (Hin p Hp Hv) as (lon & lat & Ex & Ey & B1 & B2 & B3 & B4).
    pose proof (between_finite _ _ _ I1 I3 B1 B2) as Fx.
    pose proof (between_finite _ _ _ I2 I4 B3 B4) as Fy.
    destruct lon, lat; try done. by eapply valid_finite.
  - intros ((p0 & Hp0 & Hv0) & Hfin).
    assert (Hne : points ≠ []) by (intros ->; by apply elem_of_nil in Hp0).
    rewrite calculateBounds_unfold by done. cbv zeta.
    pose proof (covers_fold _ [] extent0 covers_extent0 (filter_valid_Forall points)) as Hc.
    rewrite app_nil_l in Hc.
    destruct (covers_finite _ _ Hc) as ((I1 & I2 & I3 & I4) & _).
    + intros E. assert (Hin : p0 ∈ filter (λ p, structurally_valid p = true) points)
        by (by apply list_elem_of_filter).
      rewrite E in Hin. by apply elem_of_nil in Hin.
    + apply Forall_forall. intros p [Hv Hp]%list_elem_of_filter. by apply Hfin.
    + rewrite I1, I2, I3, I4. simpl. by eauto.
Qed.

(** X1: [calculateBounds] returns a box exactly when the list holds a
    structurally valid record and every structurally valid record has
    finite coordinates; otherwise it throws. *)
Theorem calculateBounds_returns_iff (points : list point) (σ : world) :
  (∃ b, fst (calculateBounds points σ) = inl b) ↔
  (∃ p, p ∈ points ∧ structurally_valid p = true) ∧
  (∀ p, p ∈ points → structurally_valid p = true → finite_coordinates p = true).
Proof. apply returns_box_iff. Qed.

Lemma inside_attained_le (b b' : box) (p : point) (x : num) :
  inside b' p →
  (longitude p = VNum x → num_leb (box_minLon b') x = true ∧ num_leb x (box_maxLon b') = true) ∧
  (latitude p = VNum x → num_leb (box_minLat b') x = true ∧ num_leb x (box_maxLat b') = true).
Proof.
  intros (lon & lat & Ex & Ey & B1 & B2 & B3 & B4). split.
  - rewrite Ex. by intros [= <-].
  - rewrite Ey. by intros [= <-].
Qed.

(** A box computed from records that are all among those of another
    computation lies within the other box. *)
Lemma calculateBounds_within (points points' : list point) (σ σ' : world) (b b' : box) :
  (∀ p, p ∈ points → p ∈ points') →
  fst (calculateBounds points σ) = inl b →
  fst (calculateBounds points' σ') = inl b' →
  box_within b b'.
Proof.
  intros Hsub Hb Hb'.
  destruct (calculateBounds_box_spec _ _ _ Hb)
    as (_ & _ & (p1 & H1 & V1 & E1) & (p2 & H2 & V2 & E2)
          & (p3 & H3 & V3 & E3) & (p4 & H4 & V4 & E4)).
  destruct (calculateBounds_box_spec _ _ _ Hb') as (_ & Hin & _).
  repeat split.
  - by apply (inside_attained_le b b' p1 _ (Hin p1 (Hsub p1 H1) V1)).
  - by apply (inside_attained_le b b' p2 _ (Hin p2 (Hsub p2 H2) V2)).
  - by apply (inside_attained_le b b' p3 _ (Hin p3 (Hsub p3 H3) V3)).
  - by apply (inside_attained_le b b' p4 _ (Hin p4 (Hsub p4 H4) V4)).
Qed.

(** X2: the box does not depend on the order of the records: when
    [calculateBounds] returns a box for a list, it returns a box with equal
    bounds for every rearrangement of the list. *)
Theorem calculateBounds_order_independent (points points' : list point)
    (σ σ' : world) (b : box) :
  points ≡ₚ points' →
  fst (calculateBounds points σ) = inl b →
  ∃ b', fst (calculateBounds points' σ') = inl b' ∧ box_equiv b b'.
Proof.
  intros Hperm Hb.
  assert (Hret : ∃ b', fst (calculateBounds points' σ') = inl b').
  { apply returns_box_iff.
    destruct (proj1 (returns_box_iff points σ)) as ((p & Hp & Hv) & Hfin);
      [by eauto |].
    split.
    - exists p. split; [by rewrite <- Hperm | done].
    - intros q Hq. apply Hfin. by rewrite Hperm. }
  destruct Hret as (b' & Hb'). exists b'. split; [done |].
  assert (H1 : box_within b b')
    by (eapply calculateBounds_within; [| exact Hb | exact Hb']; intros p; by rewrite Hperm).
  assert (H2 : box_within b' b)
    by (eapply calculateBounds_within; [| exact Hb' | exact Hb]; intros p; by rewrite Hperm).
  destruct H1 as (A1 & A2 & A3 & A4), H2 as (B1 & B2 & B3 & B4).
  by repeat split.
Qed.

(** X2 on the two-point example, reversed. *)
Lemma calculateBounds_order_independent_witness :
  ∃ b', fst (calculateBounds (reverse example_points) world0) = inl b' ∧
        box_equiv ((Fin 30, Fin 28), (Fin 32, Fin 30)) b'.
Proof.
  apply (calculateBounds_order_independent example_points (reverse example_points)
           world0 world0).
  - apply Permutation_swap.
  - reflexivity.
Defined.

(** X3: more records can only widen the box: when [calculateBounds] returns
    a box for a list and for the list with further records appended, the
    first box lies within the second. *)
Theorem calculateBounds_grows (points more : list point) (σ σ' : world) (b b' : box) :
  fst (calculateBounds points σ) = inl b →
  fst (calculateBounds (points ++ more) σ') = inl b' →
  box_within b b'.
Proof.
  intros Hb Hb'. eapply calculateBounds_within; [| exact Hb | exact Hb'].
  intros p Hp. apply elem_of_app. by left.
Qed.

(** X3 on the first record of the example, then both. *)
Lemma calculateBounds_grows_witness :
  box_within ((Fin 30, Fin 30), (Fin 30, Fin 30)) ((Fin 30, Fin 28), (Fin 32, Fin 30)).
Proof.
  apply (calculateBounds_grows (take 1 example_points) (drop 1 example_points)
           world0 world0); reflexivity.
Defined.

(* ===================================================================== *)
(** ** addPointsToLayer: markers and warnings                             *)
(* ===================================================================== *)

(** X4: [addPointsToLayer] draws a marker for each structurally valid
    record, in order, before it computes the bounds, so the markers are
    there also when the computation throws; it warns about each other
    record twice, once in its own loop and once in [calculateBounds];
    it touches nothing else, and returns or throws what [calculateBounds]
    does. *)
Theorem addPointsToLayer_effect (env : Env) (graphicsLayer : jsobj) (σ : world) :
  fst (addPointsToLayer env graphicsLayer σ) = fst (calculateBounds (pointsData env) σ) ∧
  snd (addPointsToLayer env graphicsLayer σ) =
    mkWorld (heap σ) (torn_down σ) (ui σ)
            (layer σ ++ filter (λ p, structurally_valid p = true) (pointsData env))
            (listeners σ)
            (console σ
             ++ (skipping_warning <$>
                   filter (λ p, structurally_valid p = false) (pointsData env))
             ++ (skip_warning <$>
                   filter (λ p, structurally_valid p = false) (pointsData env))).
Proof.
  unfold addPointsToLayer, bind. rewrite addPoints_loop.
  match goal with
  | |- context [calculateBounds ?pts ?w] =>
    pose proof (calculateBounds_world pts w) as Hw;
    pose proof (calculateBounds_result pts σ w) as Hr;
    destruct (calculateBounds pts w) as [r σ']
  end.
  simpl in Hw, Hr. subst σ'. split; [done |].
  unfold with_console. simpl. by rewrite app_assoc.
Qed.

(* ===================================================================== *)
(** ** The factory: what construction leaves behind                       *)
(* ===================================================================== *)

Lemma with_heap_alloc (σ : world) (made : list ctor) (c : ctor) :
  alloc c (with_heap σ made) = with_heap σ (made ++ [c]).
Proof. unfold alloc, with_heap. simpl. by rewrite app_assoc. Qed.

Lemma with_heap_nil (σ : world) : with_heap σ [] = σ.
Proof. destruct σ. unfold with_heap. simpl. by rewrite app_nil_r. Qed.

(** X5: [createAllWidgets] only constructs: whether it returns or throws,
    the heap has grown by the widgets of its list up to the first one whose
    constructor throws, in order, and nothing is placed on the UI surface,
    torn down, or logged.  The widgets constructed before a failure are
    neither returned nor destroyed. *)
Theorem createAllWidgets_only_constructs (sdk : Sdk) (view : jsobj)
    (graphicsLayer : option jsobj) (σ : world) :
  snd (createAllWidgets sdk view graphicsLayer σ) =
  with_heap σ (constructed sdk (bulk_order graphicsLayer)).
Proof.
  rewrite <- (with_heap_nil σ) at 1.
  unfold_bulk. destruct graphicsLayer as [l |]; cbn [bulk_order constructed app];
    case_new; cbn [fst snd]; rewrite ?with_heap_alloc; reflexivity.
Qed.

(** The state right after mounting, whatever the SDK does. *)
Lemma mount_state (env : Env) :
  (heap (wld (mount env)) =
     match container env with
     | Some _ => constructed (env_sdk env) init_order
     | None => []
     end ∧
   torn_down (wld (mount env)) = [] ∧
   layer (wld (mount env)) = [] ∧
   listeners (wld (mount env)) = [] ∧
   console (wld (mount env)) = []) ∧
  ((viewRef (comp (mount env)) = None ∧ widgetsRef (comp (mount env)) = [] ∧
    ui (wld (mount env)) = ∅) ∨
   (viewRef (comp (mount env)) = Some (made (env_sdk env) 2 CMapView) ∧
    widgetsRef (comp (mount env)) = widgets_full (env_sdk env) ∧
    ui (wld (mount env)) = default_ui ∧
    heap (wld (mount env)) = init_order)) ∧
  (error (comp (mount env)) = None ∧ loading (comp (mount env)) = true ∧
   mounted (comp (mount env)) = true ∧
   toolsOpen (comp (mount env)) = false ∧ basemapOpen (comp (mount env)) = false).
Proof.
  unfold mount, setup_start, initializeMap.
  destruct (container env) as [div |].
  - unfold_init. cbn [init_order constructed].
    case_new; vm_compute; repeat split; auto.
  - vm_compute. repeat split; auto.
Qed.

(** X6: mounting constructs the map, the layer, the view and the ten
    widgets in that order, up to the first constructor that throws, and
    nothing when the container is missing.  The component holds the view
    and the widgets, and the seven default widgets are on the UI surface,
    only if every construction succeeded; otherwise it holds nothing and the
    UI surface is empty.  Mounting draws no marker, registers no listener
    and tears nothing down. *)
Theorem mount_constructs (env : Env) :
  heap (wld (mount env)) =
    match container env with
    | Some _ => constructed (env_sdk env) init_order
    | None => []
    end ∧
  torn_down (wld (mount env)) = [] ∧
  layer (wld (mount env)) = [] ∧
  listeners (wld (mount env)) = [] ∧
  console (wld (mount env)) = [] ∧
  ((viewRef (comp (mount env)) = None ∧ widgetsRef (comp (mount env)) = [] ∧
    ui (wld (mount env)) = ∅) ∨
   (viewRef (comp (mount env)) = Some (made (env_sdk env) 2 CMapView) ∧
    widgetsRef (comp (mount env)) = widgets_full (env_sdk env) ∧
    ui (wld (mount env)) = default_ui ∧
    heap (wld (mount env)) = init_order)).
Proof.
  destruct (mount_state env) as ((H1 & H2 & H3 & H4 & H5) & H6 & _).
  by repeat split.
Qed.

Lemma truthy_6 : truthy (Fin 6) = true.
Proof. reflexivity. Qed.



(* ===================================================================== *)
(** ** setup: from Initializing to Ready or Failed                        *)
(* ===================================================================== *)

Lemma toolsEffect_trace (s : page) : same_trace s (exec toolsEffect s).
Proof.
  unfold exec, toolsEffect, bind, gets.
  destruct (viewRef (comp s)); [| by repeat split].
  destruct (ws_get measurement _); [| by repeat split].
  destruct (ws_get sketch _); [| by repeat split].
  destruct (toolsOpen (comp s)); by repeat split.
Qed.

Lemma basemapEffect_trace (s : page) : same_trace s (exec basemapEffect s).
Proof.
  unfold exec, basemapEffect, bind, gets.
  destruct (viewRef (comp s)); [| by repeat split].
  destruct (ws_get basemapGallery _); [| by repeat split].
  destruct (basemapOpen (comp s)); by repeat split.
Qed.

Lemma click_trace (env : Env) (s : page) (ev : event) :
  ev = ClickTools ∨ ev = ClickBasemap → same_trace s (step env s ev).
Proof.
  intros [-> | ->]; unfold step; destruct (buttons_rendered s); try by repeat split.
  - apply (toolsEffect_trace (tools_flipped s)).
  - apply (basemapEffect_trace (basemap_flipped s)).
Qed.

(** Clicks change nothing of the progress of [setup], of the markers, of
    the listeners and of the console. *)
Lemma clicks_fold (env : Env) (evs : list event) (s : page) :
  clicks_only evs →
  same_setup s (fold_left (step env) evs s) ∧ same_trace s (fold_left (step env) evs s).
Proof.
  revert s. induction evs as [| ev evs IH]; intros s Hevs.
  - by repeat split.
  - inversion Hevs as [| ? ? Hclick Hrest]; subst. cbn [fold_left].
    destruct (IH (step env s ev) Hrest) as ((I1 & I2 & I3 & I4) & (J1 & J2 & J3)).
    destruct (click_setup env s ev Hclick) as (S1 & S2 & S3 & S4).
    destruct (click_trace env s ev Hclick) as (T1 & T2 & T3).
    repeat split; congruence.
Qed.

Lemma addPointsToLayer_run (env : Env) (graphicsLayer : jsobj) (σ : world) :
  addPointsToLayer env graphicsLayer σ =
  (fst (calculateBounds (pointsData env) σ),
   mkWorld (heap σ) (torn_down σ) (ui σ)
           (layer σ ++ filter (λ p, structurally_valid p = true) (pointsData env))
           (listeners σ)
           (console σ
            ++ (skipping_warning <$>
                  filter (λ p, structurally_valid p = false) (pointsData env))
            ++ (skip_warning <$>
                  filter (λ p, structurally_valid p = false) (pointsData env)))).
Proof.
  unfold addPointsToLayer, bind. rewrite addPoints_loop.
  match goal with
  | |- context [calculateBounds ?pts ?w] =>
    pose proof (calculateBounds_world pts w) as Hw;
    pose proof (calculateBounds_result pts σ w) as Hr;
    destruct (calculateBounds pts w) as [r σ']
  end.
  simpl in Hw, Hr. subst σ'. rewrite Hr.
  unfold with_console. simpl. by rewrite app_assoc.
Qed.

(** The first resumption when the bounds can be computed: the markers are
    drawn, the listeners registered, and [setup] waits for the view. *)
Lemma resume_init_ok (env : Env) (s : page) (mapView graphicsLayer : jsobj) (b : box) :
  pending (comp s) = AwaitInit (inl (mapView, graphicsLayer)) →
  mounted (comp s) = true →
  fst (calculateBounds (pointsData env) world0) = inl b →
  pending (comp (setup_resume env s)) = AwaitWhen mapView b ∧
  mounted (comp (setup_resume env s)) = true ∧
  error (comp (setup_resume env s)) = error (comp s) ∧
  loading (comp (setup_resume env s)) = loading (comp s) ∧
  layer (wld (setup_resume env s)) =
    (layer (wld s) ++ filter (λ p, structurally_valid p = true) (pointsData env))%list ∧
  listeners (wld (setup_resume env s)) = (listeners (wld s) ++ listeners_of env)%list.
Proof.
  intros Hp Hm Hb.
  assert (E : ∃ σ', setup_resume env s = mkPage (set_pending (AwaitWhen mapView b) (comp s)) σ'
            ∧ layer σ' = (layer (wld s)
                          ++ filter (λ p, structurally_valid p = true) (pointsData env))%list
            ∧ listeners σ' = (listeners (wld s) ++ listeners_of env)%list).
  { unfold setup_resume. rewrite Hp, Hm. cbn [negb].
    unfold bind at 1. rewrite addPointsToLayer_run.
    rewrite (calculateBounds_result _ (wld s) world0), Hb.
    unfold listeners_of, bind, listen, modify, ret.
    destruct (onMapClick env), (onExtentChange env); cbn;
      eexists; (split; [reflexivity |]); cbn;
      rewrite ?app_nil_r, <- ?app_assoc; by split. }
  destruct E as (σ' & -> & El & Eli). by repeat split.
Qed.

Lemma run_cons_middle (env : Env) (evs1 evs2 : list event) (ev : event) :
  run env (evs1 ++ ev :: evs2) = fold_left (step env) evs2 (step env (run env evs1) ev).
Proof. by rewrite run_app. Qed.

(** After the first resumption of a mount on which everything was
    constructed and the bounds can be computed. *)
Lemma after_first_resume (env : Env) (div : jsobj) (b : box) (c1 : list event) :
  container env = Some div → constructs_all (env_sdk env) →
  fst (calculateBounds (pointsData env) world0) = inl b → clicks_only c1 →
  let s := step env (run env c1) Resume in
  pending (comp s) = AwaitWhen (made (env_sdk env) 2 CMapView) b ∧
  mounted (comp s) = true ∧ error (comp s) = None ∧ loading (comp s) = true ∧
  layer (wld s) = filter (λ p, structurally_valid p = true) (pointsData env) ∧
  listeners (wld s) = listeners_of env.
Proof.
  intros Hc Hall Hb Hclicks s. subst s. unfold step.
  destruct (clicks_fold env c1 (mount env) Hclicks) as ((P1 & P2 & P3 & P4) & (T1 & T2 & _)).
  fold (run env c1) in P1, P2, P3, P4, T1, T2.
  rewrite (mount_ok env div Hc Hall) in P1, P2, P3, P4, T1, T2.
  cbn in P1, P2, P3, P4, T1, T2.
  destruct (resume_init_ok env (run env c1) _ _ b P1 P2 Hb) as (R1 & R2 & R3 & R4 & R5 & R6).
  rewrite R1, R2, R3, R4, R5, R6, P3, P4, T1, T2. by repeat split.
Qed.

Lemma resume_when_ok (env : Env) (s : page) (mapView : jsobj) (b : box) :
  pending (comp s) = AwaitWhen mapView b → mounted (comp s) = true →
  when_rejects (env_sdk env) = None →
  setup_resume env s = mkPage (set_pending AwaitGoTo (comp s)) (wld s).
Proof. intros Hp Hm Hw. unfold setup_resume. by rewrite Hp, Hw, Hm. Qed.

Lemma resume_when_rejects (env : Env) (s : page) (mapView : jsobj) (b : box) (e : thrown) :
  pending (comp s) = AwaitWhen mapView b → when_rejects (env_sdk env) = Some e →
  setup_resume env s = setup_catch e s.
Proof. intros Hp Hw. unfold setup_resume. by rewrite Hp, Hw. Qed.

Lemma resume_goTo_ok (env : Env) (s : page) :
  pending (comp s) = AwaitGoTo → goTo_rejects (env_sdk env) = None →
  setup_resume env s = mkPage (set_pending Settled (setLoading false (comp s))) (wld s).
Proof. intros Hp Hg. unfold setup_resume. by rewrite Hp, Hg. Qed.

Lemma resume_goTo_rejects (env : Env) (s : page) (e : thrown) :
  pending (comp s) = AwaitGoTo → goTo_rejects (env_sdk env) = Some e →
  setup_resume env s = setup_catch e s.
Proof. intros Hp Hg. unfold setup_resume. by rewrite Hp, Hg. Qed.

(** X8: when the container is there, every construction succeeds, the
    bounds can be computed and the view's promises resolve, the component
    is Initializing until the third resumption of [setup] and Ready after
    it, whatever is clicked in between; by then a marker has been drawn for
    each structurally valid record, in order, and one listener registered
    for each callback prop supplied. *)
Theorem setup_reaches_ready (env : Env) (div : jsobj) (b : box) (c1 c2 c3 : list event) :
  container env = Some div → constructs_all (env_sdk env) →
  when_rejects (env_sdk env) = None → goTo_rejects (env_sdk env) = None →
  fst (calculateBounds (pointsData env) world0) = inl b →
  clicks_only c1 → clicks_only c2 → clicks_only c3 →
  lifecycle_of (run env c1) = Initializing ∧
  lifecycle_of (run env (c1 ++ Resume :: c2)) = Initializing ∧
  lifecycle_of (run env (c1 ++ Resume :: c2 ++ Resume :: c3)) = Initializing ∧
  let s := run env (c1 ++ Resume :: c2 ++ Resume :: c3 ++ [Resume]) in
  lifecycle_of s = Ready ∧
  layer (wld s) = filter (λ p, structurally_valid p = true) (pointsData env) ∧
  listeners (wld s) = listeners_of env.
Proof.
  intros Hc Hall Hw Hg Hb H1 H2 H3.
  destruct (clicks_fold env c1 (mount env) H1) as ((A1 & A2 & A3 & A4) & _).
  fold (run env c1) in A1, A2, A3, A4.
  rewrite (mount_ok env div Hc Hall) in A1, A2, A3, A4. cbn in A1, A2, A3, A4.
  destruct (after_first_resume env div b c1 Hc Hall Hb H1) as (P & M & E & L & Ly & Li).
  set (s2 := step env (run env c1) Resume) in *.
  destruct (clicks_fold env c2 s2 H2) as ((B1 & B2 & B3 & B4) & (T1 & T2 & _)).
  set (s3 := fold_left (step env) c2 s2) in *.
  assert (E4 : step env s3 Resume = mkPage (set_pending AwaitGoTo (comp s3)) (wld s3)).
  { unfold step.
    apply (resume_when_ok env s3 (made (env_sdk env) 2 CMapView) b); [| | done]; congruence. }
  set (s4 := step env s3 Resume) in *.
  destruct (clicks_fold env c3 s4 H3) as ((C1 & C2 & C3 & C4) & (U1 & U2 & _)).
  set (s5 := fold_left (step env) c3 s4) in *.
  assert (E6 : step env s5 Resume =
               mkPage (set_pending Settled (setLoading false (comp s5))) (wld s5)).
  { unfold step. apply resume_goTo_ok; [| done]. rewrite C1, E4. done. }
  split; [unfold lifecycle_of; by rewrite A3, A4 |].
  split.
  { rewrite run_cons_middle. fold s2. fold s3. unfold lifecycle_of.
    rewrite B3, B4, E, L. done. }
  split.
  { rewrite run_cons_middle. fold s2. rewrite fold_left_app. fold s3.
    cbn [fold_left]. fold s4. fold s5. unfold lifecycle_of.
    rewrite C3, C4, E4. cbn. rewrite B3, B4, E, L. done. }
  cbv zeta. rewrite run_cons_middle. fold s2. rewrite fold_left_app. fold s3.
  cbn [fold_left]. fold s4. rewrite fold_left_app. fold s5. cbn [fold_left].
  rewrite E6. unfold lifecycle_of. cbn.
  rewrite C3, U1, U2, E4. cbn. rewrite B3, T1, T2, E, Ly, Li. done.
Qed.

(** X8 on the two-point example, with a click on each button on the way. *)
Lemma setup_reaches_ready_witness :
  lifecycle_of (run env_ok ([ClickTools] ++ Resume :: [] ++ Resume :: [ClickBasemap]
                            ++ [Resume])) = Ready.
Proof.
  destruct (setup_reaches_ready env_ok div0 ((Fin 30, Fin 28), (Fin 32, Fin 30))
              [ClickTools] [] [ClickBasemap]) as (_ & _ & _ & H & _).
  - reflexivity.
  - intros c. reflexivity.
  - reflexivity.
  - reflexivity.
  - reflexivity.
  - constructor; [by left | constructor].
  - constructor.
  - constructor; [by right | constructor].
  - exact H.
Defined.

(** X9: when [view.when()] rejects, or resolves and [view.goTo(..)]
    rejects, the component is Failed from the resumption that sees the
    rejection on, whatever happens after; the message shown is the error's
    own when the rejection is an [Error], and "Unknown error occurred" when
    it is anything else. *)
Theorem readiness_rejection_fails (env : Env) (div : jsobj) (b : box) (e : thrown)
    (c1 c2 c3 rest : list event) :
  container env = Some div → constructs_all (env_sdk env) →
  fst (calculateBounds (pointsData env) world0) = inl b →
  clicks_only c1 → clicks_only c2 → clicks_only c3 →
  (when_rejects (env_sdk env) = Some e →
   lifecycle_of (run env (c1 ++ Resume :: c2 ++ Resume :: rest)) = Failed (shown_message e)) ∧
  (when_rejects (env_sdk env) = None → goTo_rejects (env_sdk env) = Some e →
   lifecycle_of (run env (c1 ++ Resume :: c2 ++ Resume :: c3 ++ Resume :: rest))
   = Failed (shown_message e)).
Proof.
  intros Hc Hall Hb H1 H2 H3.
  destruct (after_first_resume env div b c1 Hc Hall Hb H1) as (P & M & E & L & _).
  set (s2 := step env (run env c1) Resume) in *.
  destruct (clicks_fold env c2 s2 H2) as ((B1 & B2 & B3 & B4) & _).
  set (s3 := fold_left (step env) c2 s2) in *.
  split.
  - intros Hw. rewrite run_cons_middle. fold s2. rewrite fold_left_app. fold s3.
    cbn [fold_left]. unfold step at 2.
    rewrite (resume_when_rejects env s3 (made (env_sdk env) 2 CMapView) b e) by congruence.
    destruct (setup_catch_failed e s3) as (He & Hp); [congruence |].
    by apply failed_stays.
  - intros Hw Hg. rewrite run_cons_middle. fold s2. rewrite fold_left_app. fold s3.
    cbn [fold_left].
    assert (E4 : step env s3 Resume = mkPage (set_pending AwaitGoTo (comp s3)) (wld s3)).
    { unfold step.
    apply (resume_when_ok env s3 (made (env_sdk env) 2 CMapView) b); [| | done]; congruence. }
    set (s4 := step env s3 Resume) in *.
    destruct (clicks_fold env c3 s4 H3) as ((C1 & C2 & C3 & C4) & _).
    rewrite fold_left_app. set (s5 := fold_left (step env) c3 s4) in *.
    cbn [fold_left]. unfold step at 2.
    rewrite (resume_goTo_rejects env s5 e); [| by rewrite C1, E4 | done].
    destruct (setup_catch_failed e s5) as (He & Hp).
    { rewrite C2, E4. cbn. congruence. }
    by apply failed_stays.
Qed.

(** X9 on an SDK whose [view.when()] rejects with a value that is not an
    [Error]. *)
Lemma readiness_rejection_fails_witness :
  lifecycle_of (run env_when_rejects ([] ++ Resume :: [ClickTools] ++ Resume :: [Unmount]))
  = Failed "Unknown error occurred".
Proof.
  destruct (readiness_rejection_fails env_when_rejects div0
              ((Fin 30, Fin 28), (Fin 32, Fin 30)) (Other "timeout")
              [] [ClickTools] [] [Unmount]) as (H & _).
  - reflexivity.
  - intros c. reflexivity.
  - reflexivity.
  - constructor.
  - constructor; [by left | constructor].
  - constructor.
  - exact (H eq_refl).
Defined.

(* ===================================================================== *)
(** ** Unmounting: what the cleanup does and what can follow it           *)
(* ===================================================================== *)

Lemma cleanup_console (s : page) :
  console (wld (exec cleanup s)) =
    (console (wld s) ++ teardown_failures (widgetsRef (comp s))
                     ++ failure_of "Failed to destroy view:" (viewRef (comp s)))%list ∧
  layer (wld (exec cleanup s)) = layer (wld s) ∧
  listeners (wld (exec cleanup s)) = listeners (wld s) ∧
  toolsOpen (comp (exec cleanup s)) = toolsOpen (comp s) ∧
  basemapOpen (comp (exec cleanup s)) = basemapOpen (comp s) ∧
  loading (comp (exec cleanup s)) = loading (comp s).
Proof.
  unfold exec, cleanup, bind, gets, modifyC, modify, liftW. cbn [fst snd comp wld].
  rewrite destroyWidgets_run. cbn [comp wld set_mounted set_widgetsRef viewRef].
  destruct (viewRef (comp s)) as [v |] eqn:Ev.
  - rewrite destroyView_run. cbn. by rewrite app_assoc.
  - cbn. by rewrite app_nil_r.
Qed.

(** X10: the cleanup always completes and lets go of everything, whatever
    the teardowns do: it never throws, afterwards the component holds no
    view and no widget and its [mounted] flag is down, every teardown that
    threw, of a widget or of the view, is on the console, and the UI
    surface, the markers and the listeners are as they were. *)
Theorem cleanup_always_clears (s : page) :
  fst (cleanup s) = inl tt ∧
  viewRef (comp (exec cleanup s)) = None ∧
  widgetsRef (comp (exec cleanup s)) = [] ∧
  mounted (comp (exec cleanup s)) = false ∧
  console (wld (exec cleanup s)) =
    (console (wld s) ++ teardown_failures (widgetsRef (comp s))
                     ++ failure_of "Failed to destroy view:" (viewRef (comp s)))%list ∧
  ui (wld (exec cleanup s)) = ui (wld s) ∧
  layer (wld (exec cleanup s)) = layer (wld s) ∧
  listeners (wld (exec cleanup s)) = listeners (wld s).
Proof.
  destruct (cleanup_run s) as (H1 & H2 & H3 & H4 & _ & H5 & _).
  destruct (cleanup_console s) as (H6 & H7 & H8 & _).
  by repeat split.
Qed.

(** The cleanup of a component that holds nothing only lowers the flag. *)
Lemma cleanup_cleared (s : page) :
  viewRef (comp s) = None → widgetsRef (comp s) = [] →
  wld (exec cleanup s) = wld s ∧ error (comp (exec cleanup s)) = error (comp s).
Proof.
  intros Hv Hw. split; [| by destruct (cleanup_setup s)].
  unfold exec, cleanup, bind, gets, modifyC, modify, liftW. cbn [fst snd comp wld].
  rewrite destroyWidgets_run. cbn [comp wld set_mounted set_widgetsRef viewRef widgetsRef].
  rewrite Hv, Hw. cbn. apply after_teardown_nil.
Qed.

(** A component that holds no view and no widget never holds one again,
    constructs nothing and tears nothing down. *)
Lemma handles_gone_stay_gone (env : Env) (evs : list event) (s : page) :
  viewRef (comp s) = None → widgetsRef (comp s) = [] →
  viewRef (comp (fold_left (step env) evs s)) = None ∧
  widgetsRef (comp (fold_left (step env) evs s)) = [] ∧
  heap (wld (fold_left (step env) evs s)) = heap (wld s) ∧
  torn_down (wld (fold_left (step env) evs s)) = torn_down (wld s).
Proof.
  revert s. induction evs as [| ev evs IH]; intros s Hv Hw; [done |].
  cbn [fold_left].
  assert (Hstep : viewRef (comp (step env s ev)) = None ∧
                  widgetsRef (comp (step env s ev)) = [] ∧
                  heap (wld (step env s ev)) = heap (wld s) ∧
                  torn_down (wld (step env s ev)) = torn_down (wld s)).
  { assert (Hne : ev ≠ Unmount → viewRef (comp (step env s ev)) = None ∧
                      widgetsRef (comp (step env s ev)) = [] ∧
                      heap (wld (step env s ev)) = heap (wld s) ∧
                      torn_down (wld (step env s ev)) = torn_down (wld s)).
    { intros Hne. destruct (step_objects env s ev Hne) as (S1 & S2 & S3 & S4).
      repeat split; congruence. }
    destruct ev; try (by apply Hne).
    unfold step. destruct (cleanup_run s) as (_ & C1 & C2 & _ & C3 & _ & C4).
    rewrite C1, C2, C3, C4, Hv, Hw. cbn. by rewrite app_nil_r. }
  destruct Hstep as (S1 & S2 & S3 & S4).
  destruct (IH (step env s ev) S1 S2) as (I1 & I2 & I3 & I4).
  repeat split; congruence.
Qed.

(** Once unmounted, the component touches the SDK no more and shows no new
    error. *)
Lemma unmounted_frozen (env : Env) (evs : list event) (s : page) :
  mounted (comp s) = false → viewRef (comp s) = None → widgetsRef (comp s) = [] →
  wld (fold_left (step env) evs s) = wld s ∧
  error (comp (fold_left (step env) evs s)) = error (comp s).
Proof.
  revert s. induction evs as [| ev evs IH]; intros s Hm Hv Hw; [done |].
  cbn [fold_left].
  assert (Hstep : wld (step env s ev) = wld s ∧
                  error (comp (step env s ev)) = error (comp s) ∧
                  mounted (comp (step env s ev)) = false ∧
                  viewRef (comp (step env s ev)) = None ∧
                  widgetsRef (comp (step env s ev)) = []).
  { destruct ev; unfold step.
    - unfold setup_resume, setup_catch.
      destruct (pending (comp s)) as [[[v l] | err] | v b | |]; rewrite ?Hm; cbn;
        try (destruct (when_rejects (env_sdk env))); 
        try (destruct (goTo_rejects (env_sdk env))); rewrite ?Hm; cbn; done.
    - destruct (cleanup_cleared s Hv Hw) as (C1 & C2).
      destruct (cleanup_run s) as (_ & C3 & C4 & C5 & _). done.
    - unfold buttons_rendered. rewrite Hm. done.
    - unfold buttons_rendered. rewrite Hm. done. }
  destruct Hstep as (S1 & S2 & S3 & S4 & S5).
  destruct (IH (step env s ev) S3 S4 S5) as (I1 & I2).
  split; congruence.
Qed.

(** X11: once the cleanup has run, the component touches the SDK no more:
    whatever promise settles or button is clicked afterwards, the objects
    constructed and torn down, the UI surface, the markers, the listeners
    and the console stay as the cleanup left them, and no error is put in
    the state.  In particular, after an unmount before the first
    resumption of [setup], no marker is ever drawn and no listener ever
    registered. *)
Theorem unmount_freezes (env : Env) (evs rest : list event) :
  wld (run env (evs ++ Unmount :: rest)) = wld (run env (evs ++ [Unmount])) ∧
  error (comp (run env (evs ++ Unmount :: rest))) = error (comp (run env (evs ++ [Unmount]))) ∧
  (clicks_only evs →
   layer (wld (run env (evs ++ Unmount :: rest))) = [] ∧
   listeners (wld (run env (evs ++ Unmount :: rest))) = [] ∧
   error (comp (run env (evs ++ Unmount :: rest))) = None).
Proof.
  rewrite run_cons_middle, run_snoc. set (s := run env evs).
  destruct (cleanup_run s) as (_ & C1 & C2 & C3 & _).
  destruct (unmounted_frozen env rest (step env s Unmount) C3 C1 C2) as (F1 & F2).
  split; [done |]. split; [done |].
  intros Hclicks. rewrite F1, F2. unfold step.
  destruct (cleanup_console s) as (_ & K1 & K2 & _).
  destruct (cleanup_setup s) as (_ & K3).
  rewrite K1, K2, K3.
  destruct (clicks_fold env evs (mount env) Hclicks) as ((_ & _ & P3 & _) & (T1 & T2 & _)).
  fold (run env evs) in P3, T1, T2. fold s in P3, T1, T2.
  destruct (mount_state env) as ((_ & _ & M1 & M2 & _) & _ & (M3 & _)).
  rewrite P3, T1, T2, M1, M2, M3. by repeat split.
Qed.

(** X11 on the example, unmounted after a click and before [setup] resumes. *)
Lemma unmount_freezes_witness :
  layer (wld (run env_ok ([ClickTools] ++ Unmount :: [Resume; Resume]))) = [] ∧
  listeners (wld (run env_ok ([ClickTools] ++ Unmount :: [Resume; Resume]))) = [] ∧
  error (comp (run env_ok ([ClickTools] ++ Unmount :: [Resume; Resume]))) = None.
Proof.
  destruct (unmount_freezes env_ok [ClickTools] [Resume; Resume]) as (_ & _ & H).
  apply H. constructor; [by left | constructor].
Defined.

(** X12: when every construction succeeded, an unmount from any state
    calls [destroy] on the ten widgets, in the order of the widget set, and
    then on the view, each exactly once; the map and the graphics layer are
    never torn down; and whatever happens afterwards, a second run of the
    cleanup included, nothing more is torn down. *)
Theorem unmount_teardown_order (env : Env) (div : jsobj) (evs rest : list event) :
  container env = Some div → constructs_all (env_sdk env) → Unmount ∉ evs →
  torn_down (wld (run env evs)) = [] ∧
  torn_down (wld (run env (evs ++ Unmount :: rest))) =
    [3; 4; 5; 6; 7; 8; 9; 10; 11; 12; 2] ∧
  heap (wld (run env (evs ++ Unmount :: rest))) = init_order.
Proof.
  intros Hc Hall Hevs.
  destruct (run_objects env evs Hevs) as (_ & _ & Hh & Ht).
  rewrite (mount_ok env div Hc Hall) in Hh, Ht. cbn in Hh, Ht.
  split; [exact Ht |].
  destruct (unmount_tears_down_once env div evs Hc Hall Hevs) as (_ & H1 & _).
  rewrite run_cons_middle. rewrite run_snoc in H1.
  destruct (cleanup_run (run env evs)) as (_ & C1 & C2 & _ & C3 & _).
  destruct (handles_gone_stay_gone env rest (step env (run env evs) Unmount) C1 C2)
    as (_ & _ & G1 & G2).
  rewrite G1, G2. split; [exact H1 |]. unfold step. by rewrite C3.
Qed.

(** X12 on the example, unmounted when Ready and cleaned up twice. *)
Lemma unmount_teardown_order_witness :
  torn_down (wld (run env_ok ([Resume; Resume; Resume] ++ Unmount :: [Unmount]))) =
  [3; 4; 5; 6; 7; 8; 9; 10; 11; 12; 2].
Proof.
  destruct (unmount_teardown_order env_ok div0 [Resume; Resume; Resume] [Unmount])
    as (_ & H & _).
  - reflexivity.
  - intros c. reflexivity.
  - intros Hin. repeat (apply elem_of_cons in Hin as [Hin | Hin]; [discriminate Hin |]).
    by apply elem_of_nil in Hin.
  - exact H.
Defined.



(* ===================================================================== *)
(** ** The UI surface is a function of the two toggles                    *)
(* ===================================================================== *)

Lemma ui_of_toggles_tools (t b : bool) :
  (if negb t
   then {[12]} ∪ ({[11]} ∪ ui_of_toggles t b)
   else ui_of_toggles t b ∖ {[11]} ∖ {[12]}) = ui_of_toggles (negb t) b.
Proof. destruct t, b; compute_done. Qed.

Lemma ui_of_toggles_basemap (t b : bool) :
  (if negb b
   then {[9]} ∪ ui_of_toggles t b
   else ui_of_toggles t b ∖ {[9]}) = ui_of_toggles t (negb b).
Proof. destruct t, b; compute_done. Qed.

Lemma ui_tracks_toggles_step (env : Env) (s : page) (ev : event) :
  ui (wld s) = ui_of_toggles (toolsOpen (comp s)) (basemapOpen (comp s)) →
  (mounted (comp s) = true →
   viewRef (comp s) = Some (made (env_sdk env) 2 CMapView) ∧
   widgetsRef (comp s) = widgets_full (env_sdk env)) →
  ui (wld (step env s ev)) =
    ui_of_toggles (toolsOpen (comp (step env s ev))) (basemapOpen (comp (step env s ev))) ∧
  (mounted (comp (step env s ev)) = true →
   viewRef (comp (step env s ev)) = Some (made (env_sdk env) 2 CMapView) ∧
   widgetsRef (comp (step env s ev)) = widgets_full (env_sdk env)).
Proof.
  intros Hui Hrefs. destruct ev; unfold step.
  - destruct (setup_resume_frame env s) as (-> & -> & -> & -> & -> & _ & _ & ->). done.
  - destruct (cleanup_run s) as (_ & _ & _ & -> & _ & -> & _).
    destruct (cleanup_console s) as (_ & _ & _ & -> & -> & _). done.
  - destruct (buttons_rendered s) eqn:Hb; [| done].
    apply andb_true_iff in Hb as [Hm _]. destruct (Hrefs Hm) as (Hv & Hw).
    rewrite handleToolsToggle_exec.
    rewrite (toolsEffect_present (tools_flipped s) (made (env_sdk env) 2 CMapView)
               (made (env_sdk env) 11 (CWidget measurement))
               (made (env_sdk env) 12 (CWidget sketch)));
      [| done | cbn; by rewrite Hw | cbn; by rewrite Hw].
    cbn. rewrite Hui. split; [apply ui_of_toggles_tools | done].
  - destruct (buttons_rendered s) eqn:Hb; [| done].
    apply andb_true_iff in Hb as [Hm _]. destruct (Hrefs Hm) as (Hv & Hw).
    rewrite handleBasemapToggle_exec.
    rewrite (basemapEffect_present (basemap_flipped s) (made (env_sdk env) 2 CMapView)
               (made (env_sdk env) 9 (CWidget basemapGallery)));
      [| done | cbn; by rewrite Hw].
    cbn. rewrite Hui. split; [apply ui_of_toggles_basemap | done].
Qed.

Lemma ui_tracks_toggles_run (env : Env) (div : jsobj) (evs : list event) :
  container env = Some div → constructs_all (env_sdk env) →
  ui (wld (run env evs)) =
    ui_of_toggles (toolsOpen (comp (run env evs))) (basemapOpen (comp (run env evs))) ∧
  (mounted (comp (run env evs)) = true →
   viewRef (comp (run env evs)) = Some (made (env_sdk env) 2 CMapView) ∧
   widgetsRef (comp (run env evs)) = widgets_full (env_sdk env)).
Proof.
  intros Hc Hall. induction evs as [| ev evs IH] using rev_ind.
  - unfold run. cbn [fold_left]. rewrite (mount_ok env div Hc Hall). cbn.
    split; [compute_done | done].
  - rewrite run_snoc. destruct IH as (I1 & I2). by apply ui_tracks_toggles_step.
Qed.

(** X14: when every construction succeeded, the UI surface is, in every
    state the component can reach, determined by the two toggles: it holds
    the seven default widgets, the measurement and sketch widgets exactly
    when the tools toggle is open, and the basemap gallery exactly when the
    basemap toggle is open.  No sequence of clicks, resumptions and
    unmounts takes a default widget off or leaves a toggled widget behind. *)
Theorem ui_tracks_toggles (env : Env) (div : jsobj) (evs : list event) :
  container env = Some div → constructs_all (env_sdk env) →
  ui (wld (run env evs)) =
    ui_of_toggles (toolsOpen (comp (run env evs))) (basemapOpen (comp (run env evs))) ∧
  default_ui ⊆ ui (wld (run env evs)).
Proof.
  intros Hc Hall. destruct (ui_tracks_toggles_run env div evs Hc Hall) as (H & _).
  split; [exact H |]. rewrite H. unfold ui_of_toggles. set_solver.
Qed.

(** X14 on the example after some clicks. *)
Lemma ui_tracks_toggles_witness :
  ui (wld (run env_ok [ClickTools; Resume; ClickBasemap; ClickTools])) =
  ui_of_toggles (toolsOpen (comp (run env_ok [ClickTools; Resume; ClickBasemap; ClickTools])))
                (basemapOpen (comp (run env_ok [ClickTools; Resume; ClickBasemap; ClickTools]))).
Proof.
  apply (ui_tracks_toggles env_ok div0 [ClickTools; Resume; ClickBasemap; ClickTools]).
  - reflexivity.
  - intros c. reflexivity.
Defined.

(** What a click does to the toggles. *)
Lemma click_toggles (env : Env) (s : page) :
  (toolsOpen (comp (step env s ClickTools)) = xorb (buttons_rendered s) (toolsOpen (comp s)) ∧
   basemapOpen (comp (step env s ClickTools)) = basemapOpen (comp s) ∧
   buttons_rendered (step env s ClickTools) = buttons_rendered s) ∧
  (basemapOpen (comp (step env s ClickBasemap))
     = xorb (buttons_rendered s) (basemapOpen (comp s)) ∧
   toolsOpen (comp (step env s ClickBasemap)) = toolsOpen (comp s) ∧
   buttons_rendered (step env s ClickBasemap) = buttons_rendered s).
Proof.
  split; unfold step; destruct (buttons_rendered s) eqn:Hb; try done.
  - rewrite handleToolsToggle_exec.
    unfold buttons_rendered in *.
    unfold exec, toolsEffect, tools_flipped, bind, gets. cbn.
    destruct (viewRef (comp s)), (ws_get measurement (widgetsRef (comp s))),
      (ws_get sketch (widgetsRef (comp s))), (toolsOpen (comp s)); cbn; by rewrite ?Hb.
  - rewrite handleBasemapToggle_exec.
    unfold buttons_rendered in *.
    unfold exec, basemapEffect, basemap_flipped, bind, gets. cbn.
    destruct (viewRef (comp s)), (ws_get basemapGallery (widgetsRef (comp s))),
      (basemapOpen (comp s)); cbn; by rewrite ?Hb.
Qed.

(** X15: the two toggles are independent: when every construction
    succeeded, clicking "tools" then "basemap" and clicking "basemap" then
    "tools" lead, from any reachable state, to the same UI surface and the
    same toggles. *)
Theorem toggles_commute (env : Env) (div : jsobj) (evs : list event) :
  container env = Some div → constructs_all (env_sdk env) →
  ui (wld (run env (evs ++ [ClickTools; ClickBasemap]))) =
    ui (wld (run env (evs ++ [ClickBasemap; ClickTools]))) ∧
  toolsOpen (comp (run env (evs ++ [ClickTools; ClickBasemap]))) =
    toolsOpen (comp (run env (evs ++ [ClickBasemap; ClickTools]))) ∧
  basemapOpen (comp (run env (evs ++ [ClickTools; ClickBasemap]))) =
    basemapOpen (comp (run env (evs ++ [ClickBasemap; ClickTools]))).
Proof.
  intros Hc Hall.
  destruct (ui_tracks_toggles_run env div (evs ++ [ClickTools; ClickBasemap]) Hc Hall)
    as (-> & _).
  destruct (ui_tracks_toggles_run env div (evs ++ [ClickBasemap; ClickTools]) Hc Hall)
    as (-> & _).
  rewrite !run_app. cbn [fold_left]. set (s := run env evs).
  destruct (click_toggles env s) as ((T1 & T2 & T3) & (B1 & B2 & B3)).
  destruct (click_toggles env (step env s ClickTools)) as (_ & (B4 & B5 & _)).
  destruct (click_toggles env (step env s ClickBasemap)) as ((T4 & T5 & _) & _).
  assert (E1 : toolsOpen (comp (step env (step env s ClickTools) ClickBasemap)) =
               toolsOpen (comp (step env (step env s ClickBasemap) ClickTools)))
    by congruence.
  assert (E2 : basemapOpen (comp (step env (step env s ClickTools) ClickBasemap)) =
               basemapOpen (comp (step env (step env s ClickBasemap) ClickTools)))
    by congruence.
  by rewrite E1, E2.
Qed.

(** X15 on the example right after the mount. *)
Lemma toggles_commute_witness :
  ui (wld (run env_ok ([] ++ [ClickTools; ClickBasemap]))) =
  ui (wld (run env_ok ([] ++ [ClickBasemap; ClickTools]))).
Proof.
  apply (toggles_commute env_ok div0 []).
  - reflexivity.
  - intros c. reflexivity.
Defined.

(* ===================================================================== *)
(** ** The first revision against the current one                         *)
(* ===================================================================== *)

(** The loop of [V1.addPointsToLayer] on records that all have
    coordinates: a marker for every record, checked or not. *)
Lemma v1_loop (parse : string → num) (points : list point) (a : extent) (σ : world) :
  Forall (λ p, coordinates p ≠ None) points →
  forEach_acc
    (fun p a =>
       match coordinates p with
       | None => throw (Other "TypeError: point.coordinates is not iterable")
       | Some cs =>
         let lon := V1.ToNumber parse (nth 0 cs VUndefined) in
         let lat := V1.ToNumber parse (nth 1 cs VUndefined) in
         layer_add p ;;
         ret (mkExtent (Math_min (minLon a) lon) (Math_min (minLat a) lat)
                       (Math_max (maxLon a) lon) (Math_max (maxLat a) lat))
       end) points a σ =
  (inl (fold_left (v1_extend parse) points a),
   mkWorld (heap σ) (torn_down σ) (ui σ) (layer σ ++ points) (listeners σ) (console σ)).
Proof.
  intros Hall. revert a σ. induction Hall as [| p points Hp _ IH]; intros a σ.
  - simpl. destruct σ. simpl. by rewrite app_nil_r.
  - cbn [forEach_acc fold_left]. unfold bind at 1.
    unfold v1_extend at 2, longitude, latitude.
    destruct (coordinates p) as [cs |]; [| done].
    cbn. rewrite IH. cbn. by rewrite <- app_assoc.
Qed.

Lemma v1_addPointsToLayer_run (parse : string → num) (points : list point)
    (graphicsLayer : jsobj) (σ : world) :
  Forall (λ p, coordinates p ≠ None) points →
  V1.addPointsToLayer parse points graphicsLayer σ =
  (let a := fold_left (v1_extend parse) points extent0 in
   (inl ((minLon a, minLat a), (maxLon a, maxLat a)),
    mkWorld (heap σ) (torn_down σ) (ui σ) (layer σ ++ points) (listeners σ) (console σ))).
Proof.
  intros Hall. unfold V1.addPointsToLayer. unfold bind at 1. by rewrite v1_loop.
Qed.

Lemma v1_extend_valid (parse : string → num) (points : list point) (a : extent) :
  Forall (λ p, structurally_valid p = true) points →
  fold_left (v1_extend parse) points a = fold_left extend points a.
Proof.
  intros Hall. revert a. induction Hall as [| p points Hp _ IH]; intros a; [done |].
  cbn [fold_left]. rewrite <- IH. f_equal.
  destruct (structurally_valid_inv p Hp) as (lon & lat & rest & Hc & _).
  unfold v1_extend, extend, longitude, latitude. by rewrite Hc.
Qed.

Lemma valid_has_coordinates (points : list point) :
  Forall (λ p, structurally_valid p = true) points →
  Forall (λ p, coordinates p ≠ None) points.
Proof.
  intros Hall. eapply Forall_impl; [exact Hall |].
  intros p (lon & lat & rest & Hc & _)%structurally_valid_inv. by rewrite Hc.
Qed.

(** X16: on data whose records are all structurally valid, the unchecked
    bounds of the first revision are the bounds of [calculateBounds]:
    whenever [calculateBounds] returns a box, [V1.addPointsToLayer] returns
    the same box, and draws a marker for every record. *)
Theorem v1_bounds_agree (parse : string → num) (points : list point)
    (graphicsLayer : jsobj) (σ σ' : world) (b : box) :
  Forall (λ p, structurally_valid p = true) points →
  fst (calculateBounds points σ) = inl b →
  fst (V1.addPointsToLayer parse points graphicsLayer σ') = inl b ∧
  layer (snd (V1.addPointsToLayer parse points graphicsLayer σ')) = (layer σ' ++ points)%list.
Proof.
  intros Hall Hb.
  rewrite v1_addPointsToLayer_run by (by apply valid_has_coordinates).
  cbv zeta. split; [| done]. cbn [fst].
  assert (Hne : points ≠ []) by (intros ->; discriminate Hb).
  rewrite calculateBounds_unfold in Hb by done. cbv zeta in Hb.
  rewrite (filter_all _ points Hall) in Hb.
  rewrite (v1_extend_valid parse points extent0 Hall).
  destruct (isFinite _ && isFinite _ && isFinite _ && isFinite _); [| done].
  exact Hb.
Qed.

(** X16 on the two-point example. *)
Lemma v1_bounds_agree_witness :
  fst (V1.addPointsToLayer parse_nothing example_points div0 world0) =
  inl ((Fin 30, Fin 28), (Fin 32, Fin 30)).
Proof.
  apply (v1_bounds_agree parse_nothing example_points div0 world0 world0).
  - repeat constructor.
  - reflexivity.
Defined.

Lemma Math_min_NaN_l (x : num) : Math_min NaN x = NaN.
Proof. done. Qed.

Lemma Math_min_NaN_r (x : num) : Math_min x NaN = NaN.
Proof. by destruct x. Qed.

Lemma Math_max_NaN_l (x : num) : Math_max NaN x = NaN.
Proof. done. Qed.

Lemma Math_max_NaN_r (x : num) : Math_max x NaN = NaN.
Proof. by destruct x. Qed.

Lemma v1_NaN_sticks (parse : string → num) (points : list point) (a : extent) :
  minLon a = NaN → maxLon a = NaN →
  minLon (fold_left (v1_extend parse) points a) = NaN ∧
  maxLon (fold_left (v1_extend parse) points a) = NaN.
Proof.
  revert a. induction points as [| p points IH]; intros a H1 H2; [done |].
  cbn [fold_left]. apply IH; unfold v1_extend; cbn; by rewrite ?H1, ?H2.
Qed.

(** X17: without validation one bad record spoils the bounds: when every
    record has coordinates and one of them has a longitude that converts to
    NaN, the first revision returns a box whose [minLon] and [maxLon] are
    both NaN, whatever the other records are. *)
Theorem v1_bad_record_spoils_bounds (parse : string → num) (points : list point)
    (graphicsLayer : jsobj) (σ : world) (p : point) :
  Forall (λ p, coordinates p ≠ None) points →
  p ∈ points → V1.ToNumber parse (longitude p) = NaN →
  ∃ b, fst (V1.addPointsToLayer parse points graphicsLayer σ) = inl b ∧
       box_minLon b = NaN ∧ box_maxLon b = NaN.
Proof.
  intros Hall Hp Hnan. rewrite v1_addPointsToLayer_run by done. cbv zeta.
  eexists. split; [reflexivity |].
  unfold box_minLon, box_maxLon. cbn [fst snd].
  apply list_elem_of_split in Hp as (l1 & l2 & ->).
  rewrite fold_left_app. cbn [fold_left].
  apply v1_NaN_sticks; unfold v1_extend; cbn; rewrite Hnan.
  - apply Math_min_NaN_r.
  - apply Math_max_NaN_r.
Qed.

(** X17 on the example whose second record has the longitude "x". *)
Lemma v1_bad_record_spoils_bounds_witness :
  ∃ b, fst (V1.addPointsToLayer parse_nothing example_with_invalid div0 world0) = inl b ∧
       box_minLon b = NaN ∧ box_maxLon b = NaN.
Proof.
  apply (v1_bad_record_spoils_bounds parse_nothing example_with_invalid div0 world0
           point_B_invalid).
  - repeat constructor; discriminate.
  - apply list_elem_of_further, list_elem_of_here.
  - reflexivity.
Defined.




(** X19: when every construction succeeds, [V1.setupAllWidgets] returns the
    widget set [createAllWidgets] returns and leaves the same objects
    constructed; the only difference is that it has placed on the UI
    surface the widgets of the seven default names, and no other. *)
Theorem v1_setupAllWidgets_places_defaults (sdk : Sdk) (view l : jsobj) (σ : world) :
  constructs_all sdk →
  ∃ ws σ1,
    createAllWidgets sdk view (Some l) σ = (inl ws, σ1) ∧
    fst (V1.setupAllWidgets sdk view (Some l) σ) = inl ws ∧
    heap (snd (V1.setupAllWidgets sdk view (Some l) σ)) = heap σ1 ∧
    ui σ1 = ui σ ∧
    ui (snd (V1.setupAllWidgets sdk view (Some l) σ)) = placed ws ∪ ui σ.
Proof.
  intros Hall. destruct σ as [h t u la li co]. unfold_v1. unfold_bulk. rewrite !Hall.
  cbv [ui_add modify alloc heap torn_down ui layer listeners console fst snd].
  eexists _, _. split; [reflexivity |].
  split; [done |]. split; [done |]. split; [done |].
  unfold placed, default_names. cbn. set_solver.
Qed.

(** X19 on the SDK that never fails: the UI surface is the default one. *)
Lemma v1_setupAllWidgets_places_defaults_witness :
  ∃ ws σ1,
    createAllWidgets sdk_ok div0 (Some div0) world0 = (inl ws, σ1) ∧
    fst (V1.setupAllWidgets sdk_ok div0 (Some div0) world0) = inl ws ∧
    heap (snd (V1.setupAllWidgets sdk_ok div0 (Some div0) world0)) = heap σ1 ∧
    ui σ1 = ui world0 ∧
    ui (snd (V1.setupAllWidgets sdk_ok div0 (Some div0) world0)) = placed ws ∪ ui world0.
Proof.
  apply (v1_setupAllWidgets_places_defaults sdk_ok div0 div0 world0).
  intros c. reflexivity.
Defined.

(** X20: when a widget constructor throws, [V1.setupAllWidgets] throws the
    SDK's own error, unwrapped; the widgets constructed before it stay on
    the heap, and none of them has been placed on the UI surface, since the
    placements come after the last construction. *)
Theorem v1_setupAllWidgets_failure (sdk : Sdk) (view : jsobj)
    (graphicsLayer : option jsobj) (σ : world) (c : ctor) (e : thrown) :
  first_failure sdk (bulk_order graphicsLayer) = Some (c, e) →
  V1.setupAllWidgets sdk view graphicsLayer σ =
  (inr e, with_heap σ (constructed sdk (bulk_order graphicsLayer))).
Proof.
  rewrite <- (with_heap_nil σ) at 1.
  unfold_v1. destruct graphicsLayer as [l |];
    cbn [bulk_order first_failure constructed app];
    case_new; intros H; try discriminate H; injection H as <- <-;
    rewrite ?with_heap_alloc; reflexivity.
Qed.

(** X20 on the SDK whose [Compass] constructor throws. *)
Lemma v1_setupAllWidgets_failure_witness :
  V1.setupAllWidgets sdk_compass_fails div0 (Some div0) world0 =
  (inr (Error "no compass"), with_heap world0 [CWidget home]).
Proof.
  apply (v1_setupAllWidgets_failure sdk_compass_fails div0 (Some div0) world0
           (CWidget compass) (Error "no compass")).
  reflexivity.
Defined.

Lemma v1_initializeMap_ok (sdk : Sdk) (div : jsobj) :
  constructs_all sdk →
  V1.initializeMap sdk (Some div) world0 =
  (inl (Some (made sdk 2 CMapView, made sdk 1 CGraphicsLayer, widgets_full sdk)),
   mkWorld init_order [] default_ui [] [] []).
Proof.
  intros Hall. unfold V1.initializeMap.
  cbv [V1.createMap V1.createGraphicsLayer V1.createMapView map_add].
  unfold_v1. rewrite !Hall. vm_compute. reflexivity.
Qed.

(** X21: in the first revision, mounting and then unmounting a component
    whose construction succeeded tears down the view and none of the ten
    widgets: the cleanup closes over the widget set of the first render,
    which is empty.  A marker has been drawn for every record. *)
Theorem v1_unmount_leaks_widgets (parse : string → num) (env : Env) (div : jsobj) :
  container env = Some div → constructs_all (env_sdk env) →
  destroy_throws (env_sdk env) CMapView = None →
  Forall (λ p, coordinates p ≠ None) (pointsData env) →
  ∃ σ, V1.mount_unmount parse env world0 = (inl tt, σ) ∧
       heap σ = init_order ∧ torn_down σ = [2] ∧
       ui σ = default_ui ∧ layer σ = pointsData env.
Proof.
  intros Hc Hall Hd Hpts. unfold V1.mount_unmount, V1.mountEffect. rewrite Hc.
  unfold bind at 1 2. rewrite (v1_initializeMap_ok _ div Hall).
  unfold bind at 1. rewrite v1_addPointsToLayer_run by done. cbv zeta.
  cbn [heap torn_down ui layer listeners console app].
  unfold bind, listen, modify, ret.
  destruct (onMapClick env), (onExtentChange env); cbn [fst snd];
    (rewrite v1_cleanup_view_only by (cbn; by rewrite Hd));
    eexists; (split; [reflexivity | by repeat split]).
Qed.

(** X21 on the example. *)
Lemma v1_unmount_leaks_widgets_witness :
  ∃ σ, V1.mount_unmount parse_nothing env_ok world0 = (inl tt, σ) ∧
       heap σ = init_order ∧ torn_down σ = [2] ∧
       ui σ = default_ui ∧ layer σ = pointsData env_ok.
Proof.
  apply (v1_unmount_leaks_widgets parse_nothing env_ok div0).
  - reflexivity.
  - intros c. reflexivity.
  - reflexivity.
  - repeat constructor; discriminate.
Defined.

(* ===================================================================== *)
(** ** What is rendered                                                   *)
(* ===================================================================== *)

Lemma cleanup_loading (s : page) :
  loading (comp (exec cleanup s)) = loading (comp s).
Proof.
  unfold exec, cleanup, bind, gets, modifyC, modify, liftW. cbn [fst snd comp wld].
  rewrite destroyWidgets_run. cbn [comp wld set_mounted set_widgetsRef viewRef].
  destruct (viewRef (comp s)) as [v |]; [rewrite destroyView_run |]; done.
Qed.

Lemma setup_catch_loading (err : thrown) (s : page) :
  error (comp s) = None ∨ loading (comp s) = false →
  error (comp (setup_catch err s)) = None ∨ loading (comp (setup_catch err s)) = false.
Proof. unfold setup_catch. destruct (mounted (comp s)); cbn; auto. Qed.

(** In every state the component can reach, an error in the state means the
    loading flag is off. *)
Lemma error_ends_loading (env : Env) (evs : list event) :
  error (comp (run env evs)) = None ∨ loading (comp (run env evs)) = false.
Proof.
  induction evs as [| ev evs IH] using rev_ind.
  - left. destruct (mount_state env) as (_ & _ & (H & _)). exact H.
  - rewrite run_snoc. set (s := run env evs) in *.
    destruct ev.
    + unfold step, setup_resume.
      destruct (pending (comp s)) as [[[mapView graphicsLayer] | err] | mapView bounds | |].
      * destruct (negb (mounted (comp s))); [exact IH |].
        match goal with
        | |- context [bind ?a ?b (wld s)] =>
          destruct (bind a b (wld s)) as [[bounds | err] σ]
        end; [exact IH |].
        by apply setup_catch_loading.
      * by apply setup_catch_loading.
      * destruct (when_rejects (env_sdk env)); [by apply setup_catch_loading |].
        destruct (mounted (comp s)); exact IH.
      * destruct (goTo_rejects (env_sdk env)); [by apply setup_catch_loading |].
        by right.
      * exact IH.
    + unfold step. destruct (cleanup_setup s) as (_ & ->). by rewrite cleanup_loading.
    + destruct (click_setup env s ClickTools) as (_ & _ & -> & ->); auto.
    + destruct (click_setup env s ClickBasemap) as (_ & _ & -> & ->); auto.
Qed.

(** X22: what the render returns in a state the component can reach.  The
    error panel is returned exactly when the component is Failed with a
    message that is not empty, since [if (error)] does not pass an empty
    message; otherwise the page is returned, with the loading overlay
    exactly while Initializing, each icon lit as its toggle is, and a
    container whose id is never empty.  While the model accepts clicks, the
    page with the buttons is what is rendered. *)
Theorem render_reachable (env : Env) (evs : list event) (mapId : option string) :
  let s := run env evs in
  (∀ m, render mapId (comp s) = ErrorPanel m ↔ lifecycle_of s = Failed m ∧ m ≠ "") ∧
  (∀ o i t b, render mapId (comp s) = MapPage o i t b →
     (o = true ↔ lifecycle_of s = Initializing) ∧
     t = toolsOpen (comp s) ∧ b = basemapOpen (comp s) ∧ i ≠ "") ∧
  (buttons_rendered s = true → ∃ o i t b, render mapId (comp s) = MapPage o i t b).
Proof.
  intros s. pose proof (error_ends_loading env evs) as Hinv. fold s in Hinv.
  unfold render, lifecycle_of, buttons_rendered.
  destruct (error (comp s)) as [m |] eqn:He.
  - destruct Hinv as [Hinv | Hl]; [discriminate Hinv |]. rewrite Hl.
    destruct (bool_decide (m = "")) eqn:Hm.
    + apply bool_decide_eq_true in Hm. subst m.
      split; [| split].
      * intros m. split; [discriminate |]. intros (Hf & Hne). by injection Hf as <-.
      * intros o i t b H. injection H as <- <- <- <-.
        repeat split; try done.
        destruct mapId as [name |]; [| done].
        destruct (bool_decide (name = "")) eqn:Hn; [done |].
        by apply bool_decide_eq_false in Hn.
      * rewrite andb_false_r. discriminate.
    + apply bool_decide_eq_false in Hm.
      split; [| split].
      * intros m'. split.
        -- intros H. injection H as <-. done.
        -- intros (Hf & _). by injection Hf as <-.
      * discriminate.
      * rewrite andb_false_r. discriminate.
  - split; [| split].
    + intros m. split; [discriminate |]. intros (Hf & _).
      destruct (loading (comp s)); discriminate Hf.
    + intros o i t b H. injection H as <- <- <- <-.
      repeat split; try done.
      * intros ->. done.
      * by destruct (loading (comp s)).
      * destruct mapId as [name |]; [| done].
        destruct (bool_decide (name = "")) eqn:Hn; [done |].
        by apply bool_decide_eq_false in Hn.
    + intros _. by eexists _, _, _, _.
Qed.

(** X22 on the example, while [setup] waits for the view. *)
Lemma render_reachable_witness :
  ∃ o i t b, render None (comp (run env_ok [Resume])) = MapPage o i t b.
Proof.
  destruct (render_reachable env_ok [Resume] None) as (_ & _ & H).
  apply H. reflexivity.
Defined.

(** A rejection with an [Error] without message: the component has failed,
    and renders the page of a Ready one. *)
Lemma failure_without_message_is_silent :
  lifecycle_of (run env_goTo_silent [Resume; Resume; Resume]) = Failed "" ∧
  render None (comp (run env_goTo_silent [Resume; Resume; Resume])) =
  MapPage false "mapDiv" false false.
Proof. split; reflexivity. Qed.


(* ===================================================================== *)
(** ** The toggle effects of the two revisions                            *)
(* ===================================================================== *)

(** X23: the toggle effects of the current revision, which read the view
    and the widgets from refs, do to the SDK what those of the first
    revision do when given the same view, widgets and toggle; beyond that
    they only record the toggle in [toolsOpenRef] or [basemapOpenRef], and
    that only when the view and the widgets are there. *)
Theorem effects_agree_across_revisions (s : page) :
  (wld (exec toolsEffect s) =
     snd (V1.toolsEffect (viewRef (comp s)) (widgetsRef (comp s)) (toolsOpen (comp s)) (wld s)) ∧
   comp (exec toolsEffect s) =
     match viewRef (comp s), ws_get measurement (widgetsRef (comp s)),
           ws_get sketch (widgetsRef (comp s)) with
     | Some _, Some _, Some _ => set_toolsOpenRef (toolsOpen (comp s)) (comp s)
     | _, _, _ => comp s
     end) ∧
  (wld (exec basemapEffect s) =
     snd (V1.basemapEffect (viewRef (comp s)) (widgetsRef (comp s)) (basemapOpen (comp s))
            (wld s)) ∧
   comp (exec basemapEffect s) =
     match viewRef (comp s), ws_get basemapGallery (widgetsRef (comp s)) with
     | Some _, Some _ => set_basemapOpenRef (basemapOpen (comp s)) (comp s)
     | _, _ => comp s
     end).
Proof.
  unfold exec, toolsEffect, basemapEffect, V1.toolsEffect, V1.basemapEffect, bind, gets.
  destruct s as [c w]. cbn [comp wld fst snd].
  destruct (viewRef c) as [v |]; [| by repeat split].
  split.
  - destruct (ws_get measurement (widgetsRef c)) as [w1 |]; [| by repeat split].
    destruct (ws_get sketch (widgetsRef c)) as [w2 |]; [| by repeat split].
    cbn [comp wld]. destruct (toolsOpen c); by repeat split.
  - destruct (ws_get basemapGallery (widgetsRef c)) as [w1 |]; [| by repeat split].
    cbn [comp wld]. destruct (basemapOpen c); by repeat split.
Qed.
